(** * The DriftMgr user-simulation harness (scripts/tools/user_simulation.py)

    A shallow embedding of the command runner, the outcome validator, the
    progress bar and the report generator of the harness, together with the
    properties of the harness specification that concern them.

    Conventions of the embedding:
    - Python [int] is [Z]; Python [float] is IEEE 754 binary64, taken from the
      standard library's [SpecFloat] (precision 53, [emax] 1024), so that
      rounding is the interpreter's;
    - Python [str] is [string], the UTF-8 text of the string;
    - a method is a computation in a state-and-exception monad over the fields
      of its object; a raised exception keeps the state reached so far, as
      attribute assignments do in Python;
    - the outside world (child processes, the system clock, the random
      choice of regions, the operator's interruption) is a [World] of
      oracles;
    - what the harness prints and logs is taken to be written without an
      error, and is kept only where a property reads it: the status lines of
      the loading bar and the report file. *)

From Stdlib Require Import ZArith Lia String Ascii List Bool.
From Stdlib Require Import Floats.SpecFloat.
From stdpp Require Import gmap strings pretty.

Local Open Scope string_scope.
Local Open Scope Z_scope.

(** ** Exceptions and the monad of methods *)

(** The exception classes the harness meets. [KeyboardInterrupt] derives from
    [BaseException] only: an [except Exception] clause lets it through. *)
Inductive exn_class : Type :=
| TimeoutExpired
| FileNotFoundError
| ZeroDivisionError
| OverflowError
| ValueError
| MemoryError
| OtherException
| KeyboardInterrupt.

Record exn : Type := Exn { exn_cls : exn_class; exn_msg : string }.

Definition is_Exception (e : exn) : bool :=
  match exn_cls e with KeyboardInterrupt => false | _ => true end.

Inductive outcome (S A : Type) : Type :=
| Ret (a : A) (s : S)
| Exc (e : exn) (s : S).
Arguments Ret {S A} a s.
Arguments Exc {S A} e s.

Definition M (S A : Type) : Type := S -> outcome S A.

Definition ret {S A} (a : A) : M S A := fun s => Ret a s.

Definition bind {S A B} (m : M S A) (k : A -> M S B) : M S B :=
  fun s => match m s with
           | Ret a s' => k a s'
           | Exc e s' => Exc e s'
           end.

Definition raise {S A} (c : exn_class) (msg : string) : M S A :=
  fun s => Exc (Exn c msg) s.

Definition get {S} : M S S := fun s => Ret s s.
Definition modify {S} (f : S -> S) : M S unit := fun s => Ret tt (f s).

(** [try: body except e: handler e]; an exception of the handler propagates. *)
Definition try_except {S A} (body : M S A) (handler : exn -> M S A) : M S A :=
  fun s => match body s with
           | Ret a s' => Ret a s'
           | Exc e s' => handler e s'
           end.

(** A method of a component, run on the field of the object that holds it. *)
Definition zoom {S T A} (proj : S -> T) (inj : T -> S -> S) (m : M T A) : M S A :=
  fun s => match m (proj s) with
           | Ret a t => Ret a (inj t s)
           | Exc e t => Exc e (inj t s)
           end.

(** [for x in l: body x]. *)
Fixpoint for_each {S A} (l : list A) (body : A -> M S unit) : M S unit :=
  match l with
  | [] => ret tt
  | x :: l' => bind (body x) (fun _ => for_each l' body)
  end.

Declare Scope py_scope.
Delimit Scope py_scope with py.
Notation "x <- m ;; k" := (bind m (fun x => k))
  (at level 100, m at next level, right associativity) : py_scope.
Notation "m ;;; k" := (bind m (fun _ => k))
  (at level 100, right associativity) : py_scope.
Local Open Scope py_scope.

(** ** Python floats *)

Module PyFloat.

Definition prec : Z := 53.
Definition emax : Z := 1024.

Definition float : Type := spec_float.

Definition fmul : float -> float -> float := SFmul prec emax.
Definition fsub : float -> float -> float := SFsub prec emax.
Definition fadd : float -> float -> float := SFadd prec emax.
Definition fltb : float -> float -> bool := SFltb.

(** The float nearest to an integer (ties to even); infinite past the
    largest float. *)
Definition nearest (z : Z) : float := binary_normalize prec emax z 0 false.

Definition zero : float := S754_zero false.
Definition one : float := Eval cbv in nearest 1.
Definition hundred : float := Eval cbv in nearest 100.

(** [float(z)], also the conversion of an [int] operand next to a [float]
    one: "int too large to convert to float". *)
Definition of_int {S} (z : Z) : M S float :=
  match nearest z with
  | S754_infinity _ => raise OverflowError "int too large to convert to float"
  | f => ret f
  end.

(** An integer as an unnormalised float, exact whatever its size. *)
Definition exact (z : Z) : float :=
  match z with
  | Z0 => S754_zero false
  | Zpos p => S754_finite false p 0
  | Zneg p => S754_finite true p 0
  end.

(** [a / b] on two [int]s: the correctly rounded quotient. *)
Definition truediv_int {S} (a b : Z) : M S float :=
  if b =? 0 then raise ZeroDivisionError "division by zero"
  else match SFdiv prec emax (exact a) (exact b) with
       | S754_infinity _ =>
           raise OverflowError "integer division result too large for a float"
       | f => ret f
       end.

(** [x / y] on two [float]s. *)
Definition truediv {S} (x y : float) : M S float :=
  match y with
  | S754_zero _ => raise ZeroDivisionError "float division by zero"
  | _ => ret (SFdiv prec emax x y)
  end.

(** [int(x)]: truncation towards zero ([Z.shiftl] by a negative amount
    shifts to the right). *)
Definition to_int {S} (x : float) : M S Z :=
  match x with
  | S754_nan => raise ValueError "cannot convert float NaN to integer"
  | S754_infinity _ => raise OverflowError "cannot convert float infinity to integer"
  | S754_zero _ => ret 0
  | S754_finite s m e =>
      ret (if s then - Z.shiftl (Zpos m) e else Z.shiftl (Zpos m) e)
  end.

(** [math.floor(x)], the largest integer not above [x]. The harness never
    calls it: it is the rounding the specification names. *)
Definition floor {S} (x : float) : M S Z :=
  match x with
  | S754_nan => raise ValueError "cannot convert float NaN to integer"
  | S754_infinity _ => raise OverflowError "cannot convert float infinity to integer"
  | S754_zero _ => ret 0
  | S754_finite s m e => ret (Z.shiftl (if s then Zneg m else Zpos m) e)
  end.

(** [min(x, y)] of the builtin: [y] when [y < x], otherwise [x]. *)
Definition min (x y : float) : float := if fltb y x then y else x.

Definition half : float := Eval cbv in SFdiv prec emax one (nearest 2).

(** The test [if (x)] of C on a double: [x != 0.0], true of NaN. *)
Definition nonzero (x : float) : bool :=
  match x with S754_zero _ => false | _ => true end.

(** C's [copysign(0.0, x)]. *)
Definition signed_zero (x : float) : float :=
  match x with
  | S754_zero s | S754_infinity s | S754_finite s _ _ => S754_zero s
  | S754_nan => S754_zero false
  end.

(** C's [fmod(x, y)]: what is left of [x] after the quotient truncated
    towards zero, with the sign of [x]. The remainder of two floats is a
    float: [binary_normalize] only brings it to its normal form. *)
Definition fmod (x y : float) : float :=
  match x, y with
  | S754_nan, _ | _, S754_nan => S754_nan
  | S754_infinity _, _ => S754_nan
  | _, S754_zero _ => S754_nan
  | S754_zero _, _ => x
  | S754_finite _ _ _, S754_infinity _ => x
  | S754_finite sx mx ex, S754_finite _ my ey =>
      let e := Z.min ex ey in
      match (Zpos mx * 2 ^ (ex - e)) mod (Zpos my * 2 ^ (ey - e)) with
      | Z0 => S754_zero sx
      | r => binary_normalize prec emax (if sx then - r else r) e false
      end
  end.

(** C's [floor(x)], as a float. *)
Definition ffloor (x : float) : float :=
  match x with
  | S754_finite s m e =>
      match Z.shiftl (if s then Zneg m else Zpos m) e with
      | Z0 => S754_zero s
      | z => nearest z
      end
  | _ => x
  end.

(** [x // y] on two [float]s: the quotient of the interpreter's
    [_float_div_mod], snapped to the nearest integral value. *)
Definition floordiv {S} (x y : float) : M S float :=
  match y with
  | S754_zero _ => raise ZeroDivisionError "float floor division by zero"
  | _ =>
      let rem := fmod x y in
      let quo := SFdiv prec emax (fsub x rem) y in
      let quo := if nonzero rem && negb (Bool.eqb (fltb y zero) (fltb rem zero))
                 then fsub quo one else quo in
      ret (if nonzero quo
           then let f := ffloor quo in
                if fltb half (fsub quo f) then fadd f one else f
           else signed_zero (SFdiv prec emax x y))
  end.

(** [x % y] on two [float]s: the remainder has the sign of [y]. *)
Definition fmodulo {S} (x y : float) : M S float :=
  match y with
  | S754_zero _ => raise ZeroDivisionError "float modulo"
  | _ =>
      let rem := fmod x y in
      ret (if nonzero rem
           then if negb (Bool.eqb (fltb y zero) (fltb rem zero))
                then fadd rem y else rem
           else signed_zero y)
  end.

End PyFloat.
Import PyFloat.

(** A number that is an [int] in some branches of the code and a [float] in
    others (a duration, a rate). *)
Inductive number : Type :=
| Int (z : Z)
| Float (x : float).

(** ** LoadingBar *)

(** One rendering of the status line: the bar (filled cells first), the
    percentage, the elapsed time and the ETA as MM:SS ([None] is the
    placeholder "ETA: --:--") and the step title. *)
Record Line : Type := {
  line_title : string;
  line_bar : list bool;
  line_filled_width : Z;
  line_percentage : Z;
  line_elapsed : string;
  line_eta : option string;
  line_step_title : string
}.

(** The fields of a [LoadingBar], and [screen] for the lines it wrote. The lock
    is left out: the harness has one thread. *)
Record LoadingBar : Type := {
  total_steps : Z;
  current_step : Z;
  width : Z;
  title : string;
  start_time : float;
  step_titles : list string;
  current_step_title : string;
  screen : list Line
}.

Module LoadingBar_.

(** [LoadingBar(total_steps, width, title)], constructed at time [now]. *)
Definition init (now : float) (total : Z) (w : Z) (t : string) : LoadingBar :=
  {| total_steps := total; current_step := 0; width := w; title := t;
     start_time := now; step_titles := []; current_step_title := "";
     screen := [] |}.

Definition add_step (t : string) : M LoadingBar unit :=
  modify (fun b =>
    {| total_steps := total_steps b; current_step := current_step b;
       width := width b; title := title b; start_time := start_time b;
       step_titles := step_titles b ++ [t];
       current_step_title := current_step_title b; screen := screen b |}).

Definition set_step (step : Z) (step_title : string) : M LoadingBar unit :=
  modify (fun b =>
    {| total_steps := total_steps b; current_step := step;
       width := width b; title := title b; start_time := start_time b;
       step_titles := step_titles b;
       current_step_title := step_title; screen := screen b |}).

Definition write (l : Line) : M LoadingBar unit :=
  modify (fun b =>
    {| total_steps := total_steps b; current_step := current_step b;
       width := width b; title := title b; start_time := start_time b;
       step_titles := step_titles b;
       current_step_title := current_step_title b;
       screen := screen b ++ [l] |}).

(** The longest string of bar characters (two bytes each) that the address
    space of a process, [2^47] bytes, can hold. *)
Definition max_cells : Z := 2 ^ 46.

(** [c * n] for a bar character [c]: a negative count gives the empty
    string, a count that is no index is refused, and a string beyond the
    address space cannot be allocated. *)
Definition cells {S} (c : bool) (n : Z) : M S (list bool) :=
  if (n <? - 2 ^ 63) || (2 ^ 63 <=? n)
  then raise OverflowError "cannot fit 'int' into an index-sized integer"
  else if max_cells <? n then raise MemoryError ""
  else ret (repeat c (Z.to_nat n)).

(** ["█" * filled + "░" * (width - filled)]. *)
Definition bar_cells {S} (w filled : Z) : M S (list bool) :=
  full <- cells true filled ;;
  rest <- cells false (w - filled) ;;
  if max_cells <? Z.of_nat (List.length full + List.length rest)
  then raise MemoryError ""
  else ret (full ++ rest)%list.

Definition sixty : float := Eval cbv in nearest 60.

(** [f"{n:02d}"]. *)
Definition two_digits (n : Z) : string :=
  if (0 <=? n) && (n <? 10) then "0" ++ pretty n else pretty n.

(** [_format_time(seconds)]: MM:SS. *)
Definition _format_time {S} (seconds : float) : M S string :=
  q <- floordiv seconds sixty ;;
  minutes <- to_int q ;;
  r <- fmodulo seconds sixty ;;
  seconds <- to_int r ;;
  ret (two_digits minutes ++ ":" ++ two_digits seconds).

(** [update(step, step_title)]; [now] is what [time.time()] returns. *)
Definition update (now : float) (step : Z) (step_title : string)
  : M LoadingBar unit :=
  set_step step step_title ;;;
  b <- get ;;
  q <- truediv_int step (total_steps b) ;;
  let progress := PyFloat.min q one in
  w <- of_int (width b) ;;
  filled_width <- to_int (fmul w progress) ;;
  bar <- bar_cells (width b) filled_width ;;
  percentage <- to_int (fmul progress hundred) ;;
  let elapsed_time := fsub now (start_time b) in
  eta_str <- (if fltb zero progress
              then r <- truediv elapsed_time progress ;;
                   let eta := fmul r (fsub one progress) in
                   t <- _format_time eta ;;
                   ret (Some t)
              else ret None) ;;
  elapsed_str <- _format_time elapsed_time ;;
  write {| line_title := title b; line_bar := bar;
           line_filled_width := filled_width;
           line_percentage := percentage;
           line_elapsed := elapsed_str; line_eta := eta_str;
           line_step_title := step_title |}.

End LoadingBar_.

(** ** SimulationTUI *)

Record SimulationTUI : Type := {
  loading_bar : option LoadingBar;
  current_feature : string;
  current_command : string;
  total_commands : Z;
  completed_commands : Z
}.

Module SimulationTUI_.

Definition init : SimulationTUI :=
  {| loading_bar := None; current_feature := ""; current_command := "";
     total_commands := 0; completed_commands := 0 |}.

Definition feature_steps : list string :=
  [ "Credential Auto-Detection"; "State File Detection";
    "Resource Discovery"; "Drift Analysis"; "Monitoring & Dashboard";
    "Remediation"; "Configuration"; "Reporting"; "Advanced Features";
    "Error Handling"; "Interactive Mode" ].

Definition set_bar (b : LoadingBar) (t : SimulationTUI) : SimulationTUI :=
  {| loading_bar := Some b; current_feature := current_feature t;
     current_command := current_command t;
     total_commands := total_commands t;
     completed_commands := completed_commands t |}.

(** A method of the loading bar, when there is one. *)
Definition on_bar {A} (b : LoadingBar) (m : M LoadingBar A) : M SimulationTUI A :=
  zoom (fun _ => b) set_bar m.

(** [initialize_simulation(total_commands)]: the bar has one step for each
    feature. *)
Definition initialize_simulation (now : float) (total : Z) : M SimulationTUI unit :=
  modify (fun t =>
    {| loading_bar := loading_bar t; current_feature := current_feature t;
       current_command := current_command t;
       total_commands := total; completed_commands := 0 |}) ;;;
  let b := LoadingBar_.init now (Z.of_nat (length feature_steps)) 50
             "DriftMgr User Simulation" in
  modify (set_bar b) ;;;
  for_each feature_steps (fun step =>
    t <- get ;;
    match loading_bar t with
    | Some b => on_bar b (LoadingBar_.add_step step)
    | None => ret tt
    end).

(** [update_feature_progress(feature_index, feature_name)]. *)
Definition update_feature_progress (now : float) (feature_index : Z)
    (feature_name : string) : M SimulationTUI unit :=
  t <- get ;;
  match loading_bar t with
  | Some b =>
      modify (fun t =>
        {| loading_bar := loading_bar t; current_feature := feature_name;
           current_command := current_command t;
           total_commands := total_commands t;
           completed_commands := completed_commands t |}) ;;;
      on_bar b (LoadingBar_.update now feature_index ("Testing: " ++ feature_name))
  | None => ret tt
  end.

(** [update_command_progress(command, success)]; the status line it prints
    for the command is left out. *)
Definition update_command_progress (now : float) (command : string)
    (success : bool) : M SimulationTUI unit :=
  modify (fun t =>
    {| loading_bar := loading_bar t; current_feature := current_feature t;
       current_command := current_command t;
       total_commands := total_commands t;
       completed_commands := completed_commands t + 1 |}) ;;;
  t <- get ;;
  match loading_bar t with
  | Some b =>
      q <- truediv_int (completed_commands t) (total_commands t) ;;
      let progress := fmul q hundred in
      step <- to_int progress ;;
      on_bar b (LoadingBar_.update now step
                  (current_feature t ++ " (" ++ pretty (completed_commands t)
                     ++ "/" ++ pretty (total_commands t) ++ ")"))
  | None => ret tt
  end.

End SimulationTUI_.

(** ** Strings *)

Definition lower_ascii (c : ascii) : ascii :=
  let n := nat_of_ascii c in
  if ((65 <=? n) && (n <=? 90))%nat then ascii_of_nat (n + 32) else c.

(** [s.lower()], on the UTF-8 text of the string. The letters A-Z become
    a-z. Two characters beyond ASCII have an ASCII letter in their lowercase:
    U+0130 (the bytes C4 B0) becomes [i] followed by U+0307 (CC 87), and the
    Kelvin sign U+212A (E2 84 AA) becomes [k]. The other characters beyond
    ASCII are left as they are: their lowercase has no ASCII character, and
    the harness searches the lowercased text for ASCII phrases only. *)
Fixpoint lower (s : string) : string :=
  match s with
  | EmptyString => EmptyString
  | String c s' =>
      match s' with
      | String c1 s1 =>
          if Ascii.eqb c (ascii_of_nat 196) && Ascii.eqb c1 (ascii_of_nat 176)
          then String "i" (String (ascii_of_nat 204)
                             (String (ascii_of_nat 135) (lower s1)))
          else
            match s1 with
            | String c2 s2 =>
                if Ascii.eqb c (ascii_of_nat 226) && Ascii.eqb c1 (ascii_of_nat 132)
                   && Ascii.eqb c2 (ascii_of_nat 170)
                then String "k" (lower s2)
                else String (lower_ascii c) (lower s')
            | EmptyString => String (lower_ascii c) (lower s')
            end
      | EmptyString => String (lower_ascii c) (lower s')
      end
  end.

(** [needle in hay]. *)
Fixpoint contains (needle hay : string) : bool :=
  match hay with
  | EmptyString => String.prefix needle hay
  | String _ hay' => String.prefix needle hay || contains needle hay'
  end.

(** [' '.join(l)]. *)
Fixpoint join (l : list string) : string :=
  match l with
  | [] => ""
  | [x] => x
  | x :: l' => x ++ " " ++ join l'
  end.

(** ** The outcome validator *)

(** The result dictionary of one invocation ([result_data] before the verdict
    is attached to it). *)
Record ExecResult : Type := {
  command : string;
  return_code : Z;
  stdout : string;
  stderr : string;
  duration : number;
  success : bool
}.

Record Validation : Type := {
  v_command : string;
  v_success : bool;
  test_passed : bool;
  test_result : string;
  validation_details : list string;
  expected_behavior : string;
  actual_behavior : string
}.

Record FeatureStats : Type := {
  total : Z;
  passed : Z;
  failed : Z;
  success_rate : float
}.

Record TestSummary : Type := {
  total_tests : Z;
  passed_tests : Z;
  failed_tests : Z;
  skipped_tests : Z;
  feature_results : gmap string FeatureStats
}.

Module Validator.

Definition empty_summary : TestSummary :=
  {| total_tests := 0; passed_tests := 0; failed_tests := 0;
     skipped_tests := 0; feature_results := ∅ |}.

(** The dictionary [validation] as the method first builds it. *)
Definition initial (cmd : string) (result : ExecResult) : Validation :=
  {| v_command := cmd; v_success := success result; test_passed := false;
     test_result := "FAILED"; validation_details := [];
     expected_behavior := ""; actual_behavior := "" |}.

(** One of the two early returns: passed, with its three texts. *)
Definition graceful (v : Validation) (expected detail actual : string) : Validation :=
  {| v_command := v_command v; v_success := v_success v; test_passed := true;
     test_result := "PASSED";
     validation_details := validation_details v ++ [detail];
     expected_behavior := expected; actual_behavior := actual |}.

(** One branch of the chain: the expected behaviour, then passed with
    [when_passed] if [cond] holds, and [when_failed] otherwise. *)
Definition judge (v : Validation) (expected : string) (cond : bool)
    (when_passed when_failed : string) : Validation :=
  if cond then
    {| v_command := v_command v; v_success := v_success v;
       test_passed := true; test_result := "PASSED";
       validation_details := validation_details v ++ [when_passed];
       expected_behavior := expected; actual_behavior := actual_behavior v |}
  else
    {| v_command := v_command v; v_success := v_success v;
       test_passed := test_passed v; test_result := test_result v;
       validation_details := validation_details v ++ [when_failed];
       expected_behavior := expected; actual_behavior := actual_behavior v |}.

Definition missing_driftmgr (result : ExecResult) : bool :=
  contains "driftmgr not available" (lower (stderr result)).

Definition missing_executable (result : ExecResult) : bool :=
  contains "file not found" (lower (stderr result))
  || contains "cannot find the file" (lower (stderr result)).

(** The chain of [if]/[elif] on the command text. *)
Definition by_command_type (cmd : string) (result : ExecResult) (v : Validation)
  : Validation :=
  let out := lower (stdout result) in
  if contains "credentials" cmd then
    judge v "Should detect or list credentials"
      (success result || contains "credentials found" out || contains "help" out)
      "Credential command executed successfully"
      "Credential command failed or returned unexpected output"
  else if contains "state" cmd then
    judge v "Should handle state file operations"
      (success result || contains "help" out || contains "usage" out)
      "State command executed successfully"
      "State command failed or returned unexpected output"
  else if contains "discover" cmd then
    judge v "Should attempt resource discovery"
      (success result || contains "discovering" out || contains "found" out)
      "Discovery command executed successfully"
      "Discovery command failed or returned unexpected output"
  else if contains "analyze" cmd then
    judge v "Should perform drift analysis"
      (success result || contains "analyzing" out || contains "drift" out)
      "Analysis command executed successfully"
      "Analysis command failed or returned unexpected output"
  else if contains "monitor" cmd || contains "dashboard" cmd then
    judge v "Should handle monitoring operations"
      (success result || contains "monitoring" out || contains "dashboard" out)
      "Monitoring command executed successfully"
      "Monitoring command failed or returned unexpected output"
  else if contains "remediate" cmd then
    judge v "Should handle remediation operations"
      (success result || contains "remediating" out || contains "dry-run" out)
      "Remediation command executed successfully"
      "Remediation command failed or returned unexpected output"
  else if contains "config" cmd || contains "setup" cmd then
    judge v "Should handle configuration operations"
      (success result || contains "config" out || contains "setup" out)
      "Configuration command executed successfully"
      "Configuration command failed or returned unexpected output"
  else if contains "report" cmd || contains "export" cmd then
    judge v "Should handle reporting operations"
      (success result || contains "report" out || contains "export" out)
      "Reporting command executed successfully"
      "Reporting command failed or returned unexpected output"
  else if contains "plugin" cmd || contains "api" cmd || contains "webhook" cmd then
    judge v "Should handle advanced features"
      (success result || contains "plugin" out || contains "api" out)
      "Advanced feature command executed successfully"
      "Advanced feature command failed or returned unexpected output"
  else if contains "invalid" cmd || contains "error" cmd then
    judge v "Should handle errors gracefully"
      (negb (success result)
       && (negb (String.eqb (stderr result) "") || contains "error" out))
      "Error handling worked as expected"
      "Error handling did not work as expected"
  else
    judge v "Should execute command successfully"
      (success result)
      "Command executed successfully"
      "Command failed to execute".

Definition fresh_stats : FeatureStats :=
  {| total := 0; passed := 0; failed := 0; success_rate := zero |}.

(** [total_tests += 1] and one of [passed_tests], [failed_tests]. *)
Definition count_test (ok : bool) (t : TestSummary) : TestSummary :=
  {| total_tests := total_tests t + 1;
     passed_tests := if ok then passed_tests t + 1 else passed_tests t;
     failed_tests := if ok then failed_tests t else failed_tests t + 1;
     skipped_tests := skipped_tests t;
     feature_results := feature_results t |}.

Definition set_features (m : gmap string FeatureStats) (t : TestSummary)
  : TestSummary :=
  {| total_tests := total_tests t; passed_tests := passed_tests t;
     failed_tests := failed_tests t; skipped_tests := skipped_tests t;
     feature_results := m |}.

(** The entry of [feature], created when absent, with its counters moved. *)
Definition count_feature (ok : bool) (feature : string) (t : TestSummary)
  : TestSummary :=
  let fs := default fresh_stats (feature_results t !! feature) in
  set_features
    (<[feature := {| total := total fs + 1;
                     passed := if ok then passed fs + 1 else passed fs;
                     failed := if ok then failed fs else failed fs + 1;
                     success_rate := success_rate fs |}]>
       (feature_results t)) t.

Definition set_rate (feature : string) (r : float) (t : TestSummary) : TestSummary :=
  let fs := default fresh_stats (feature_results t !! feature) in
  set_features
    (<[feature := {| total := total fs; passed := passed fs;
                     failed := failed fs; success_rate := r |}]>
       (feature_results t)) t.

(** [validate_command_result(command, result, feature)], on the dictionary
    [test_summary]. *)
Definition validate_command_result (cmd : string) (result : ExecResult)
    (feature : string) : M TestSummary Validation :=
  let validation := initial cmd result in
  if missing_driftmgr result then
    ret (graceful validation "Should handle missing driftmgr gracefully"
           "Command handled missing driftmgr gracefully"
           "Skipped command due to missing driftmgr")
  else if missing_executable result then
    ret (graceful validation "Should handle missing executable gracefully"
           "Command handled missing executable gracefully"
           "Executable not found - handled appropriately")
  else
    let validation := by_command_type cmd result validation in
    modify (count_test (test_passed validation)) ;;;
    modify (count_feature (test_passed validation) feature) ;;;
    t <- get ;;
    let fs := default fresh_stats (feature_results t !! feature) in
    q <- truediv_int (passed fs) (total fs) ;;
    modify (set_rate feature (fmul q hundred)) ;;;
    ret validation.

End Validator.

(** ** The world outside the harness *)

(** What [subprocess.run] does with one argument vector: the child exits, or
    the call raises ([TimeoutExpired], [FileNotFoundError], another
    exception, or the operator's [KeyboardInterrupt]). *)
Inductive proc_outcome : Type :=
| Exited (rc : Z) (out err : string)
| Failed (e : exn).

Record World : Type := {
  (** the outcome of the [n]-th [subprocess.run], given its arguments and its
      timeout *)
  spawn : nat -> list string -> Z -> proc_outcome;
  (** the system clock after [n] launches and sleeps, in nanoseconds since
      the epoch *)
  ticks : nat -> Z;
  (** the four region files, when they can be opened *)
  region_files : option (list string * list string * list string * list string);
  (** [random.sample] of one to three regions of a provider: the first of
      them and the others *)
  sample_regions : string -> list string -> string * list string;
  (** whether the operator interrupts the [n]-th [time.sleep] *)
  sleep_interrupted : nat -> bool
}.

(** The float of seconds [time.time()] makes of the system clock. The
    interpreter holds the clock as a count of nanoseconds in a signed 64-bit
    integer, here its low 63 bits; a whole number of seconds is divided as
    an integer and converted, any other count is converted and divided by
    [1e9]. *)
Definition seconds (t : Z) : float :=
  let ns := t mod 2 ^ 63 in
  if ns mod 10 ^ 9 =? 0 then nearest (ns / 10 ^ 9)
  else SFdiv prec emax (nearest ns) (nearest (10 ^ 9)).

(** The wall clock after [n] launches and sleeps. *)
Definition clock (w : World) (n : nat) : float := seconds (ticks w n).

(** ** DriftMgrUserSimulator *)

Record CommandResult : Type := {
  exec : ExecResult;
  validation : Validation
}.

(** An element of [simulation_results]. *)
Record ResultEntry : Type := {
  feature : string;
  provider : option string;
  regions : option (list string);
  timestamp : float;
  result : CommandResult
}.

Record FeatureSummary : Type := {
  fs_total_commands : Z;
  fs_successful_commands : Z;
  fs_failed_commands : Z;
  avg_duration : number;
  fs_total_duration : number;
  test_success_rate : float
}.

Record SimulationInfo : Type := {
  info_timestamp : float;
  info_total_commands : Z;
  info_duration : number;
  info_successful_commands : Z;
  info_failed_commands : Z
}.

Record Report : Type := {
  simulation_info : SimulationInfo;
  report_test_summary : TestSummary;
  overall_success_rate : number;
  feature_summary : list (string * FeatureSummary);
  detailed_results : list ResultEntry
}.

Record Simulator : Type := {
  aws_regions : list string;
  azure_regions : list string;
  gcp_regions : list string;
  digitalocean_regions : list string;
  simulation_results : list ResultEntry;
  test_summary : TestSummary;
  tui : SimulationTUI;
  (** the attribute [_driftmgr_available]; [None] while it is not set *)
  _driftmgr_available : option bool
}.

(** The simulator and what the operating system has seen of it: the argument
    vectors launched, the sleeps taken, the report file. *)
Record State : Type := {
  self : Simulator;
  launched : list (list string);
  naps : nat;
  report_file : option Report
}.

Module Sim.

Definition set_self (x : Simulator) (s : State) : State :=
  {| self := x; launched := launched s; naps := naps s;
     report_file := report_file s |}.

Definition set_tui (t : SimulationTUI) (x : Simulator) : Simulator :=
  {| aws_regions := aws_regions x; azure_regions := azure_regions x;
     gcp_regions := gcp_regions x;
     digitalocean_regions := digitalocean_regions x;
     simulation_results := simulation_results x;
     test_summary := test_summary x; tui := t;
     _driftmgr_available := _driftmgr_available x |}.

Definition set_test_summary (t : TestSummary) (x : Simulator) : Simulator :=
  {| aws_regions := aws_regions x; azure_regions := azure_regions x;
     gcp_regions := gcp_regions x;
     digitalocean_regions := digitalocean_regions x;
     simulation_results := simulation_results x;
     test_summary := t; tui := tui x;
     _driftmgr_available := _driftmgr_available x |}.

Definition set_available (a : bool) (x : Simulator) : Simulator :=
  {| aws_regions := aws_regions x; azure_regions := azure_regions x;
     gcp_regions := gcp_regions x;
     digitalocean_regions := digitalocean_regions x;
     simulation_results := simulation_results x;
     test_summary := test_summary x; tui := tui x;
     _driftmgr_available := Some a |}.

Definition append_result (r : ResultEntry) (x : Simulator) : Simulator :=
  {| aws_regions := aws_regions x; azure_regions := azure_regions x;
     gcp_regions := gcp_regions x;
     digitalocean_regions := digitalocean_regions x;
     simulation_results := simulation_results x ++ [r];
     test_summary := test_summary x; tui := tui x;
     _driftmgr_available := _driftmgr_available x |}.

(** A method of the simulator, of its TUI, of its statistics. *)
Definition on_self {A} : M Simulator A -> M State A := zoom self set_self.
Definition on_tui {A} (m : M SimulationTUI A) : M State A :=
  on_self (zoom tui set_tui m).
Definition on_summary {A} (m : M TestSummary A) : M State A :=
  on_self (zoom test_summary set_test_summary m).

(** The command tables of the phases. *)

Definition credential_commands : list (list string) :=
  [ ["driftmgr"; "credentials"; "auto-detect"];
    ["driftmgr"; "credentials"; "list"]; ["driftmgr"; "credentials"; "help"] ].

Definition state_file_commands : list (list string) :=
  [ ["driftmgr"; "state"; "discover"];
    ["driftmgr"; "state"; "discover"; "--recursive"];
    ["driftmgr"; "state"; "discover"; "--pattern"; "*.tfstate"];
    ["driftmgr"; "state"; "discover"; "--pattern"; "*.tfstate.backup"];
    ["driftmgr"; "state"; "discover"; "--directory"; "."];
    ["driftmgr"; "state"; "discover"; "--directory"; "./terraform"];
    ["driftmgr"; "state"; "discover"; "--directory"; "./states"];
    ["driftmgr"; "state"; "analyze"];
    ["driftmgr"; "state"; "analyze"; "--format"; "json"];
    ["driftmgr"; "state"; "analyze"; "--format"; "table"];
    ["driftmgr"; "state"; "analyze"; "--output"; "state_analysis.json"];
    ["driftmgr"; "state"; "analyze"; "--validate"];
    ["driftmgr"; "state"; "analyze"; "--check-consistency"];
    ["driftmgr"; "state"; "validate"];
    ["driftmgr"; "state"; "validate"; "--strict"];
    ["driftmgr"; "state"; "validate"; "--check-resources"];
    ["driftmgr"; "state"; "validate"; "--check-modules"];
    ["driftmgr"; "state"; "validate"; "--check-outputs"];
    ["driftmgr"; "state"; "compare"];
    ["driftmgr"; "state"; "compare"; "--live"];
    ["driftmgr"; "state"; "compare"; "--provider"; "aws"];
    ["driftmgr"; "state"; "compare"; "--provider"; "azure"];
    ["driftmgr"; "state"; "compare"; "--region"; "us-east-1"];
    ["driftmgr"; "state"; "compare"; "--output"; "state_comparison.json"];
    ["driftmgr"; "state"; "list"]; ["driftmgr"; "state"; "info"];
    ["driftmgr"; "state"; "backup"]; ["driftmgr"; "state"; "restore"];
    ["driftmgr"; "state"; "cleanup"]; ["driftmgr"; "state"; "migrate"];
    ["driftmgr"; "state"; "import"]; ["driftmgr"; "state"; "export"];
    ["driftmgr"; "state"; "export"; "--format"; "json"];
    ["driftmgr"; "state"; "export"; "--format"; "terraform"];
    ["driftmgr"; "state"; "export"; "--format"; "cloudformation"];
    ["driftmgr"; "state"; "drift"];
    ["driftmgr"; "state"; "drift"; "--detect"];
    ["driftmgr"; "state"; "drift"; "--analyze"];
    ["driftmgr"; "state"; "drift"; "--report"];
    ["driftmgr"; "state"; "drift"; "--severity"; "high"];
    ["driftmgr"; "state"; "drift"; "--severity"; "medium"];
    ["driftmgr"; "state"; "drift"; "--severity"; "low"];
    ["driftmgr"; "state"; "sync"]; ["driftmgr"; "state"; "sync"; "--force"];
    ["driftmgr"; "state"; "sync"; "--dry-run"];
    ["driftmgr"; "state"; "sync"; "--provider"; "aws"];
    ["driftmgr"; "state"; "sync"; "--provider"; "azure"];
    ["driftmgr"; "state"; "health"];
    ["driftmgr"; "state"; "health"; "--check"];
    ["driftmgr"; "state"; "health"; "--report"];
    ["driftmgr"; "state"; "health"; "--fix"];
    ["driftmgr"; "state"; "monitor"];
    ["driftmgr"; "state"; "monitor"; "--start"];
    ["driftmgr"; "state"; "monitor"; "--stop"];
    ["driftmgr"; "state"; "monitor"; "--status"];
    ["driftmgr"; "state"; "monitor"; "--watch"];
    ["driftmgr"; "state"; "report"];
    ["driftmgr"; "state"; "report"; "--format"; "json"];
    ["driftmgr"; "state"; "report"; "--format"; "html"];
    ["driftmgr"; "state"; "report"; "--format"; "pdf"];
    ["driftmgr"; "state"; "report"; "--output"; "state_report.json"];
    ["driftmgr"; "state"; "report"; "--include-resources"];
    ["driftmgr"; "state"; "report"; "--include-drift"];
    ["driftmgr"; "state"; "report"; "--include-health"];
    ["driftmgr"; "state"; "history"];
    ["driftmgr"; "state"; "history"; "--days"; "7"];
    ["driftmgr"; "state"; "history"; "--days"; "30"];
    ["driftmgr"; "state"; "audit"];
    ["driftmgr"; "state"; "audit"; "--compliance"];
    ["driftmgr"; "state"; "audit"; "--security"];
    ["driftmgr"; "state"; "debug"];
    ["driftmgr"; "state"; "debug"; "--verbose"];
    ["driftmgr"; "state"; "debug"; "--show-details"];
    ["driftmgr"; "state"; "troubleshoot"];
    ["driftmgr"; "state"; "troubleshoot"; "--fix"];
    ["driftmgr"; "state"; "config"];
    ["driftmgr"; "state"; "config"; "--show"];
    ["driftmgr"; "state"; "config"; "--set"];
    ["driftmgr"; "state"; "config"; "--reset"];
    ["driftmgr"; "state"; "help"]; ["driftmgr"; "state"; "help"; "discover"];
    ["driftmgr"; "state"; "help"; "analyze"];
    ["driftmgr"; "state"; "help"; "validate"];
    ["driftmgr"; "state"; "help"; "compare"];
    ["driftmgr"; "state"; "help"; "drift"];
    ["driftmgr"; "state"; "help"; "sync"];
    ["driftmgr"; "state"; "help"; "health"];
    ["driftmgr"; "state"; "help"; "monitor"];
    ["driftmgr"; "state"; "help"; "report"];
    ["driftmgr"; "state"; "help"; "history"];
    ["driftmgr"; "state"; "help"; "audit"];
    ["driftmgr"; "state"; "help"; "debug"];
    ["driftmgr"; "state"; "help"; "troubleshoot"];
    ["driftmgr"; "state"; "help"; "config"] ].

Definition analysis_commands : list (list string) :=
  [ ["driftmgr"; "analyze"; "--provider"; "aws"];
    ["driftmgr"; "analyze"; "--provider"; "azure"];
    ["driftmgr"; "analyze"; "--all-providers"];
    ["driftmgr"; "analyze"; "--format"; "json"];
    ["driftmgr"; "analyze"; "--format"; "table"];
    ["driftmgr"; "analyze"; "--output"; "drift_report.json"];
    ["driftmgr"; "analyze"; "--severity"; "high"];
    ["driftmgr"; "analyze"; "--severity"; "medium"];
    ["driftmgr"; "analyze"; "--severity"; "low"] ].

Definition monitoring_commands : list (list string) :=
  [ ["driftmgr"; "monitor"; "--start"]; ["driftmgr"; "monitor"; "--status"];
    ["driftmgr"; "monitor"; "--stop"]; ["driftmgr"; "dashboard"; "--start"];
    ["driftmgr"; "dashboard"; "--port"; "8080"];
    ["driftmgr"; "dashboard"; "--host"; "localhost"]; ["driftmgr"; "status"];
    ["driftmgr"; "health"] ].

Definition remediation_commands : list (list string) :=
  [ ["driftmgr"; "remediate"; "--dry-run"];
    ["driftmgr"; "remediate"; "--auto"];
    ["driftmgr"; "remediate"; "--interactive"];
    ["driftmgr"; "remediate"; "--provider"; "aws"];
    ["driftmgr"; "remediate"; "--provider"; "azure"];
    ["driftmgr"; "generate"; "--terraform"];
    ["driftmgr"; "generate"; "--cloudformation"];
    ["driftmgr"; "apply"; "--plan"] ].

Definition config_commands : list (list string) :=
  [ ["driftmgr"; "config"; "--show"]; ["driftmgr"; "config"; "--init"];
    ["driftmgr"; "config"; "--validate"]; ["driftmgr"; "config"; "--backup"];
    ["driftmgr"; "config"; "--restore"];
    ["driftmgr"; "setup"; "--interactive"]; ["driftmgr"; "setup"; "--auto"];
    ["driftmgr"; "validate"; "--config"] ].

Definition reporting_commands : list (list string) :=
  [ ["driftmgr"; "report"; "--format"; "json"];
    ["driftmgr"; "report"; "--format"; "csv"];
    ["driftmgr"; "report"; "--format"; "html"];
    ["driftmgr"; "report"; "--format"; "pdf"];
    ["driftmgr"; "export"; "--type"; "resources"];
    ["driftmgr"; "export"; "--type"; "drift"];
    ["driftmgr"; "export"; "--type"; "remediation"];
    ["driftmgr"; "history"; "--days"; "7"];
    ["driftmgr"; "history"; "--days"; "30"];
    ["driftmgr"; "audit"; "--compliance"] ].

Definition advanced_commands : list (list string) :=
  [ ["driftmgr"; "plugin"; "--list"]; ["driftmgr"; "plugin"; "--install"];
    ["driftmgr"; "plugin"; "--update"]; ["driftmgr"; "api"; "--start"];
    ["driftmgr"; "api"; "--stop"]; ["driftmgr"; "api"; "--status"];
    ["driftmgr"; "webhook"; "--test"]; ["driftmgr"; "webhook"; "--list"];
    ["driftmgr"; "schedule"; "--list"]; ["driftmgr"; "schedule"; "--create"];
    ["driftmgr"; "backup"; "--create"]; ["driftmgr"; "backup"; "--restore"];
    ["driftmgr"; "migrate"; "--state"]; ["driftmgr"; "sync"; "--force"] ].

Definition error_commands : list (list string) :=
  [ ["driftmgr"; "discover"; "invalid-provider"];
    ["driftmgr"; "discover"; "aws"; "invalid-region"];
    ["driftmgr"; "analyze"; "--invalid-flag"];
    ["driftmgr"; "remediate"; "--invalid-option"];
    ["driftmgr"; "config"; "--invalid-path"];
    ["driftmgr"; "invalid-command"];
    ["driftmgr"; "discover"; "aws"; "--invalid-flag"];
    ["driftmgr"; "analyze"; "--provider"; "invalid"];
    ["driftmgr"; "monitor"; "--invalid-port"];
    ["driftmgr"; "dashboard"; "--invalid-host"];
    ["driftmgr"; "state"; "discover"; "--invalid-pattern"];
    ["driftmgr"; "state"; "analyze"; "--invalid-format"];
    ["driftmgr"; "state"; "validate"; "--invalid-option"];
    ["driftmgr"; "state"; "compare"; "--invalid-provider"];
    ["driftmgr"; "state"; "drift"; "--invalid-severity"] ].

Definition interactive_commands : list (list string) :=
  [ ["driftmgr"; "discover"; "aws"; "us-east-1"];
    ["driftmgr"; "discover"; "azure"; "eastus"];
    ["driftmgr"; "analyze"; "--provider"; "aws"];
    ["driftmgr"; "monitor"; "--start"];
    ["driftmgr"; "dashboard"; "--port"; "8080"];
    ["driftmgr"; "remediate"; "--dry-run"];
    ["driftmgr"; "report"; "--format"; "json"];
    ["driftmgr"; "config"; "--show"]; ["driftmgr"; "state"; "discover"];
    ["driftmgr"; "state"; "analyze"]; ["driftmgr"; "state"; "validate"];
    ["driftmgr"; "state"; "compare"; "--live"];
    ["driftmgr"; "state"; "drift"; "--detect"];
    ["driftmgr"; "state"; "sync"; "--dry-run"];
    ["driftmgr"; "state"; "health"; "--check"];
    ["driftmgr"; "state"; "report"; "--format"; "json"] ].

(** [command and command[0] == 'driftmgr']. *)
Definition is_tool (command : list string) : bool :=
  match command with
  | [] => false
  | program :: _ => String.eqb program "driftmgr"
  end.

Section InWorld.

Variable w : World.

(** [time.time()]. *)
Definition now : M State float :=
  s <- get ;; ret (clock w (length (launched s) + naps s)).

(** [time.sleep(...)]. *)
Definition sleep : M State unit :=
  s <- get ;;
  modify (fun s => {| self := self s; launched := launched s;
                      naps := S (naps s); report_file := report_file s |}) ;;;
  if sleep_interrupted w (naps s) then raise KeyboardInterrupt "" else ret tt.

(** [subprocess.run(argv, capture_output=True, text=True, timeout=t)]:
    the return code and the two captured texts. *)
Definition subprocess_run (argv : list string) (t : Z) : M State (Z * string * string) :=
  s <- get ;;
  modify (fun s => {| self := self s; launched := launched s ++ [argv];
                      naps := naps s; report_file := report_file s |}) ;;;
  match spawn w (length (launched s)) argv t with
  | Exited rc out err => ret (rc, out, err)
  | Failed e => fun s => Exc e s
  end.

(** [load_regions], with its fallback when a file is missing. *)
Definition load_regions : list string * list string * list string * list string :=
  match region_files w with
  | Some r => r
  | None =>
      ([ "us-east-1"; "us-west-2"; "eu-west-1"; "ap-southeast-1" ],
       [ "eastus"; "westus2"; "northeurope"; "southeastasia" ],
       [ "us-central1"; "europe-west1"; "asia-southeast1" ],
       [ "nyc1"; "sfo2"; "lon1"; "sgp1" ])
  end.

(** [DriftMgrUserSimulator()]. *)
Definition init : Simulator :=
  let '(aws, azure, gcp, digitalocean) := load_regions in
  {| aws_regions := aws; azure_regions := azure; gcp_regions := gcp;
     digitalocean_regions := digitalocean; simulation_results := [];
     test_summary := Validator.empty_summary; tui := SimulationTUI_.init;
     _driftmgr_available := None |}.

(** The process as it starts: a fresh simulator, nothing launched. *)
Definition boot : State :=
  {| self := init; launched := []; naps := 0%nat; report_file := None |}.

(** [validate_driftmgr_availability]: the probe. Its three [except]
    clauses all answer [False]; only [Exception]s are caught. *)
Definition validate_driftmgr_availability : M State bool :=
  try_except
    (r <- subprocess_run [ "driftmgr"; "--version" ] 10 ;;
     let '(rc, _, _) := r in
     ret (rc =? 0))
    (fun e => if is_Exception e then ret false else fun s => Exc e s).

Definition validate (cmd : string) (r : ExecResult) (feat : string)
  : M State Validation :=
  on_summary (Validator.validate_command_result cmd r feat).

Definition update_command_progress (cmd : string) (ok : bool) : M State unit :=
  t <- now ;; on_tui (SimulationTUI_.update_command_progress t cmd ok).

Definition update_feature_progress (i : Z) (name : string) : M State unit :=
  t <- now ;; on_tui (SimulationTUI_.update_feature_progress t i name).

(** The tail every path of [run_command] shares but for the flag it gives
    the TUI: validate, attach the verdict, update the progress. *)
Definition finish (r : ExecResult) (feat : string) (flag : Validation -> bool)
  : M State CommandResult :=
  v <- validate (command r) r feat ;;
  update_command_progress (command r) (flag v) ;;;
  ret {| exec := r; validation := v |}.

(** The synthesized result of a command that was not launched. *)
Definition skipped (command_str : string) : ExecResult :=
  {| command := command_str; return_code := -1; stdout := "";
     stderr := "DriftMgr not available - skipping command";
     duration := Int 0; success := false |}.

(** The body of the [try] of [run_command]. The early [return] of the
    branch of an unavailable tool is the flag [skip]. *)
Definition run_command_body (command : list string) (timeout : Z)
    (feat : string) : M State CommandResult :=
  let command_str := join command in
  start_time <- now ;;
  skip <- (if is_tool command then
             s <- get ;;
             match _driftmgr_available (self s) with
             | None =>
                 a <- validate_driftmgr_availability ;;
                 on_self (modify (set_available a))
             | Some _ => ret tt
             end ;;;
             s <- get ;;
             ret (match _driftmgr_available (self s) with
                  | Some false => true
                  | _ => false
                  end)
           else ret false) ;;
  if skip : bool then finish (skipped command_str) feat test_passed
  else
    p <- subprocess_run command timeout ;;
    let '(rc, out, err) := p in
    t <- now ;;
    let duration := fsub t start_time in
    finish {| command := command_str; return_code := rc; stdout := out;
              stderr := err; duration := Float duration;
              success := rc =? 0 |} feat test_passed.

(** [run_command(command, timeout, feature)]. The three [except] clauses
    are tried in the order of the source. *)
Definition run_command (command : list string) (timeout : Z) (feat : string)
  : M State CommandResult :=
  let command_str := join command in
  try_except (run_command_body command timeout feat)
    (fun e =>
       match exn_cls e with
       | TimeoutExpired =>
           finish {| command := command_str; return_code := -1;
                     stdout := ""; stderr := "Command timed out";
                     duration := Int timeout; success := false |}
                  feat (fun _ => false)
       | FileNotFoundError =>
           finish {| command := command_str; return_code := -1;
                     stdout := "";
                     stderr := "Command not found: " ++ exn_msg e;
                     duration := Int 0; success := false |}
                  feat (fun _ => false)
       | KeyboardInterrupt => fun s => Exc e s
       | _ =>
           finish {| command := command_str; return_code := -1;
                     stdout := ""; stderr := exn_msg e;
                     duration := Int 0; success := false |}
                  feat (fun _ => false)
       end).

(** *** The phases *)

Definition record (feat : string) (prov : option string)
    (regs : option (list string)) (r : CommandResult) : M State unit :=
  t <- now ;;
  on_self (modify (append_result
    {| feature := feat; provider := prov; regions := regs;
       timestamp := t; result := r |})).

(** The shape of every phase but the discovery: the feature-level update,
    then each command run, recorded and followed by a sleep. *)
Definition simulate (index : Z) (name feat : string) (timeout : Z)
    (commands : list (list string)) : M State unit :=
  update_feature_progress index name ;;;
  for_each commands (fun command =>
    r <- run_command command timeout feat ;;
    record feat None None r ;;;
    sleep).

Definition simulate_credential_auto_detection : M State unit :=
  simulate 0 "Credential Auto-Detection" "credential_auto_detection" 60
    credential_commands.

Definition simulate_state_file_detection : M State unit :=
  simulate 1 "State File Detection" "state_file_detection" 90
    state_file_commands.

Definition discovery_patterns (prov first : string) (selected : list string)
  : list (list string) :=
  [ [ "driftmgr"; "discover"; prov; first ];
    "driftmgr" :: "discover" :: selected;
    [ "driftmgr"; "discover"; "--provider"; prov; "--region"; first ];
    [ "driftmgr"; "discover"; prov; "--all-regions" ] ].

Definition simulate_discovery_with_random_regions : M State unit :=
  update_feature_progress 2 "Resource Discovery" ;;;
  s <- get ;;
  let providers :=
    [ ("aws", aws_regions (self s)); ("azure", azure_regions (self s));
      ("gcp", gcp_regions (self s));
      ("digitalocean", digitalocean_regions (self s)) ] in
  for_each providers (fun pr =>
    let '(prov, regs) := pr in
    match regs with
    | [] => ret tt
    | _ =>
        let '(first, others) := sample_regions w prov regs in
        let selected := first :: others in
        for_each (discovery_patterns prov first selected) (fun pattern =>
          r <- run_command pattern 120 "resource_discovery" ;;
          record "resource_discovery" (Some prov) (Some selected) r ;;;
          sleep)
    end).

Definition simulate_analysis_features : M State unit :=
  simulate 3 "Drift Analysis" "drift_analysis" 90 analysis_commands.

Definition simulate_monitoring_features : M State unit :=
  simulate 4 "Monitoring & Dashboard" "monitoring" 60 monitoring_commands.

Definition simulate_remediation_features : M State unit :=
  simulate 5 "Remediation" "remediation" 120 remediation_commands.

Definition simulate_configuration_features : M State unit :=
  simulate 6 "Configuration" "configuration" 60 config_commands.

Definition simulate_reporting_features : M State unit :=
  simulate 7 "Reporting" "reporting" 60 reporting_commands.

Definition simulate_advanced_features : M State unit :=
  simulate 8 "Advanced Features" "advanced" 60 advanced_commands.

Definition simulate_error_handling : M State unit :=
  simulate 9 "Error Handling" "error_handling" 60 error_commands.

Definition simulate_interactive_mode : M State unit :=
  simulate 10 "Interactive Mode" "interactive_mode" 60 interactive_commands.

(** *** The report *)

Definition num_add {S} (a b : number) : M S number :=
  match a, b with
  | Int x, Int y => ret (Int (x + y))
  | Int x, Float y => f <- of_int x ;; ret (Float (fadd f y))
  | Float x, Int y => f <- of_int y ;; ret (Float (fadd x f))
  | Float x, Float y => ret (Float (fadd x y))
  end.

Definition num_div_int {S} (a : number) (d : Z) : M S float :=
  match a with
  | Int x => truediv_int x d
  | Float x => f <- of_int d ;; truediv x f
  end.

(** [sum(...)] over the durations, added from the left (the compensated
    summation of recent interpreters is not modelled). *)
Fixpoint sum_durations {S} (acc : number) (l : list ResultEntry) : M S number :=
  match l with
  | [] => ret acc
  | r :: l' =>
      acc' <- num_add acc (duration (exec (result r))) ;;
      sum_durations acc' l'
  end.

Definition count_successful (l : list ResultEntry) : Z :=
  Z.of_nat (length (filter (fun r => success (exec (result r)) = true) l)).

Definition fresh_summary : FeatureSummary :=
  {| fs_total_commands := 0; fs_successful_commands := 0;
     fs_failed_commands := 0; avg_duration := Int 0;
     fs_total_duration := Int 0; test_success_rate := zero |}.

(** The entry of a key in a dictionary kept in insertion order. *)
Fixpoint lookup_summary (k : string) (d : list (string * FeatureSummary))
  : option FeatureSummary :=
  match d with
  | [] => None
  | (k', v) :: d' => if String.eqb k k' then Some v else lookup_summary k d'
  end.

Fixpoint store_summary (k : string) (v : FeatureSummary)
    (d : list (string * FeatureSummary)) : list (string * FeatureSummary) :=
  match d with
  | [] => [ (k, v) ]
  | (k', v') :: d' =>
      if String.eqb k k' then (k, v) :: d' else (k', v') :: store_summary k v d'
  end.

(** The first loop over the results: the per-feature counts. *)
Fixpoint tally {S} (d : list (string * FeatureSummary)) (l : list ResultEntry)
  : M S (list (string * FeatureSummary)) :=
  match l with
  | [] => ret d
  | r :: l' =>
      let summary := default fresh_summary (lookup_summary (feature r) d) in
      dur <- num_add (fs_total_duration summary) (duration (exec (result r))) ;;
      let ok := success (exec (result r)) in
      tally (store_summary (feature r)
               {| fs_total_commands := fs_total_commands summary + 1;
                  fs_successful_commands :=
                    if ok then fs_successful_commands summary + 1
                    else fs_successful_commands summary;
                  fs_failed_commands :=
                    if ok then fs_failed_commands summary
                    else fs_failed_commands summary + 1;
                  avg_duration := avg_duration summary;
                  fs_total_duration := dur;
                  test_success_rate := test_success_rate summary |} d) l'
  end.

(** The second loop: the averages and the test success rates. *)
Fixpoint averages {S} (t : TestSummary) (d : list (string * FeatureSummary))
  : M S (list (string * FeatureSummary)) :=
  match d with
  | [] => ret []
  | (k, v) :: d' =>
      avg <- (if 0 <? fs_total_commands v
              then x <- num_div_int (fs_total_duration v) (fs_total_commands v) ;;
                   ret (Float x)
              else ret (avg_duration v)) ;;
      let rate := match feature_results t !! k with
                  | Some fs => success_rate fs
                  | None => test_success_rate v
                  end in
      rest <- averages t d' ;;
      ret ((k, {| fs_total_commands := fs_total_commands v;
                  fs_successful_commands := fs_successful_commands v;
                  fs_failed_commands := fs_failed_commands v;
                  avg_duration := avg;
                  fs_total_duration := fs_total_duration v;
                  test_success_rate := rate |}) :: rest)
  end.

Definition write_report (r : Report) : M State unit :=
  modify (fun s => {| self := self s; launched := launched s;
                      naps := naps s; report_file := Some r |}).

(** [generate_simulation_report]. Of the log lines only the arithmetic
    they evaluate is kept. *)
Definition generate_simulation_report : M State Report :=
  s <- get ;;
  let results := simulation_results (self s) in
  let summary := test_summary (self s) in
  let total_commands := Z.of_nat (length results) in
  let successful_commands := count_successful results in
  let failed_commands := total_commands - successful_commands in
  total_duration <- sum_durations (Int 0) results ;;
  rate <- (if 0 <? total_tests summary
           then q <- truediv_int (passed_tests summary) (total_tests summary) ;;
                ret (Float (fmul q hundred))
           else ret (Int 0)) ;;
  t <- now ;;
  features <- tally [] results ;;
  features <- averages summary features ;;
  let report :=
    {| simulation_info :=
         {| info_timestamp := t; info_total_commands := total_commands;
            info_duration := total_duration;
            info_successful_commands := successful_commands;
            info_failed_commands := failed_commands |};
       report_test_summary := summary;
       overall_success_rate := rate;
       feature_summary := features;
       detailed_results := results |} in
  write_report report ;;;
  (* "Command success rate: ..." *)
  q <- truediv_int successful_commands total_commands ;;
  let command_success_rate := fmul q hundred in
  (* "=== Feature Summary ===" *)
  for_each features (fun kv =>
    if 0 <? fs_total_commands (snd kv)
    then q <- truediv_int (fs_successful_commands (snd kv))
                (fs_total_commands (snd kv)) ;;
         ret tt
    else ret tt) ;;;
  ret report.

(** *** The session *)

Definition planned_commands : Z :=
  3 + 94 + 16 + 9 + 8 + 8 + 8 + 10 + 14 + 15 + 16.

Definition phases : M State unit :=
  simulate_credential_auto_detection ;;;
  simulate_state_file_detection ;;;
  simulate_discovery_with_random_regions ;;;
  simulate_analysis_features ;;;
  simulate_monitoring_features ;;;
  simulate_remediation_features ;;;
  simulate_configuration_features ;;;
  simulate_reporting_features ;;;
  simulate_advanced_features ;;;
  simulate_error_handling ;;;
  simulate_interactive_mode.

(** [run_full_simulation]: the report, or [None] from either [except]
    clause. *)
Definition run_full_simulation : M State (option Report) :=
  t <- now ;;
  on_tui (SimulationTUI_.initialize_simulation t planned_commands) ;;;
  start_time <- now ;;
  try_except
    (phases ;;;
     report <- generate_simulation_report ;;
     ret (Some report))
    (fun e => ret None).

(** [main], from the construction of the simulator on; the value is the
    exit status of the process. *)
Definition main : M State Z :=
  available <- validate_driftmgr_availability ;;
  sleep ;;;
  report <- run_full_simulation ;;
  match report with
  | Some _ => ret 0
  | None => ret 1
  end.

End InWorld.

End Sim.

(** * The vocabulary of the properties *)

(** A float that is zero or positive and finite: its mantissa is below
    [2^53], its exponent at most [E], and its value below [2^K]. *)
Definition bounded (E K : Z) (x : float) : Prop :=
  match x with
  | S754_zero s => s = false
  | S754_finite s m e =>
      s = false /\ Zpos m < 2 ^ 53 /\ e <= E /\ Zpos (digits2_pos m) + e <= K
  | _ => False
  end.

(** A finite float of either sign whose magnitude is below [2^K]. *)
Definition within (K : Z) (x : float) : Prop := bounded 971 K (SFabs x).

(** A finite float that is not zero, of magnitude [2^(L-1)] or more. *)
Definition at_least (L : Z) (x : float) : Prop :=
  match x with
  | S754_finite _ m e => L <= Zpos (digits2_pos m) + e
  | _ => False
  end.

(** The sum of the per-feature totals. *)
Definition sum_totals (m : gmap string FeatureStats) : Z :=
  map_fold (fun _ fs acc => total fs + acc) 0 m.

(** The three equalities of the hierarchical statistics. *)
Definition consistent (t : TestSummary) : Prop :=
  total_tests t = passed_tests t + failed_tests t
  /\ (forall f fs, feature_results t !! f = Some fs ->
        total fs = passed fs + failed fs)
  /\ sum_totals (feature_results t) = total_tests t.

(** Consistent statistics whose counters are not negative. *)
Definition sound (t : TestSummary) : Prop :=
  consistent t
  /\ forall f fs, feature_results t !! f = Some fs -> 0 <= passed fs /\ 0 <= failed fs.

(** A run of the validator over a sequence of calls. *)
Definition validate_all (calls : list (string * ExecResult * string))
  : M TestSummary unit :=
  for_each calls (fun c =>
    let '(cmd, r, feat) := c in
    bind (Validator.validate_command_result cmd r feat) (fun _ => ret tt)).

(** The statistics after a call that reaches the chain of rules: the two
    counting steps, then the rate [q * 100] of the feature. *)
Definition counted (ok : bool) (feat : string) (q : float) (t : TestSummary)
  : TestSummary :=
  Validator.set_rate feat (fmul q hundred)
    (Validator.count_feature ok feat (Validator.count_test ok t)).

(** The expected-behaviour rules of the validator, by name. *)
Inductive rule : Type :=
| Credentials | StateFiles | Discovery | Analysis | Monitoring | Remediation
| Configuration | Reporting | Advanced | ErrorHandling | Unknown.

(** The order in which the rules are tried, each with the substrings of the
    command text that select it. *)
Definition rule_table : list (list string * rule) :=
  [ ([ "credentials" ], Credentials);
    ([ "state" ], StateFiles);
    ([ "discover" ], Discovery);
    ([ "analyze" ], Analysis);
    ([ "monitor"; "dashboard" ], Monitoring);
    ([ "remediate" ], Remediation);
    ([ "config"; "setup" ], Configuration);
    ([ "report"; "export" ], Reporting);
    ([ "plugin"; "api"; "webhook" ], Advanced);
    ([ "invalid"; "error" ], ErrorHandling) ].

(** The first rule of the table one of whose substrings occurs in the
    command text; the exit-code rule when there is none. *)
Definition first_match (cmd : string) : rule :=
  match find (fun entry => existsb (fun kw => contains kw cmd) (fst entry)) rule_table with
  | Some (_, r) => r
  | None => Unknown
  end.

(** What each rule decides. *)
Definition apply_rule (r : rule) (result : ExecResult) (v : Validation) : Validation :=
  let out := lower (stdout result) in
  let ok := success result in
  match r with
  | Credentials =>
      Validator.judge v "Should detect or list credentials"
        (ok || contains "credentials found" out || contains "help" out)
        "Credential command executed successfully"
        "Credential command failed or returned unexpected output"
  | StateFiles =>
      Validator.judge v "Should handle state file operations"
        (ok || contains "help" out || contains "usage" out)
        "State command executed successfully"
        "State command failed or returned unexpected output"
  | Discovery =>
      Validator.judge v "Should attempt resource discovery"
        (ok || contains "discovering" out || contains "found" out)
        "Discovery command executed successfully"
        "Discovery command failed or returned unexpected output"
  | Analysis =>
      Validator.judge v "Should perform drift analysis"
        (ok || contains "analyzing" out || contains "drift" out)
        "Analysis command executed successfully"
        "Analysis command failed or returned unexpected output"
  | Monitoring =>
      Validator.judge v "Should handle monitoring operations"
        (ok || contains "monitoring" out || contains "dashboard" out)
        "Monitoring command executed successfully"
        "Monitoring command failed or returned unexpected output"
  | Remediation =>
      Validator.judge v "Should handle remediation operations"
        (ok || contains "remediating" out || contains "dry-run" out)
        "Remediation command executed successfully"
        "Remediation command failed or returned unexpected output"
  | Configuration =>
      Validator.judge v "Should handle configuration operations"
        (ok || contains "config" out || contains "setup" out)
        "Configuration command executed successfully"
        "Configuration command failed or returned unexpected output"
  | Reporting =>
      Validator.judge v "Should handle reporting operations"
        (ok || contains "report" out || contains "export" out)
        "Reporting command executed successfully"
        "Reporting command failed or returned unexpected output"
  | Advanced =>
      Validator.judge v "Should handle advanced features"
        (ok || contains "plugin" out || contains "api" out)
        "Advanced feature command executed successfully"
        "Advanced feature command failed or returned unexpected output"
  | ErrorHandling =>
      Validator.judge v "Should handle errors gracefully"
        (negb ok && (negb (String.eqb (stderr result) "") || contains "error" out))
        "Error handling worked as expected"
        "Error handling did not work as expected"
  | Unknown =>
      Validator.judge v "Should execute command successfully" ok
        "Command executed successfully" "Command failed to execute"
  end.

(** Whether the stderr text triggers the missing-tool precedence rule. *)
Definition missing_tool (result : ExecResult) : bool :=
  Validator.missing_driftmgr result || Validator.missing_executable result.

(** The verdict of the missing-tool rule. *)
Definition handled_gracefully (cmd : string) (result : ExecResult) : Validation :=
  if Validator.missing_driftmgr result then
    Validator.graceful (Validator.initial cmd result)
      "Should handle missing driftmgr gracefully"
      "Command handled missing driftmgr gracefully"
      "Skipped command due to missing driftmgr"
  else
    Validator.graceful (Validator.initial cmd result)
      "Should handle missing executable gracefully"
      "Command handled missing executable gracefully"
      "Executable not found - handled appropriately".

(** The command of the credentials scenario. *)
Definition credentials_show : string := "driftmgr credentials --show".

(** [update] in the words of the specification: the fraction
    [min(step/total, 1.0)], the filled width and the percentage rounded down
    with [floor], the ETA [elapsed / fraction * (1 - fraction)] when the
    fraction is positive and the placeholder otherwise. *)
Definition update_spec (now : float) (step : Z) (step_title : string)
  : M LoadingBar unit :=
  LoadingBar_.set_step step step_title ;;;
  b <- get ;;
  q <- truediv_int step (total_steps b) ;;
  let fraction := PyFloat.min q one in
  w <- of_int (width b) ;;
  filled <- PyFloat.floor (fmul w fraction) ;;
  bar <- LoadingBar_.bar_cells (width b) filled ;;
  percentage <- PyFloat.floor (fmul fraction hundred) ;;
  let elapsed := fsub now (start_time b) in
  eta <- (if fltb zero fraction
          then r <- truediv elapsed fraction ;;
               t <- LoadingBar_._format_time (fmul r (fsub one fraction)) ;;
               ret (Some t)
          else ret None) ;;
  shown <- LoadingBar_._format_time elapsed ;;
  LoadingBar_.write
    {| line_title := title b; line_bar := bar;
       line_filled_width := filled; line_percentage := percentage;
       line_elapsed := shown; line_eta := eta;
       line_step_title := step_title |}.

(** A float that is not negative: its sign bit is clear, or it is NaN. *)
Definition has_sign (sx : bool) (x : float) : Prop :=
  match x with
  | S754_zero s | S754_infinity s | S754_finite s _ _ => s = sx
  | S754_nan => True
  end.

(** The bar once [update] has drawn the line [l]. *)
Definition drawn (b : LoadingBar) (step : Z) (step_title : string) (l : Line)
  : LoadingBar :=
  {| total_steps := total_steps b; current_step := step; width := width b;
     title := title b; start_time := start_time b;
     step_titles := step_titles b; current_step_title := step_title;
     screen := screen b ++ [l] |}.

(** The state an outcome leaves, returned or raised. *)
Definition state_of {S A} (o : outcome S A) : S :=
  match o with Ret _ s | Exc _ s => s end.

(** A time the wall clock can show: not negative and below [2^64]
    seconds. *)
Definition wall_time (x : float) : Prop := bounded 971 64 x.

(** A bar that [update] can draw: at least one step and fewer than [2^64],
    at most [2^16] cells, started at a time of the wall clock. *)
Definition drawable (b : LoadingBar) : Prop :=
  0 < total_steps b < 2 ^ 64 /\ 0 <= width b <= 2 ^ 16
  /\ wall_time (start_time b).

(** A TUI that can take [n] more command updates: without a bar, or with
    counts from which the bar's arithmetic stays inside the floats. *)
Definition tui_ready (n : Z) (t : SimulationTUI) : Prop :=
  match loading_bar t with
  | None => True
  | Some b =>
      0 < total_commands t
      /\ 0 <= completed_commands t /\ completed_commands t + n <= 2 ^ 64
      /\ drawable b
  end.

(** A simulator whose statistics are sound and whose TUI is ready. *)
Definition ready (n : Z) (s : State) : Prop :=
  sound (test_summary (self s)) /\ tui_ready n (tui (self s)).

(** The operator does not interrupt a child process. *)
Definition no_interrupt (w : World) : Prop :=
  forall n argv t e, spawn w n argv t = Failed e -> is_Exception e = true.

(** The argument vector of the availability probe. *)
Definition probe_argv : list string := [ "driftmgr"; "--version" ].

(** The state once one more child process has been launched. *)
Definition launch (argv : list string) (s : State) : State :=
  {| self := self s; launched := launched s ++ [ argv ]; naps := naps s;
     report_file := report_file s |}.

(** The answer of a probe launched as the [n]-th child process. *)
Definition probe_answer (w : World) (n : nat) : bool :=
  match spawn w n probe_argv 10 with
  | Exited rc _ _ => rc =? 0
  | Failed _ => false
  end.

(** The state once [run_command] knows about the tool: as before for
    another program or with a cached answer, and after a probe otherwise. *)
Definition after_probe (w : World) (command : list string) (s : State) : State :=
  if Sim.is_tool command then
    match _driftmgr_available (self s) with
    | Some _ => s
    | None =>
        Sim.set_self
          (Sim.set_available (probe_answer w (length (launched s))) (self s))
          (launch probe_argv s)
    end
  else s.

(** Whether the command is launched from there. *)
Definition goes_ahead (command : list string) (s : State) : bool :=
  negb (Sim.is_tool command
        && match _driftmgr_available (self s) with
           | Some false => true
           | _ => false
           end).

(** The outcome of the child process of the command, when it is launched. *)
Definition launch_outcome (w : World) (command : list string) (timeout : Z)
    (s : State) : option proc_outcome :=
  let s1 := after_probe w command s in
  if goes_ahead command s1
  then Some (spawn w (length (launched s1)) command timeout)
  else None.

(** The state in which the result is validated. *)
Definition reached (w : World) (command : list string) (s : State) : State :=
  let s1 := after_probe w command s in
  if goes_ahead command s1 then launch command s1 else s1.

(** The result a raised exception is converted into. *)
Definition converted (command_str : string) (timeout : Z) (e : exn) : ExecResult :=
  match exn_cls e with
  | TimeoutExpired =>
      {| command := command_str; return_code := -1; stdout := "";
         stderr := "Command timed out"; duration := Int timeout;
         success := false |}
  | FileNotFoundError =>
      {| command := command_str; return_code := -1; stdout := "";
         stderr := "Command not found: " ++ exn_msg e; duration := Int 0;
         success := false |}
  | _ =>
      {| command := command_str; return_code := -1; stdout := "";
         stderr := exn_msg e; duration := Int 0; success := false |}
  end.

(** The result of [run_command], from the state it starts in. *)
Definition expected_result (w : World) (command : list string) (timeout : Z)
    (s : State) : ExecResult :=
  match launch_outcome w command timeout s with
  | None => Sim.skipped (join command)
  | Some (Exited rc out err) =>
      {| command := join command; return_code := rc; stdout := out;
         stderr := err;
         duration :=
           Float (fsub (clock w (length (launched (reached w command s))
                                 + naps s))
                       (clock w (length (launched s) + naps s)));
         success := rc =? 0 |}
  | Some (Failed e) => converted (join command) timeout e
  end.

(** A state with other statistics and another TUI. *)
Definition with_stats (t : TestSummary) (u : SimulationTUI) (s : State) : State :=
  Sim.set_self (Sim.set_tui u (Sim.set_test_summary t (self s))) s.

(** A tool that answers the probe and then never finishes in time. *)
Definition slow_tool : World :=
  {| spawn := fun n _ _ =>
       match n with
       | O => Exited 0 "driftmgr 1.0" ""
       | _ => Failed (Exn TimeoutExpired "timed out")
       end;
     ticks := fun n => Z.of_nat n * 10 ^ 9;
     region_files := None;
     sample_regions := fun _ regs => (hd "" regs, []);
     sleep_interrupted := fun _ => false |}.

(** The commands of one session of the runner, each with its timeout and its
    feature, run one after the other. *)
Fixpoint run_commands (w : World) (cmds : list (list string * Z * string))
  : M State (list CommandResult) :=
  match cmds with
  | [] => ret []
  | (command, timeout, feat) :: rest =>
      r <- Sim.run_command w command timeout feat ;;
      rs <- run_commands w rest ;;
      ret (r :: rs)
  end.

(** How many of the launched child processes were the probe. *)
Definition probes (l : list (list string)) : nat :=
  length (filter (fun argv => argv = probe_argv) l).

(** A command of the external tool that is not the probe itself. *)
Definition tool_command (c : list string * Z * string) : Prop :=
  Sim.is_tool (fst (fst c)) = true /\ fst (fst c) <> probe_argv.

(** The state in which the phases start: the TUI initialised for the planned
    number of commands. *)
Definition started (w : World) (s : State) : State :=
  state_of
    (bind (Sim.now w) (fun t =>
       Sim.on_tui (SimulationTUI_.initialize_simulation t Sim.planned_commands)) s).

(** The TUI as [initialize_simulation] leaves it. *)
Definition initialised (now : float) (total : Z) (t : SimulationTUI) : SimulationTUI :=
  {| loading_bar :=
       Some {| total_steps := 11; current_step := 0; width := 50;
               title := "DriftMgr User Simulation"; start_time := now;
               step_titles := SimulationTUI_.feature_steps;
               current_step_title := ""; screen := [] |};
     current_feature := current_feature t;
     current_command := current_command t;
     total_commands := total; completed_commands := 0 |}.


(** The value an outcome returns, if it returns. *)
Definition value_of {S A} (o : outcome S A) : option A :=
  match o with
  | Ret a _ => Some a
  | Exc _ _ => None
  end.

(** The lines the loading bar of the simulator has written. *)
Definition rendered (s : State) : list Line :=
  match loading_bar (tui (self s)) with
  | Some b => screen b
  | None => []
  end.

(** A machine without the tool: every launch fails to find the executable. *)
Definition tool_absent : World :=
  {| spawn := fun _ _ _ =>
       Failed (Exn FileNotFoundError
                 "[Errno 2] No such file or directory: 'driftmgr'");
     ticks := fun n => Z.of_nat n * 10 ^ 9;
     region_files := None;
     sample_regions := fun _ regs => (hd "" regs, []);
     sleep_interrupted := fun _ => false |}.


(** The first phase, as a session of the runner. *)
Definition credential_session : list (list string * Z * string) :=
  map (fun c => (c, 60, "credential_auto_detection")) Sim.credential_commands.

(** An invalid provider given to the discovery command: exit code 1 and an
    error on stderr. *)
Definition discover_invalid_provider : ExecResult :=
  {| command := "driftmgr discover invalid-provider"; return_code := 1;
     stdout := ""; stderr := "unknown provider"; duration := Float one;
     success := false |}.

(** An unknown command: exit code 1 and an error on stderr. *)
Definition invalid_command : ExecResult :=
  {| command := "driftmgr invalid-command"; return_code := 1;
     stdout := ""; stderr := "unknown command"; duration := Float one;
     success := false |}.

(** The result [run_command] makes of the [FileNotFoundError] that a POSIX
    system raises for a missing executable. *)
Definition posix_missing_executable : ExecResult :=
  converted credentials_show 60
    (Exn FileNotFoundError "[Errno 2] No such file or directory: 'driftmgr'").

(** The same for the [FileNotFoundError] of Windows. *)
Definition windows_missing_executable : ExecResult :=
  converted credentials_show 60
    (Exn FileNotFoundError
       "[WinError 2] The system cannot find the file specified").

(** A POSIX machine where the tool answers the probe and is gone when the
    first command is launched. *)
Definition tool_removed : World :=
  {| spawn := fun n _ _ =>
       match n with
       | O => Exited 0 "driftmgr 1.0" ""
       | _ => Failed (Exn FileNotFoundError
                        "[Errno 2] No such file or directory: 'driftmgr'")
       end;
     ticks := fun n => Z.of_nat n * 10 ^ 9;
     region_files := None;
     sample_regions := fun _ regs => (hd "" regs, []);
     sleep_interrupted := fun _ => false |}.

(** The bar of the harness: eleven steps, fifty cells. *)
Definition bar0 : LoadingBar :=
  LoadingBar_.init zero 11 50 "DriftMgr User Simulation".

(** ** The vocabulary of the further properties *)

(** ** The lock of the loading bar *)

(** A loading bar with its [threading.Lock], free or held. *)
Record LockedBar : Type := {
  bar : LoadingBar;
  held : bool
}.

(** How a call ends in a process with one thread: it returns or raises, or
    it waits for a lock that is held, which nothing will release. *)
Inductive ending (A : Type) : Type :=
| Ends (o : outcome LockedBar A)
| Waits (s : LockedBar).

Arguments Ends {A} o.
Arguments Waits {A} s.

Module Locked.

Definition set_held (h : bool) (s : LockedBar) : LockedBar :=
  {| bar := bar s; held := h |}.

(** [with self.lock: body]: the lock is acquired, the body runs, the lock is
    released however the body ends. *)
Definition with_lock {A} (body : LockedBar -> ending A) : LockedBar -> ending A :=
  fun s =>
    if held s then Waits s
    else match body (set_held true s) with
         | Ends (Ret a s') => Ends (Ret a (set_held false s'))
         | Ends (Exc e s') => Ends (Exc e (set_held false s'))
         | Waits s' => Waits s'
         end.

(** A computation on the fields of the bar. *)
Definition on_fields {A} (m : M LoadingBar A) : LockedBar -> ending A :=
  fun s =>
    match m (bar s) with
    | Ret a b => Ends (Ret a {| bar := b; held := held s |})
    | Exc e b => Ends (Exc e {| bar := b; held := held s |})
    end.

(** [update(step, step_title)], with the lock it takes. *)
Definition update (now : float) (step : Z) (step_title : string)
  : LockedBar -> ending unit :=
  with_lock (on_fields (LoadingBar_.update now step step_title)).

(** [complete(message)]; the newline it prints after the update is left
    out. *)
Definition complete (now : float) (message : string) : LockedBar -> ending unit :=
  with_lock (fun s => update now (total_steps (bar s)) message s).

End Locked.

(** What [update] makes of a bar whose lock is free, in the model without
    the lock. *)
Definition unlocked {A} (o : outcome LoadingBar A) : ending A :=
  match o with
  | Ret a b => Ends (Ret a {| bar := b; held := false |})
  | Exc e b => Ends (Exc e {| bar := b; held := false |})
  end.

(** The TUI once one more command is counted. *)
Definition counted_command (t : SimulationTUI) : SimulationTUI :=
  {| loading_bar := loading_bar t; current_feature := current_feature t;
     current_command := current_command t;
     total_commands := total_commands t;
     completed_commands := completed_commands t + 1 |}.

(** A computation that leaves the two counts of the TUI as they are, however
    it ends. *)
Definition keeps_counts {A} (m : M SimulationTUI A) : Prop :=
  forall t,
    completed_commands (state_of (m t)) = completed_commands t
    /\ total_commands (state_of (m t)) = total_commands t.

(** Whether a rule is the error-handling rule. *)
Definition is_error_rule (r : rule) : bool :=
  match r with ErrorHandling => true | _ => false end.

(** An entry whose rate is the one its counters give. *)
Definition in_sync (fs : FeatureStats) : Prop :=
  0 < total fs
  /\ exists q, @truediv_int unit (passed fs) (total fs) tt = Ret q tt
               /\ success_rate fs = fmul q hundred.

(** Statistics all of whose feature entries are in that case. *)
Definition rates_in_sync (t : TestSummary) : Prop :=
  forall f fs, feature_results t !! f = Some fs -> in_sync fs.

(** The entry of a feature once one more test is counted. *)
Definition one_more (ok : bool) (fs : FeatureStats) : FeatureStats :=
  {| total := total fs + 1;
     passed := if ok then passed fs + 1 else passed fs;
     failed := if ok then failed fs else failed fs + 1;
     success_rate := success_rate fs |}.

(** The results of one feature. *)
Definition of_feature (k : string) (l : list ResultEntry) : list ResultEntry :=
  filter (fun r => feature r = k) l.

(** The keys of a dictionary kept in insertion order. *)
Definition keys (d : list (string * FeatureSummary)) : list string := map fst d.

(** The command counts of the entries of a feature summary, added up. *)
Definition sum_commands (d : list (string * FeatureSummary)) : Z :=
  fold_right (fun kv acc => fs_total_commands (snd kv) + acc) 0 d.

Definition sum_successful (d : list (string * FeatureSummary)) : Z :=
  fold_right (fun kv acc => fs_successful_commands (snd kv) + acc) 0 d.

(** A duration, or a sum of durations, that an addition can take: a float,
    or an [int] between 0 and [B]. *)
Definition small (B : Z) (x : number) : Prop :=
  match x with
  | Int z => 0 <= z <= B
  | Float _ => True
  end.

(** Results whose [int] durations are below [2^64]. *)
Definition tame (l : list ResultEntry) : Prop :=
  Forall (fun r => small (2 ^ 64) (duration (exec (result r)))) l.

(** What the first loop of the report has counted for the results [l0]. *)
Definition tallied (l0 : list ResultEntry) (d : list (string * FeatureSummary)) : Prop :=
  List.NoDup (keys d)
  /\ sum_commands d = Z.of_nat (length l0)
  /\ sum_successful d = Sim.count_successful l0
  /\ forall k,
       match Sim.lookup_summary k d with
       | None => of_feature k l0 = []
       | Some fs =>
           0 < fs_total_commands fs
           /\ fs_total_commands fs = Z.of_nat (length (of_feature k l0))
           /\ fs_successful_commands fs = Sim.count_successful (of_feature k l0)
           /\ fs_failed_commands fs
              = fs_total_commands fs - fs_successful_commands fs
           /\ small (Z.of_nat (length l0) * 2 ^ 64) (fs_total_duration fs)
           /\ test_success_rate fs = zero
       end.

(** The entry of the feature of [r] once [r] is counted. *)
Definition tally_entry (r : ResultEntry) (dur : number) (summary : FeatureSummary)
  : FeatureSummary :=
  let ok := success (exec (result r)) in
  {| fs_total_commands := fs_total_commands summary + 1;
     fs_successful_commands :=
       if ok then fs_successful_commands summary + 1
       else fs_successful_commands summary;
     fs_failed_commands :=
       if ok then fs_failed_commands summary
       else fs_failed_commands summary + 1;
     avg_duration := avg_duration summary;
     fs_total_duration := dur;
     test_success_rate := test_success_rate summary |}.

(** What the second loop of the report makes of the entry [v] of the
    feature [k]: the counts stay, the average is the total duration divided
    by the count, the test success rate is the validator's when it has an
    entry for the feature. *)
Definition averaged (t : TestSummary) (k : string) (v v' : FeatureSummary) : Prop :=
  fs_total_commands v' = fs_total_commands v
  /\ fs_successful_commands v' = fs_successful_commands v
  /\ fs_failed_commands v' = fs_failed_commands v
  /\ fs_total_duration v' = fs_total_duration v
  /\ (exists x, @Sim.num_div_int unit (fs_total_duration v) (fs_total_commands v) tt
                = Ret x tt
                /\ avg_duration v' = Float x)
  /\ test_success_rate v'
     = match feature_results t !! k with
       | Some fs => success_rate fs
       | None => test_success_rate v
       end.

(** The state once the report [r] is in the report file. *)
Definition filed (r : Report) (s : State) : State :=
  {| self := self s; launched := launched s; naps := naps s;
     report_file := Some r |}.

(** One command of the plan of a session: the feature it is run under, the
    provider and the regions recorded with it, its timeout and its argument
    vector. *)
Record Planned : Type := {
  p_feature : string;
  p_provider : option string;
  p_regions : option (list string);
  p_timeout : Z;
  p_argv : list string
}.

(** The body of the loop of every phase: run the command, record the result,
    sleep. *)
Definition step (w : World) (p : Planned) : M State unit :=
  r <- Sim.run_command w (p_argv p) (p_timeout p) (p_feature p) ;;
  Sim.record w (p_feature p) (p_provider p) (p_regions p) r ;;;
  Sim.sleep w.

(** The operator does not interrupt a sleep. *)
Definition calm (w : World) : Prop := forall n, sleep_interrupted w n = false.

(** What the runner knows, or will learn from its probe, about the tool. *)
Definition answer (w : World) (s : State) : bool :=
  match _driftmgr_available (self s) with
  | Some a => a
  | None => probe_answer w (length (launched s))
  end.

(** The probe, when it has not been launched yet. *)
Definition probe_if_needed (s : State) : list (list string) :=
  match _driftmgr_available (self s) with
  | None => [ probe_argv ]
  | Some _ => []
  end.

(** The record of a planned command. *)
Definition entry_matches (p : Planned) (e : ResultEntry) : Prop :=
  feature e = p_feature p /\ provider e = p_provider p /\ regions e = p_regions p
  /\ command (exec (result e)) = join (p_argv p)
  /\ v_command (validation (result e)) = join (p_argv p)
  /\ small (2 ^ 64) (duration (exec (result e))).

(** The record of a command that was skipped, its verdict PASSED. *)
Definition entry_skipped (e : ResultEntry) : Prop :=
  exec (result e) = Sim.skipped (command (exec (result e)))
  /\ test_passed (validation (result e)) = true.

(** Two simulators with the same region lists. *)
Definition same_regions (x y : Simulator) : Prop :=
  aws_regions y = aws_regions x /\ azure_regions y = azure_regions x
  /\ gcp_regions y = gcp_regions x
  /\ digitalocean_regions y = digitalocean_regions x.

(** What running the planned commands [ps] makes of the state [s], the TUI
    apart. *)
Definition advance (w : World) (ps : list Planned) (s s' : State) : Prop :=
  exists new,
    simulation_results (self s') = (simulation_results (self s) ++ new)%list
    /\ Forall2 entry_matches ps new
    /\ same_regions (self s) (self s')
    /\ report_file s' = report_file s
    /\ _driftmgr_available (self s')
       = match ps with
         | [] => _driftmgr_available (self s)
         | _ => Some (answer w s)
         end
    /\ launched s'
       = (launched s ++ match ps with [] => [] | _ => probe_if_needed s end
            ++ if answer w s then map p_argv ps else [])%list
    /\ passed_tests (test_summary (self s)) <= passed_tests (test_summary (self s'))
    /\ failed_tests (test_summary (self s)) <= failed_tests (test_summary (self s'))
    /\ (answer w s = false ->
        test_summary (self s') = test_summary (self s) /\ Forall entry_skipped new).

(** What running the planned commands [ps] makes of the state [s]: the TUI
    has counted each of them. *)
Definition progress (w : World) (ps : list Planned) (s s' : State) : Prop :=
  advance w ps s s'
  /\ completed_commands (tui (self s'))
     = completed_commands (tui (self s)) + Z.of_nat (length ps)
  /\ total_commands (tui (self s')) = total_commands (tui (self s)).

(** The state once a result is recorded and the sleep is over. *)
Definition recorded (e : ResultEntry) (s : State) : State :=
  {| self := Sim.append_result e (self s); launched := launched s;
     naps := S (naps s); report_file := report_file s |}.

(** The commands of a phase, as planned commands. *)
Definition planned (feat : string) (timeout : Z) (commands : list (list string))
  : list Planned :=
  map (fun c => {| p_feature := feat; p_provider := None; p_regions := None;
                   p_timeout := timeout; p_argv := c |}) commands.

(** The four discovery commands of a provider that has regions. *)
Definition provider_plan (w : World) (prov : string) (regs : list string)
  : list Planned :=
  match regs with
  | [] => []
  | _ =>
      let '(first, others) := sample_regions w prov regs in
      map (fun c => {| p_feature := "resource_discovery"; p_provider := Some prov;
                       p_regions := Some (first :: others); p_timeout := 120;
                       p_argv := c |})
        (Sim.discovery_patterns prov first (first :: others))
  end.

(** The discovery commands of a session, provider by provider. *)
Definition discovery_plan (w : World) (x : Simulator) : list Planned :=
  (provider_plan w "aws" (aws_regions x)
   ++ provider_plan w "azure" (azure_regions x)
   ++ provider_plan w "gcp" (gcp_regions x)
   ++ provider_plan w "digitalocean" (digitalocean_regions x))%list.

(** The commands of a whole session, in the order of the phases. *)
Definition plan (w : World) (x : Simulator) : list Planned :=
  (planned "credential_auto_detection" 60 Sim.credential_commands
   ++ planned "state_file_detection" 90 Sim.state_file_commands
   ++ discovery_plan w x
   ++ planned "drift_analysis" 90 Sim.analysis_commands
   ++ planned "monitoring" 60 Sim.monitoring_commands
   ++ planned "remediation" 120 Sim.remediation_commands
   ++ planned "configuration" 60 Sim.config_commands
   ++ planned "reporting" 60 Sim.reporting_commands
   ++ planned "advanced" 60 Sim.advanced_commands
   ++ planned "error_handling" 60 Sim.error_commands
   ++ planned "interactive_mode" 60 Sim.interactive_commands)%list.

(** A planned command the runner can take: a command of the tool, with a
    timeout that is not negative. *)
Definition runnable (p : Planned) : Prop :=
  Sim.is_tool (p_argv p) = true /\ 0 <= p_timeout p <= 2 ^ 64.

(** 1 for a provider that has at least one region, 0 for one that has
    none. *)
Definition has_regions (regs : list string) : Z :=
  match regs with
  | [] => 0
  | _ => 1
  end.

(** The number of providers that have regions. *)
Definition providers_with_regions (x : Simulator) : Z :=
  has_regions (aws_regions x) + has_regions (azure_regions x)
  + has_regions (gcp_regions x) + has_regions (digitalocean_regions x).

(** A command that exits with 0. *)
Definition credentials_listed : ExecResult :=
  {| command := "driftmgr credentials list"; return_code := 0;
     stdout := "aws: default"; stderr := ""; duration := Float one;
     success := true |}.

(** A command that timed out. *)
Definition analysis_timed_out : ExecResult :=
  {| command := "driftmgr analyze --provider aws"; return_code := -1;
     stdout := ""; stderr := "Command timed out"; duration := Int 90;
     success := false |}.

(** The record of a skipped command. *)
Definition skipped_entry : ResultEntry :=
  {| feature := "credential_auto_detection"; provider := None; regions := None;
     timestamp := zero;
     result :=
       {| exec := Sim.skipped "driftmgr credentials list";
          validation :=
            handled_gracefully "driftmgr credentials list"
              (Sim.skipped "driftmgr credentials list") |} |}.

(** A simulator that has recorded one result. *)
Definition after_one_command : State :=
  recorded skipped_entry (Sim.boot tool_absent).

(** * Properties *)

(** ** Rounding never leaves the finite floats on small values *)

Section FloatFacts.

Lemma digits2_size p : digits2_pos p = Pos.size p.
Proof. induction p; simpl; congruence. Qed.

Lemma digits_gt p : Zpos p < 2 ^ Zpos (digits2_pos p).
Proof.
  rewrite digits2_size. pose proof (Pos.size_gt p) as H.
  apply Pos2Z.pos_lt_pos in H. rewrite Pos2Z.inj_pow in H. exact H.
Qed.

Lemma digits_le p k : Zpos p < 2 ^ k -> Zpos (digits2_pos p) <= k.
Proof.
  intros H. rewrite digits2_size. pose proof (Pos.size_le p) as L.
  apply Pos2Z.pos_le_pos in L. rewrite Pos2Z.inj_pow in L.
  destruct (Z.le_gt_cases (Zpos (Pos.size p)) k) as [|G]; [assumption|exfalso].
  assert (0 <= k).
  { destruct (Z.le_gt_cases 0 k); [assumption|]. rewrite Z.pow_neg_r in H by lia. lia. }
  assert (2 ^ (k + 1) <= 2 ^ Zpos (Pos.size p)) by (apply Z.pow_le_mono_r; lia).
  rewrite Z.pow_add_r in * by lia. lia.
Qed.

Lemma Zdigits2_nonneg m : 0 <= Zdigits2 m.
Proof. destruct m; simpl; lia. Qed.

Lemma Zdigits2_gt m : 0 <= m -> m < 2 ^ Zdigits2 m.
Proof. destruct m; simpl; intros; try lia. apply digits_gt. Qed.

Lemma Zdigits2_le m k : 0 <= m -> 0 <= k -> m < 2 ^ k -> Zdigits2 m <= k.
Proof. destruct m; simpl; intros; try lia. now apply digits_le. Qed.

Lemma Zdigits2_lower m : 0 < m -> 2 ^ (Zdigits2 m - 1) <= m.
Proof.
  destruct m as [|p|p]; try lia. intros _. cbn [Zdigits2].
  rewrite digits2_size. pose proof (Pos.size_le p) as L.
  apply Pos2Z.pos_le_pos in L. rewrite Pos2Z.inj_pow, Pos2Z.inj_xO in L.
  assert (0 < Z.pos (Pos.size p)) by lia.
  replace (Z.pos (Pos.size p)) with (Z.pos (Pos.size p) - 1 + 1) in L by lia.
  rewrite Z.pow_add_r in L by lia. change (2 * 1) with 2 in L.
  change (2 ^ 1) with 2 in L. lia.
Qed.

Lemma shr_1_m mrs : 0 <= shr_m mrs -> shr_m (shr_1 mrs) = shr_m mrs / 2.
Proof.
  destruct mrs as [m r s]; simpl. destruct m as [|p|p]; simpl; intros; try lia.
  - reflexivity.
  - destruct p; simpl; try reflexivity.
    + rewrite Pos2Z.inj_xI. apply Z.div_unique with 1; lia.
    + rewrite Pos2Z.inj_xO. apply Z.div_unique with 0; lia.
Qed.

Lemma iter_shr_m p : forall mrs, 0 <= shr_m mrs ->
  shr_m (SpecFloat.iter_pos shr_1 p mrs) = shr_m mrs / 2 ^ Zpos p.
Proof.
  assert (H1 : forall mrs, 0 <= shr_m mrs -> 0 <= shr_m (shr_1 mrs)).
  { intros mrs H. rewrite shr_1_m by assumption. apply Z.div_pos; lia. }
  induction p; intros mrs H; simpl.
  - rewrite IHp, IHp, shr_1_m; auto.
    + rewrite !Z.div_div by lia. f_equal. rewrite Pos2Z.inj_xI.
      rewrite <- !Z.pow_add_r by lia. rewrite <- Z.pow_succ_r by lia. f_equal. lia.
    + rewrite IHp by auto. apply Z.div_pos; [auto|]. apply Z.pow_pos_nonneg; lia.
  - rewrite IHp, IHp; auto.
    + rewrite !Z.div_div by lia. f_equal. rewrite Pos2Z.inj_xO.
      rewrite <- !Z.pow_add_r by lia. f_equal. lia.
    + rewrite IHp by auto. apply Z.div_pos; [auto|]. apply Z.pow_pos_nonneg; lia.
  - rewrite shr_1_m by auto. reflexivity.
Qed.

Lemma shr_m_of_loc m l : shr_m (shr_record_of_loc m l) = m.
Proof. destruct l as [|[]]; reflexivity. Qed.

Lemma fexp_binary64 D : fexp prec emax D = Z.max (D - 53) (-1074).
Proof. reflexivity. Qed.

(** What one application of [shr_fexp] leaves. *)
Lemma shr_fexp_spec m e l mrs e1 :
  0 <= m ->
  shr_fexp prec emax m e l = (mrs, e1) ->
  0 <= shr_m mrs < 2 ^ 53
  /\ e1 = Z.max e (fexp prec emax (Zdigits2 m + e))
  /\ (shr_m mrs <> 0 -> Zdigits2 (shr_m mrs) + e1 <= Zdigits2 m + e).
Proof.
  intros Hm. unfold shr_fexp, shr.
  pose proof (Zdigits2_gt m Hm) as Hd. pose proof (Zdigits2_nonneg m) as Hn.
  rewrite fexp_binary64. set (D := Zdigits2 m + e) in *.
  destruct (Z.max (D - 53) (-1074) - e) as [|p|p] eqn:En; intros [= <- <-];
    rewrite ?shr_m_of_loc.
  - assert (Zdigits2 m <= 53) by lia.
    assert (2 ^ Zdigits2 m <= 2 ^ 53) by (apply Z.pow_le_mono_r; lia).
    repeat split; lia.
  - rewrite iter_shr_m by (rewrite shr_m_of_loc; assumption).
    rewrite shr_m_of_loc.
    assert (Hp : 0 < 2 ^ Z.pos p) by (apply Z.pow_pos_nonneg; lia).
    assert (Hq : 0 <= m / 2 ^ Z.pos p) by (apply Z.div_pos; lia).
    assert (m / 2 ^ Z.pos p < 2 ^ 53).
    { apply Z.div_lt_upper_bound; [lia|].
      rewrite <- Z.pow_add_r by lia.
      assert (2 ^ Zdigits2 m <= 2 ^ (Z.pos p + 53)) by (apply Z.pow_le_mono_r; lia).
      lia. }
    repeat split; try lia.
    intros Hne.
    assert (Z.pos p < Zdigits2 m).
    { destruct (Z.lt_ge_cases (Z.pos p) (Zdigits2 m)); [assumption|exfalso].
      apply Hne. apply Z.div_small. split; [lia|].
      assert (2 ^ Zdigits2 m <= 2 ^ Z.pos p) by (apply Z.pow_le_mono_r; lia). lia. }
    assert (Zdigits2 (m / 2 ^ Z.pos p) <= Zdigits2 m - Z.pos p).
    { apply Zdigits2_le; [lia|lia|].
      apply Z.div_lt_upper_bound; [lia|].
      rewrite <- Z.pow_add_r by lia.
      replace (Z.pos p + (Zdigits2 m - Z.pos p)) with (Zdigits2 m) by lia. lia. }
    lia.
  - assert (Zdigits2 m <= 53) by lia.
    assert (2 ^ Zdigits2 m <= 2 ^ 53) by (apply Z.pow_le_mono_r; lia).
    repeat split; lia.
Qed.

Lemma round_nearest_even_bounds m l :
  m <= round_nearest_even m l <= m + 1.
Proof.
  destruct l as [|[]]; simpl; try lia. destruct (Z.even m); lia.
Qed.

Lemma binary_round_aux_bounded m e l K :
  0 <= m -> e <= 971 -> Zdigits2 m + e <= K -> -1074 <= K <= 1023 ->
  bounded 971 (K + 1) (binary_round_aux prec emax false m e l).
Proof.
  intros Hm He HD HK. unfold binary_round_aux.
  destruct (shr_fexp prec emax m e l) as [mrs1 e1] eqn:E1.
  apply shr_fexp_spec in E1 as (Hm1 & He1 & HD1); [|assumption].
  pose proof (round_nearest_even_bounds (shr_m mrs1) (loc_of_shr_record mrs1)) as Hr.
  set (m2 := round_nearest_even (shr_m mrs1) (loc_of_shr_record mrs1)) in *.
  destruct (shr_fexp prec emax m2 e1 loc_Exact) as [mrs3 e3] eqn:E3.
  apply shr_fexp_spec in E3 as (Hm3 & He3 & HD3); [|lia].
  rewrite fexp_binary64 in *.
  pose proof (Zdigits2_nonneg m) as Hn.
  assert (HD2 : Zdigits2 m2 + e1 <= K + 1).
  { destruct (Z.eq_dec (shr_m mrs1) 0) as [Hz|Hz].
    - assert (Zdigits2 m2 <= 1) by (apply Zdigits2_le; simpl; lia). lia.
    - specialize (HD1 Hz).
      pose proof (Zdigits2_gt (shr_m mrs1) ltac:(lia)) as G.
      pose proof (Zdigits2_nonneg (shr_m mrs1)) as N.
      assert (Zdigits2 m2 <= Zdigits2 (shr_m mrs1) + 1).
      { apply Zdigits2_le; [lia|lia|]. rewrite Z.pow_add_r by lia. lia. }
      lia. }
  destruct (shr_m mrs3) as [|p|p] eqn:Em3; simpl; [reflexivity| |lia].
  assert (Hle : (e3 <=? emax - prec) = true) by (apply Z.leb_le; unfold emax, prec; lia).
  rewrite Hle. simpl. repeat split; try lia.
  assert (Z.pos p <> 0) by lia. specialize (HD3 H). simpl in HD3. lia.
Qed.

Lemma bounded_weaken E K E' K' x :
  E <= E' -> K <= K' -> bounded E K x -> bounded E' K' x.
Proof. destruct x; simpl; intuition lia. Qed.

Lemma div_core_bounded (a b : positive) k mz ez lz :
  Zpos a < 2 ^ k * Zpos b -> 0 <= k ->
  SFdiv_core_binary prec emax (Zpos a) 0 (Zpos b) 0 = (mz, ez, lz) ->
  0 <= mz /\ ez <= 0 /\ Zdigits2 mz + ez <= k.
Proof.
  intros Hab Hk. unfold SFdiv_core_binary. cbv zeta.
  set (e' := Z.min _ _).
  assert (He' : e' <= 0) by (unfold e'; apply Z.le_min_r).
  set (m' := match 0 - 0 - e' with Z0 => _ | Zpos _ => _ | Zneg _ => _ end).
  assert (Hm' : m' = Zpos a * 2 ^ (- e')).
  { unfold m'. replace (0 - 0 - e') with (- e') by lia.
    destruct (- e') as [|p|p] eqn:E; try lia.
    rewrite Z.shiftl_mul_pow2 by lia. reflexivity. }
  pose proof (Z.div_eucl_eq m' (Zpos b) ltac:(lia)) as Hdiv.
  pose proof (Z.mod_pos_bound m' (Zpos b) ltac:(lia)) as Hmod.
  unfold Z.modulo in Hmod.
  destruct (Z.div_eucl m' (Zpos b)) as [q r]. intros [= <- <- <-].
  assert (Hp : 0 < 2 ^ (- e')) by (apply Z.pow_pos_nonneg; lia).
  assert (Hq : 0 <= q) by nia.
  assert (Hlt : q < 2 ^ (k - e')).
  { replace (k - e') with (k + - e') by lia. rewrite Z.pow_add_r by lia.
    assert (0 < 2 ^ k) by (apply Z.pow_pos_nonneg; lia). nia. }
  assert (Zdigits2 q <= k - e') by (apply Zdigits2_le; lia).
  repeat split; lia.
Qed.

Lemma truediv_int_bounded {S} (a b k : Z) (s : S) :
  0 <= a -> 0 < b -> a < 2 ^ k * b -> 0 <= k <= 1022 ->
  exists f, truediv_int a b s = Ret f s /\ bounded 971 (k + 1) f.
Proof.
  intros Ha Hb Hab Hk. unfold truediv_int.
  destruct (Z.eqb_spec b 0) as [|_]; [lia|].
  destruct b as [|pb|pb]; try lia. destruct a as [|pa|pa]; try lia.
  - simpl. eexists; split; reflexivity.
  - unfold exact, SFdiv.
    destruct (SFdiv_core_binary prec emax (Z.pos pa) 0 (Z.pos pb) 0)
      as [[mz ez] lz] eqn:E.
    apply div_core_bounded with (k := k) in E as (Hm & He & HD); [|assumption|lia].
    pose proof (binary_round_aux_bounded mz ez lz k Hm ltac:(lia) HD ltac:(lia)) as B.
    change (xorb false false) with false.
    destruct (binary_round_aux prec emax false mz ez lz) eqn:R; simpl in B;
      try contradiction; eexists; (split; [reflexivity|]); simpl; assumption.
Qed.

Lemma fmul_bounded E1 K1 E2 K2 x y :
  bounded E1 K1 x -> bounded E2 K2 y ->
  E1 + E2 <= 971 -> -1074 <= K1 + K2 <= 1023 ->
  bounded 971 (K1 + K2 + 1) (fmul x y).
Proof.
  intros Bx By HE HK.
  destruct x as [sx|sx| |sx mx ex], y as [sy|sy| |sy my ey]; simpl in Bx, By;
    try contradiction.
  - subst; reflexivity.
  - destruct By as [-> _]. subst. reflexivity.
  - destruct Bx as [-> _]. subst. reflexivity.
  - destruct Bx as (-> & Mx & Ex & Dx), By as (-> & My & Ey & Dy).
    unfold fmul, SFmul. change (xorb false false) with false.
    apply binary_round_aux_bounded; try lia.
    assert (Zdigits2 (Z.pos (mx * my)) <= Z.pos (digits2_pos mx) + Z.pos (digits2_pos my)).
    { apply Zdigits2_le; [lia|lia|]. rewrite Z.pow_add_r by lia.
      pose proof (digits_gt mx). pose proof (digits_gt my).
      rewrite Pos2Z.inj_mul. nia. }
    lia.
Qed.

Lemma to_int_bounded {S} E K x (s : S) :
  bounded E K x -> 0 <= K ->
  exists z, to_int x s = Ret z s /\ 0 <= z < 2 ^ K.
Proof.
  intros B HK. assert (0 < 2 ^ K) by (apply Z.pow_pos_nonneg; lia).
  destruct x as [sx|sx| |sx m e]; simpl in B; try contradiction.
  - exists 0. split; [reflexivity|lia].
  - destruct B as (-> & M & He & HD). eexists; split; [reflexivity|].
    pose proof (digits_gt m) as G.
    destruct (Z.le_gt_cases 0 e).
    + rewrite Z.shiftl_mul_pow2 by lia.
      assert (0 < 2 ^ e) by (apply Z.pow_pos_nonneg; lia).
      assert (2 ^ (Z.pos (digits2_pos m) + e) <= 2 ^ K) by (apply Z.pow_le_mono_r; lia).
      rewrite Z.pow_add_r in * by lia. nia.
    + rewrite Z.shiftl_div_pow2 by lia.
      assert (0 < 2 ^ (- e)) by (apply Z.pow_pos_nonneg; lia).
      split; [apply Z.div_pos; lia|].
      apply Z.div_lt_upper_bound; [lia|].
      rewrite <- Z.pow_add_r by lia.
      assert (2 ^ Z.pos (digits2_pos m) <= 2 ^ (- e + K)) by (apply Z.pow_le_mono_r; lia).
      lia.
Qed.

Lemma min_one_bounded E K q :
  bounded E K q -> bounded (-52) 1 (PyFloat.min q one).
Proof.
  intros B. unfold PyFloat.min, fltb, SFltb.
  destruct q as [sq|sq| |sq m e]; simpl in B; try contradiction.
  - subst. reflexivity.
  - destruct B as (-> & M & He & HD).
    assert (Hd : Z.pos (digits2_pos m) <= 53) by (apply digits_le; assumption).
    unfold one, SFcompare.
    destruct (Z.compare_spec (-52) e) as [<-|Hlt|Hgt].
    + destruct (Pos.compare_cont Eq 4503599627370496 m);
        simpl; repeat split; try lia; reflexivity.
    + simpl. repeat split; try lia; reflexivity.
    + simpl. repeat split; lia.
Qed.

Lemma pos_iter_xO m d : Zpos (Pos.iter xO m d) = Zpos m * 2 ^ Zpos d.
Proof.
  revert m. induction d using Pos.peano_ind; intros m.
  - simpl. lia.
  - rewrite Pos.iter_succ, Pos2Z.inj_xO, IHd, Pos2Z.inj_succ, Z.pow_succ_r by lia. lia.
Qed.

Lemma nearest_bounded z k :
  0 <= z < 2 ^ k -> 0 <= k <= 1022 -> bounded 971 (k + 1) (nearest z).
Proof.
  intros Hz Hk. unfold nearest, binary_normalize.
  destruct z as [|m|m]; [reflexivity| |lia].
  unfold binary_round.
  assert (Hd : Z.pos (digits2_pos m) <= k) by (apply digits_le; lia).
  destruct (shl_align m 0 (fexp prec emax (Z.pos (digits2_pos m) + 0))) as [mz ez] eqn:A.
  unfold shl_align in A. rewrite fexp_binary64 in A.
  pose proof (digits_gt m) as G.
  destruct (Z.max (Z.pos (digits2_pos m) + 0 - 53) (-1074) - 0) as [|d|d] eqn:Ed;
    injection A as <- <-.
  - apply binary_round_aux_bounded; simpl; lia.
  - apply binary_round_aux_bounded; simpl; lia.
  - apply binary_round_aux_bounded; try lia.
    assert (Zdigits2 (Z.pos (Pos.iter xO m d)) <= Z.pos (digits2_pos m) + Z.pos d).
    { apply Zdigits2_le; [lia|lia|]. rewrite pos_iter_xO, Z.pow_add_r by lia.
      assert (0 < 2 ^ Z.pos d) by (apply Z.pow_pos_nonneg; lia). nia. }
    lia.
Qed.

Lemma of_int_bounded {S} z k (s : S) :
  0 <= z < 2 ^ k -> 0 <= k <= 1022 ->
  exists f, of_int z s = Ret f s /\ bounded 971 (k + 1) f.
Proof.
  intros Hz Hk. pose proof (nearest_bounded z k Hz Hk) as B.
  unfold of_int. destruct (nearest z); simpl in B; try contradiction;
    eexists; (split; [reflexivity|assumption]).
Qed.

End FloatFacts.

(** ** The statistics of the validator *)

Section Statistics.

Lemma sum_totals_insert (m : gmap string FeatureStats) k fs :
  sum_totals (<[k := fs]> m)
  = total fs + sum_totals m - total (default Validator.fresh_stats (m !! k)).
Proof.
  unfold sum_totals.
  assert (C : forall (m' : gmap string FeatureStats) (j1 j2 : string) z1 z2 (y : Z),
             j1 <> j2 -> m' !! j1 = Some z1 -> m' !! j2 = Some z2 ->
             total z1 + (total z2 + y) = total z2 + (total z1 + y)) by (intros; lia).
  destruct (m !! k) as [old|] eqn:E; simpl.
  - rewrite <- insert_delete_eq.
    rewrite (map_fold_insert_L _ _ _ _ _ (C _)) by apply lookup_delete_eq.
    rewrite (map_fold_delete_L _ _ _ _ _ (C _) E). lia.
  - rewrite (map_fold_insert_L _ _ _ _ _ (C _) E). lia.
Qed.

Lemma sound_empty : sound Validator.empty_summary.
Proof.
  unfold sound, consistent. cbn [Validator.empty_summary feature_results
    total_tests passed_tests failed_tests].
  split; [split; [reflexivity|split]|].
  - intros f fs H. rewrite lookup_empty in H. discriminate.
  - apply map_fold_empty.
  - intros f fs H. rewrite lookup_empty in H. discriminate.
Qed.

Lemma validate_missing_tool cmd r feat t :
  Validator.missing_driftmgr r || Validator.missing_executable r = true ->
  exists v, Validator.validate_command_result cmd r feat t = Ret v t
            /\ test_passed v = true.
Proof.
  intros H. unfold Validator.validate_command_result.
  destruct (Validator.missing_driftmgr r); [eexists; split; reflexivity|].
  destruct (Validator.missing_executable r); [eexists; split; reflexivity|].
  discriminate.
Qed.

Lemma validate_counted cmd r feat t :
  sound t ->
  Validator.missing_driftmgr r || Validator.missing_executable r = false ->
  let v := Validator.by_command_type cmd r (Validator.initial cmd r) in
  exists q, Validator.validate_command_result cmd r feat t
            = Ret v (counted (test_passed v) feat q t).
Proof.
  intros St Hm v. apply orb_false_elim in Hm as [Hd He].
  unfold Validator.validate_command_result. rewrite Hd, He. fold v.
  destruct St as ((Hs & Hf & Hsum) & Hpos).
  set (fs := default Validator.fresh_stats (feature_results t !! feat)).
  assert (Hfs : total fs = passed fs + failed fs /\ 0 <= passed fs /\ 0 <= failed fs).
  { unfold fs. destruct (feature_results t !! feat) as [x|] eqn:E; simpl.
    - specialize (Hf _ _ E). specialize (Hpos _ _ E). lia.
    - lia. }
  set (fs' := {| total := total fs + 1;
                 passed := if test_passed v then passed fs + 1 else passed fs;
                 failed := if test_passed v then failed fs else failed fs + 1;
                 success_rate := success_rate fs |}).
  set (t1 := Validator.count_feature (test_passed v) feat
               (Validator.count_test (test_passed v) t)).
  destruct (truediv_int_bounded (passed fs') (total fs') 1 t1) as (q & Hq & _);
    try (unfold fs'; simpl; destruct (test_passed v); lia).
  exists q.
  unfold bind at 1. unfold modify at 1. unfold bind at 1. unfold modify at 1.
  fold t1. unfold bind at 1. unfold get at 1.
  assert (L : default Validator.fresh_stats (feature_results t1 !! feat) = fs').
  { unfold t1, Validator.count_feature, Validator.set_features, Validator.count_test.
    cbn [feature_results]. rewrite lookup_insert_eq. reflexivity. }
  rewrite L. unfold bind at 1. rewrite Hq. reflexivity.
Qed.

Lemma counted_sound ok feat q t : sound t -> sound (counted ok feat q t).
Proof.
  intros ((Hs & Hf & Hsum) & Hpos).
  set (fs := default Validator.fresh_stats (feature_results t !! feat)).
  assert (Hfs : total fs = passed fs + failed fs /\ 0 <= passed fs /\ 0 <= failed fs).
  { unfold fs. destruct (feature_results t !! feat) as [x|] eqn:E; simpl.
    - specialize (Hf _ _ E). specialize (Hpos _ _ E). lia.
    - lia. }
  unfold sound, consistent, counted, Validator.set_rate, Validator.count_feature,
    Validator.set_features, Validator.count_test.
  cbn [feature_results total_tests passed_tests failed_tests skipped_tests].
  rewrite lookup_insert_eq, insert_insert_eq. cbn [default]. fold fs.
  repeat split; cbn [feature_results total_tests passed_tests failed_tests
                      total passed failed].
  - destruct ok; lia.
  - intros f x. rewrite lookup_insert. case_decide.
    + intros [= <-]. simpl. destruct ok; lia.
    + apply Hf.
  - rewrite sum_totals_insert. fold fs. simpl. lia.
  - revert H. rewrite lookup_insert. case_decide.
    + intros [= <-]. simpl. destruct ok; lia.
    + intros H'. apply (Hpos _ _ H').
  - revert H. rewrite lookup_insert. case_decide.
    + intros [= <-]. simpl. destruct ok; lia.
    + intros H'. apply (Hpos _ _ H').
Qed.

Lemma counted_other ok feat q t f :
  f <> feat -> feature_results (counted ok feat q t) !! f = feature_results t !! f.
Proof.
  intros Hne. unfold counted, Validator.set_rate, Validator.count_feature,
    Validator.set_features. cbn [feature_results].
  rewrite !lookup_insert_ne by congruence. reflexivity.
Qed.

Lemma validate_sound cmd r feat t :
  sound t ->
  exists v t', Validator.validate_command_result cmd r feat t = Ret v t' /\ sound t'.
Proof.
  intros St.
  destruct (Validator.missing_driftmgr r || Validator.missing_executable r) eqn:Hm.
  - destruct (validate_missing_tool cmd r feat t Hm) as (v & E & _). eauto.
  - destruct (validate_counted cmd r feat t St Hm) as (q & E).
    eexists _, _. split; [exact E|]. now apply counted_sound.
Qed.

Lemma validate_all_sound calls : forall t,
  sound t -> exists t', validate_all calls t = Ret tt t' /\ sound t'.
Proof.
  induction calls as [|[[cmd r] feat] calls IH]; intros t St.
  - exists t. split; [reflexivity|assumption].
  - destruct (validate_sound cmd r feat t St) as (v & t1 & E & St1).
    destruct (IH t1 St1) as (t' & E' & St').
    exists t'. split; [|assumption].
    unfold validate_all in *. cbn [for_each]. unfold bind at 1. unfold bind at 1.
    rewrite E. unfold ret at 1. exact E'.
Qed.

End Statistics.

(** C1. Whatever calls the validator receives, one after the other from the
    empty statistics, each of them returns, and the statistics it leaves
    satisfy: the session total is the sum of the passed and failed counts;
    so is the total of every feature entry; and the per-feature totals add up
    to the session total. *)
Theorem statistics_consistent_after_every_call
    (calls : list (string * ExecResult * string)) :
  exists t, validate_all calls Validator.empty_summary = Ret tt t /\ consistent t.
Proof.
  destruct (validate_all_sound calls _ sound_empty) as (t & E & St & _).
  exists t. split; assumption.
Qed.

(** ** The verdicts of the validator *)

Section Verdicts.

Lemma by_command_type_first_match cmd result v :
  Validator.by_command_type cmd result v = apply_rule (first_match cmd) result v.
Proof.
  unfold Validator.by_command_type, first_match, rule_table.
  cbn [find existsb fst].
  rewrite !orb_false_r.
  repeat (match goal with
          | |- context [contains ?k cmd] => destruct (contains k cmd); cbn [orb]
          end; try reflexivity).
Qed.

End Verdicts.

(** X13. When the lowercased stderr of a result contains "driftmgr not
    available", "file not found" or "cannot find the file", the validator
    returns at once: the verdict is PASSED, its evidence says that the missing
    tool or executable was handled gracefully, whatever the command text and
    the feature are; no rule of the chain is consulted and the statistics are
    left as they were. *)
Theorem missing_tool_passes_first cmd result feat t :
  missing_tool result = true ->
  Validator.validate_command_result cmd result feat t
    = Ret (handled_gracefully cmd result) t
  /\ test_passed (handled_gracefully cmd result) = true
  /\ test_result (handled_gracefully cmd result) = "PASSED"
  /\ (validation_details (handled_gracefully cmd result)
        = [ "Command handled missing driftmgr gracefully" ]
      \/ validation_details (handled_gracefully cmd result)
        = [ "Command handled missing executable gracefully" ]).
Proof.
  unfold missing_tool, handled_gracefully, Validator.validate_command_result.
  intros H. destruct (Validator.missing_driftmgr result).
  - repeat split. now left.
  - simpl in H. rewrite H. repeat split. now right.
Qed.

Lemma missing_tool_passes_first_witness :
  (missing_tool (Sim.skipped credentials_show) = true
   /\ Validator.validate_command_result credentials_show
        (Sim.skipped credentials_show) "credentials" Validator.empty_summary
      = Ret (handled_gracefully credentials_show (Sim.skipped credentials_show))
          Validator.empty_summary
   /\ validation_details
        (handled_gracefully credentials_show (Sim.skipped credentials_show))
      = [ "Command handled missing driftmgr gracefully" ])
  /\ (missing_tool windows_missing_executable = true
      /\ Validator.validate_command_result credentials_show
           windows_missing_executable "credentials" Validator.empty_summary
         = Ret (handled_gracefully credentials_show windows_missing_executable)
             Validator.empty_summary
      /\ validation_details
           (handled_gracefully credentials_show windows_missing_executable)
         = [ "Command handled missing executable gracefully" ]).
Proof.
  split.
  - split; [reflexivity|].
    pose proof (missing_tool_passes_first credentials_show
                  (Sim.skipped credentials_show) "credentials"
                  Validator.empty_summary eq_refl) as (E & _).
    split; [exact E|reflexivity].
  - split; [reflexivity|].
    pose proof (missing_tool_passes_first credentials_show
                  windows_missing_executable "credentials"
                  Validator.empty_summary eq_refl) as (E & _).
    split; [exact E|reflexivity].
Defined.

(** C2. The result [run_command] stores when the executable is missing on a
    POSIX system, with the stderr "Command not found: [Errno 2] No such file
    or directory: 'driftmgr'", is not taken for a missing-tool condition: the
    validator goes on to the rule of the command text, the verdict is FAILED
    and the test is counted as failed. The text of the same failure on
    Windows, which has "cannot find the file", passes as handled
    gracefully. *)
Theorem posix_missing_executable_is_failed :
  (exists r s',
     Sim.run_command tool_removed [ "driftmgr"; "credentials"; "--show" ] 60
       "credential_auto_detection" (Sim.boot tool_removed) = Ret r s'
     /\ exec r = posix_missing_executable
     /\ test_passed (validation r) = false)
  /\ missing_tool posix_missing_executable = false
  /\ (exists v t',
        Validator.validate_command_result credentials_show
          posix_missing_executable "credential_auto_detection"
          Validator.empty_summary = Ret v t'
        /\ test_passed v = false /\ test_result v = "FAILED"
        /\ expected_behavior v = "Should detect or list credentials"
        /\ total_tests t' = 1 /\ failed_tests t' = 1)
  /\ Validator.validate_command_result credentials_show
       windows_missing_executable "credential_auto_detection"
       Validator.empty_summary
     = Ret (handled_gracefully credentials_show windows_missing_executable)
         Validator.empty_summary.
Proof.
  split.
  { eexists _, _. split; [vm_compute; reflexivity|]. split; reflexivity. }
  split; [reflexivity|]. split.
  { eexists _, _. split; [vm_compute; reflexivity|]. repeat split. }
  reflexivity.
Qed.

(** C10. For a result the missing-tool rule does not catch, the verdict of the
    validator is that of the first rule of the fixed table one of whose
    substrings occurs in the command text (the exit-code rule when none
    does): it is a function of the command text and the result alone. The
    feature tag selects the statistics entry that is counted, and nothing
    else: the test is counted once in the session counters and once in the
    entry of the tag, created when absent, as passed or failed after the
    verdict; every other entry is left as it was. *)
Theorem rule_selected_by_command_text cmd result feat t :
  sound t -> missing_tool result = false ->
  let v := apply_rule (first_match cmd) result (Validator.initial cmd result) in
  let fs := default Validator.fresh_stats (feature_results t !! feat) in
  exists t',
    Validator.validate_command_result cmd result feat t = Ret v t'
    /\ total_tests t' = total_tests t + 1
    /\ passed_tests t' = passed_tests t + (if test_passed v then 1 else 0)
    /\ failed_tests t' = failed_tests t + (if test_passed v then 0 else 1)
    /\ (exists fs',
          feature_results t' !! feat = Some fs'
          /\ total fs' = total fs + 1
          /\ passed fs' = passed fs + (if test_passed v then 1 else 0)
          /\ failed fs' = failed fs + (if test_passed v then 0 else 1))
    /\ forall f, f <> feat -> feature_results t' !! f = feature_results t !! f.
Proof.
  intros St Hm v fs.
  destruct (validate_counted cmd result feat t St Hm) as (q & E).
  rewrite by_command_type_first_match in E. fold v in E.
  exists (counted (test_passed v) feat q t). split; [exact E|].
  split; [|split; [|split; [|split]]].
  - unfold counted, Validator.set_rate, Validator.count_feature,
      Validator.set_features, Validator.count_test. cbn [total_tests].
    destruct (test_passed v); reflexivity.
  - unfold counted, Validator.set_rate, Validator.count_feature,
      Validator.set_features, Validator.count_test. cbn [passed_tests].
    destruct (test_passed v); cbn [passed_tests]; lia.
  - unfold counted, Validator.set_rate, Validator.count_feature,
      Validator.set_features, Validator.count_test. cbn [failed_tests].
    destruct (test_passed v); cbn [failed_tests]; lia.
  - unfold counted, Validator.set_rate, Validator.count_feature,
      Validator.set_features. cbn [feature_results].
    rewrite !lookup_insert. rewrite ?decide_True by reflexivity.
    cbn [default]. eexists. split; [reflexivity|].
    fold fs. cbn [total passed failed].
    replace (feature_results (Validator.count_test (test_passed v) t))
      with (feature_results t)
      by (unfold Validator.count_test; destruct (test_passed v); reflexivity).
    cbn [id total passed failed]. subst fs.
    destruct (test_passed v); repeat split; lia.
  - intros f Hf. now apply counted_other.
Qed.

(** C5 (amended). For every command whose text selects the error rule
    (it contains "invalid" or "error" and none of the substrings of the rules
    tried before), and whose stderr does not trigger the missing-tool rule, the
    verdict is PASSED if and only if the exit code is not zero and the stderr
    is not empty or the lowercased stdout contains "error". The feature tag
    plays no part. *)
Theorem error_rule_verdict cmd result feat t :
  sound t -> missing_tool result = false ->
  first_match cmd = ErrorHandling ->
  success result = (return_code result =? 0) ->
  exists v t',
    Validator.validate_command_result cmd result feat t = Ret v t'
    /\ (test_passed v = true <->
        return_code result <> 0
        /\ (stderr result <> "" \/ contains "error" (lower (stdout result)) = true)).
Proof.
  intros St Hm Hr Hs.
  destruct (validate_counted cmd result feat t St Hm) as (q & E).
  eexists _, _. split; [exact E|].
  rewrite by_command_type_first_match, Hr. unfold apply_rule, Validator.judge.
  rewrite Hs.
  destruct (Z.eqb_spec (return_code result) 0) as [Hz|Hz];
    destruct (String.eqb_spec (stderr result) "") as [Hn|Hn];
    destruct (contains "error" (lower (stdout result))); simpl;
    intuition congruence.
Qed.

(** ** The loading bar *)

Section Signs.

Lemma binary_round_aux_sign sx m e l :
  has_sign sx (binary_round_aux prec emax sx m e l).
Proof.
  unfold binary_round_aux.
  destruct (shr_fexp prec emax m e l) as [mrs1 e1].
  destruct (shr_fexp _ _ _ e1 loc_Exact) as [mrs2 e2].
  destruct (shr_m mrs2); simpl; trivial.
  destruct (e2 <=? emax - prec); reflexivity.
Qed.

Lemma fmul_sign x y :
  has_sign false x -> has_sign false y -> has_sign false (fmul x y).
Proof.
  destruct x as [sx|sx| |sx mx ex], y as [sy|sy| |sy my ey]; simpl;
    intros; subst; trivial.
  apply (binary_round_aux_sign false).
Qed.

Lemma truediv_int_sign {S} a b q (s s' : S) :
  0 <= a -> 0 < b -> truediv_int a b s = Ret q s' -> has_sign false q /\ s' = s.
Proof.
  intros Ha Hb. unfold truediv_int. destruct (b =? 0); [discriminate|].
  destruct b as [|pb|pb]; try lia. destruct a as [|pa|pa]; try lia.
  - simpl. intros [= <- <-]. split; reflexivity.
  - unfold exact, SFdiv.
    destruct (SFdiv_core_binary prec emax (Z.pos pa) 0 (Z.pos pb) 0) as [[mz ez] lz].
    pose proof (binary_round_aux_sign (xorb false false) mz ez lz) as H.
    destruct (binary_round_aux _ _ _ _ _ _); try discriminate;
      intros [= <- <-]; split; trivial.
Qed.

Lemma of_int_sign {S} z w (s s' : S) :
  0 <= z -> of_int z s = Ret w s' -> has_sign false w /\ s' = s.
Proof.
  intros Hz. unfold of_int, nearest, binary_normalize.
  destruct z as [|m|m]; try lia.
  - intros [= <- <-]. split; reflexivity.
  - unfold binary_round.
    destruct (shl_align m 0 _) as [mz ez].
    pose proof (binary_round_aux_sign false (Z.pos mz) ez loc_Exact) as H.
    destruct (binary_round_aux _ _ _ _ _ _); try discriminate;
      intros [= <- <-]; split; trivial.
Qed.

Lemma min_one_sign q : has_sign false q -> has_sign false (PyFloat.min q one).
Proof. unfold PyFloat.min. destruct (fltb one q); [reflexivity|trivial]. Qed.

Lemma to_int_floor {S} x : has_sign false x -> @to_int S x = PyFloat.floor x.
Proof. destruct x; simpl; intros; subst; reflexivity. Qed.

Lemma bounded_sign E K x : bounded E K x -> has_sign false x.
Proof. destruct x; simpl; intuition. Qed.

End Signs.

Section Magnitude.

Lemma pow_split a b : 0 <= a -> 0 <= b -> 2 ^ (a + b) = 2 ^ a * 2 ^ b.
Proof. intros. apply Z.pow_add_r; assumption. Qed.

Lemma Zdigits2_unique m d : 0 < m -> 2 ^ (d - 1) <= m < 2 ^ d -> Zdigits2 m = d.
Proof.
  intros Hm [Hl Hu].
  assert (Hd : 0 <= d).
  { destruct (Z.le_gt_cases 0 d); [assumption|]. rewrite Z.pow_neg_r in Hu by lia. lia. }
  pose proof (Zdigits2_le m d ltac:(lia) Hd Hu) as H1.
  pose proof (Zdigits2_gt m ltac:(lia)) as H2.
  pose proof (Zdigits2_nonneg m) as H3.
  destruct (Z.eq_dec (Zdigits2 m) d) as [|Hne]; [assumption|exfalso].
  assert (2 ^ Zdigits2 m <= 2 ^ (d - 1)) by (apply Z.pow_le_mono_r; lia).
  lia.
Qed.

Lemma Zdigits2_shift m k : 0 < m -> 0 <= k -> Zdigits2 (m * 2 ^ k) = Zdigits2 m + k.
Proof.
  intros Hm Hk. pose proof (Zdigits2_lower m Hm) as Hl.
  pose proof (Zdigits2_gt m ltac:(lia)) as Hg.
  assert (0 < Zdigits2 m) by (destruct m; try lia; cbn; lia).
  assert (Pk : 0 < 2 ^ k) by (apply Z.pow_pos_nonneg; lia).
  apply Zdigits2_unique; [nia|].
  replace (Zdigits2 m + k - 1) with (Zdigits2 m - 1 + k) by lia.
  rewrite !pow_split by lia. nia.
Qed.

Lemma within_weaken K K' x : K <= K' -> within K x -> within K' x.
Proof. intros H. unfold within. apply bounded_weaken; lia. Qed.

Lemma bounded_within E K x : bounded E K x -> E <= 971 -> within K x.
Proof.
  unfold within. destruct x as [s|s| |s m e]; simpl; try tauto.
  intros (-> & ? & ? & ?) ?. repeat split; lia.
Qed.

Lemma bounded_tight E K x : bounded E K x -> bounded (K - 1) K x.
Proof.
  destruct x as [s|s| |s m e]; simpl; try tauto.
  intros (-> & ? & ? & ?). repeat split; lia.
Qed.

Lemma abs_round_aux sx m e l :
  SFabs (binary_round_aux prec emax sx m e l) = binary_round_aux prec emax false m e l.
Proof.
  unfold binary_round_aux.
  destruct (shr_fexp prec emax m e l) as [mrs1 e1].
  destruct (shr_fexp _ _ _ e1 loc_Exact) as [mrs2 e2].
  destruct (shr_m mrs2); [reflexivity| |reflexivity].
  destruct (e2 <=? emax - prec); reflexivity.
Qed.

Lemma round_aux_within sx m e l K :
  0 <= m -> e <= 971 -> Zdigits2 m + e <= K -> -1074 <= K <= 1023 ->
  within (K + 1) (binary_round_aux prec emax sx m e l).
Proof.
  intros. unfold within. rewrite abs_round_aux. now apply binary_round_aux_bounded.
Qed.

Lemma shl_align_spec m e e' mz ez :
  shl_align m e e' = (mz, ez) ->
  ez = Z.min e e' /\ Zpos mz = Zpos m * 2 ^ (e - ez).
Proof.
  unfold shl_align. destruct (e' - e) as [|d|d] eqn:E; intros [= <- <-].
  - split; [lia|]. replace (e - e) with 0 by lia. lia.
  - split; [lia|]. replace (e - e) with 0 by lia. lia.
  - unfold shift_pos. rewrite pos_iter_xO. split; [lia|]. do 2 f_equal. lia.
Qed.

Lemma binary_round_within sx m e K :
  e <= 971 -> Zpos (digits2_pos m) + e <= K -> -1074 <= K <= 1023 ->
  within (K + 1) (binary_round prec emax sx m e).
Proof.
  intros He HD HK. unfold binary_round.
  destruct (shl_align m e _) as [mz ez] eqn:A.
  apply shl_align_spec in A as [Hez Hmz].
  apply round_aux_within; try lia.
  rewrite Hmz, Zdigits2_shift by lia. cbn [Zdigits2]. lia.
Qed.

Lemma normalize_within m e sz K :
  e <= 971 -> Zdigits2 (Z.abs m) + e <= K -> -1074 <= K <= 1023 ->
  within (K + 1) (binary_normalize prec emax m e sz).
Proof.
  intros He HD HK. unfold binary_normalize. destruct m as [|p|p].
  - reflexivity.
  - change (Zdigits2 (Z.abs (Z.pos p))) with (Z.pos (digits2_pos p)) in HD.
    apply binary_round_within; lia.
  - change (Zdigits2 (Z.abs (Z.neg p))) with (Z.pos (digits2_pos p)) in HD.
    apply binary_round_within; lia.
Qed.

Lemma aligned_lt m e ez K mz ez' :
  shl_align m e ez = (mz, ez') -> ez <= e -> Zpos (digits2_pos m) + e <= K ->
  0 < Zpos mz < 2 ^ (K - ez).
Proof.
  intros A Hez HD. apply shl_align_spec in A as [-> ->].
  replace (Z.min e ez) with ez by lia.
  pose proof (digits_gt m) as G.
  assert (0 < 2 ^ (e - ez)) by (apply Z.pow_pos_nonneg; lia).
  assert (2 ^ (Zpos (digits2_pos m) + (e - ez)) <= 2 ^ (K - ez))
    by (apply Z.pow_le_mono_r; lia).
  rewrite pow_split in * by lia. nia.
Qed.

Lemma sum_within sx sy mx ex my ey K (op : Z -> Z -> Z) :
  (forall a b, Z.abs (op a b) <= Z.abs a + Z.abs b) ->
  Zpos (digits2_pos mx) + ex <= K -> Zpos (digits2_pos my) + ey <= K ->
  ex <= 971 -> ey <= 971 -> -1074 <= K <= 1022 ->
  within (K + 2)
    (binary_normalize prec emax
       (op (cond_Zopp sx (Zpos (fst (shl_align mx ex (Z.min ex ey)))))
           (cond_Zopp sy (Zpos (fst (shl_align my ey (Z.min ex ey))))))
       (Z.min ex ey) false).
Proof.
  intros Hop Dx Dy Ex Ey HK. set (ez := Z.min ex ey).
  destruct (shl_align mx ex ez) as [mx' ex'] eqn:Ax.
  destruct (shl_align my ey ez) as [my' ey'] eqn:Ay.
  apply aligned_lt with (K := K) in Ax; [|unfold ez; lia|assumption].
  apply aligned_lt with (K := K) in Ay; [|unfold ez; lia|assumption].
  cbn [fst]. replace (K + 2) with (K + 1 + 1) by lia.
  apply normalize_within; try (unfold ez; lia).
  specialize (Hop (cond_Zopp sx (Z.pos mx')) (cond_Zopp sy (Z.pos my'))).
  assert (Z.abs (cond_Zopp sx (Z.pos mx')) = Z.pos mx') by (destruct sx; simpl; lia).
  assert (Z.abs (cond_Zopp sy (Z.pos my')) = Z.pos my') by (destruct sy; simpl; lia).
  assert (0 < K - ez) by (pose proof (Pos2Z.pos_is_pos (digits2_pos mx)); unfold ez; lia).
  assert (Zdigits2 (Z.abs (op (cond_Zopp sx (Z.pos mx')) (cond_Zopp sy (Z.pos my'))))
          <= K - ez + 1).
  { apply Zdigits2_le; [lia|lia|]. rewrite pow_split by lia. change (2 ^ 1) with 2. lia. }
  lia.
Qed.

Lemma fsub_within K x y :
  within K x -> within K y -> -1074 <= K <= 1022 -> within (K + 2) (fsub x y).
Proof.
  intros Bx By HK. unfold within in *.
  destruct x as [sx|sx| |sx mx ex], y as [sy|sy| |sy my ey]; simpl in Bx, By;
    try contradiction.
  - destruct sx, sy; reflexivity.
  - simpl. destruct By as (_ & ? & ? & ?). repeat split; lia.
  - simpl. destruct Bx as (_ & ? & ? & ?). repeat split; lia.
  - destruct Bx as (_ & ? & ? & ?), By as (_ & ? & ? & ?).
    unfold fsub, SFsub. apply (sum_within sx sy mx ex my ey K Z.sub); try lia.
Qed.

Lemma fadd_within K x y :
  within K x -> within K y -> -1074 <= K <= 1022 -> within (K + 2) (fadd x y).
Proof.
  intros Bx By HK. unfold within in *.
  destruct x as [sx|sx| |sx mx ex], y as [sy|sy| |sy my ey]; simpl in Bx, By;
    try contradiction.
  - destruct sx, sy; reflexivity.
  - simpl. destruct By as (_ & ? & ? & ?). repeat split; lia.
  - simpl. destruct Bx as (_ & ? & ? & ?). repeat split; lia.
  - destruct Bx as (_ & ? & ? & ?), By as (_ & ? & ? & ?).
    unfold fadd, SFadd. apply (sum_within sx sy mx ex my ey K Z.add); try lia.
Qed.

Lemma abs_fmul x y : SFabs (fmul x y) = fmul (SFabs x) (SFabs y).
Proof.
  destruct x as [sx|sx| |sx mx ex], y as [sy|sy| |sy my ey]; try reflexivity.
  unfold fmul, SFmul, SFabs at 2 3. apply abs_round_aux.
Qed.

Lemma fmul_within K1 K2 x y :
  within K1 x -> within K2 y -> K1 + K2 <= 973 -> -1074 <= K1 + K2 ->
  within (K1 + K2 + 1) (fmul x y).
Proof.
  intros Bx By H1 H2. unfold within in *. rewrite abs_fmul.
  apply (fmul_bounded (K1 - 1) K1 (K2 - 1) K2); try lia.
  - now apply bounded_tight with 971.
  - now apply bounded_tight with 971.
Qed.

(** The quotient of two mantissas, before it is rounded. *)
Lemma div_core_within m1 e1 m2 e2 mz ez lz :
  0 < m1 -> 0 < m2 ->
  SFdiv_core_binary prec emax m1 e1 m2 e2 = (mz, ez, lz) ->
  0 <= mz
  /\ ez <= Z.max (Zdigits2 m1 + e1 - (Zdigits2 m2 + e2) - 53) (-1074)
  /\ Zdigits2 mz + ez <= Z.max (Zdigits2 m1 + e1 - (Zdigits2 m2 + e2) + 1) (-1074).
Proof.
  intros H1 H2. unfold SFdiv_core_binary. cbv zeta. rewrite fexp_binary64.
  set (D := Zdigits2 m1 + e1 - (Zdigits2 m2 + e2)).
  set (e' := Z.min _ _).
  assert (He' : e' <= e1 - e2) by (unfold e'; apply Z.le_min_r).
  assert (Hf : e' <= Z.max (D - 53) (-1074)) by (unfold e'; apply Z.le_min_l).
  set (s := e1 - e2 - e') in *.
  set (m' := match s with Z0 => _ | Zpos _ => _ | Zneg _ => _ end).
  assert (Hm' : m' = m1 * 2 ^ s).
  { unfold m'. destruct s as [|p|p] eqn:E; try lia.
    rewrite Z.shiftl_mul_pow2 by lia. reflexivity. }
  pose proof (Z.div_eucl_eq m' m2 ltac:(lia)) as Hdiv.
  pose proof (Z.mod_pos_bound m' m2 ltac:(lia)) as Hmod.
  unfold Z.modulo in Hmod.
  destruct (Z.div_eucl m' m2) as [q r]. intros [= <- <- <-].
  assert (Hp : 0 < 2 ^ s) by (apply Z.pow_pos_nonneg; lia).
  assert (Hq : 0 <= q) by nia.
  split; [assumption|]. split; [assumption|].
  destruct (Z.eq_dec q 0) as [->|Hq0]; [cbn [Zdigits2]; lia|].
  pose proof (Zdigits2_lower m2 H2) as L2.
  pose proof (Zdigits2_gt m1 ltac:(lia)) as G1.
  pose proof (Zdigits2_nonneg m1) as N1.
  assert (0 < Zdigits2 m2) by (destruct m2; try lia; cbn; lia).
  assert (Hlt : 2 ^ (Zdigits2 m2 - 1) < 2 ^ (Zdigits2 m1 + s)).
  { rewrite (pow_split (Zdigits2 m1)) by lia. nia. }
  apply Z.pow_lt_mono_r_iff in Hlt; [|lia|lia].
  set (T := Zdigits2 m1 + s - Zdigits2 m2 + 1) in *.
  assert (HT : q < 2 ^ T).
  { assert (E : 2 ^ (Zdigits2 m1 + s) = 2 ^ T * 2 ^ (Zdigits2 m2 - 1)).
    { rewrite <- pow_split by (unfold T; lia). f_equal. unfold T. lia. }
    rewrite (pow_split (Zdigits2 m1)) in E by lia.
    assert (0 < 2 ^ (Zdigits2 m2 - 1)) by (apply Z.pow_pos_nonneg; lia).
    nia. }
  assert (Zdigits2 q <= T) by (apply Zdigits2_le; [lia|unfold T; lia|exact HT]).
  unfold T, s, D in *. lia.
Qed.

Lemma fdiv_within K L x y :
  within K x -> at_least L y -> -1075 <= K - L <= 1022 ->
  within (K - L + 2) (SFdiv prec emax x y).
Proof.
  intros Bx Ly HK. unfold within in *.
  destruct y as [sy|sy| |sy my ey]; simpl in Ly; try contradiction.
  destruct x as [sx|sx| |sx mx ex]; simpl in Bx; try contradiction.
  - reflexivity.
  - destruct Bx as (_ & Mx & Ex & Dx). unfold SFdiv.
    destruct (SFdiv_core_binary prec emax (Z.pos mx) ex (Z.pos my) ey)
      as [[mz ez] lz] eqn:E.
    apply div_core_within in E as (Hm & He & HD); try lia.
    cbn [Zdigits2] in He, HD.
    replace (K - L + 2) with (K - L + 1 + 1) by lia.
    apply round_aux_within; lia.
Qed.

Lemma shr_fexp_m m e l mrs e1 :
  0 <= m ->
  shr_fexp prec emax m e l = (mrs, e1) ->
  e1 = Z.max e (fexp prec emax (Zdigits2 m + e))
  /\ shr_m mrs = m / 2 ^ (e1 - e).
Proof.
  intros Hm. unfold shr_fexp, shr. rewrite fexp_binary64.
  set (D := Zdigits2 m + e) in *.
  destruct (Z.max (D - 53) (-1074) - e) as [|p|p] eqn:En; intros [= <- <-];
    rewrite ?shr_m_of_loc.
  - split; [lia|]. replace (e - e) with 0 by lia. now rewrite Z.div_1_r.
  - split; [lia|]. rewrite iter_shr_m by (rewrite shr_m_of_loc; assumption).
    rewrite shr_m_of_loc. do 2 f_equal. lia.
  - split; [lia|]. replace (e - e) with 0 by lia. now rewrite Z.div_1_r.
Qed.

(** Rounding a mantissa of 53 bits or more in the normal range gives a
    normal float. *)
Lemma binary_round_aux_normal mz ez l :
  0 < mz -> 53 <= Zdigits2 mz -> -1074 <= Zdigits2 mz + ez - 53 ->
  Zdigits2 mz + ez <= 1023 ->
  exists m3 e3,
    binary_round_aux prec emax false mz ez l = S754_finite false m3 e3
    /\ 2 ^ 52 <= Zpos m3 < 2 ^ 53 /\ Zdigits2 mz + ez - 53 <= e3.
Proof.
  intros Hmz Hd Hlo Hhi. unfold binary_round_aux.
  destruct (shr_fexp prec emax mz ez l) as [mrs1 e1] eqn:E1.
  pose proof (shr_fexp_m mz ez l mrs1 e1 ltac:(lia) E1) as [He1 Hm1].
  rewrite fexp_binary64 in He1.
  assert (He1' : e1 = Zdigits2 mz + ez - 53) by lia.
  pose proof (Zdigits2_lower mz Hmz) as Hl. pose proof (Zdigits2_gt mz ltac:(lia)) as Hg.
  set (k := e1 - ez) in *.
  assert (Hk : Zdigits2 mz = k + 53) by (unfold k; lia).
  assert (Pk : 0 < 2 ^ k) by (apply Z.pow_pos_nonneg; lia).
  rewrite Hk in Hl, Hg. replace (k + 53 - 1) with (k + 52) in Hl by lia.
  rewrite pow_split in Hl, Hg by lia.
  assert (Hq : 2 ^ 52 <= shr_m mrs1 < 2 ^ 53).
  { rewrite Hm1. split.
    - apply Z.div_le_lower_bound; lia.
    - apply Z.div_lt_upper_bound; lia. }
  pose proof (round_nearest_even_bounds (shr_m mrs1) (loc_of_shr_record mrs1)) as Hr.
  set (m2 := round_nearest_even (shr_m mrs1) (loc_of_shr_record mrs1)) in *.
  destruct (shr_fexp prec emax m2 e1 loc_Exact) as [mrs3 e3] eqn:E3.
  pose proof (shr_fexp_m m2 e1 loc_Exact mrs3 e3 ltac:(lia) E3) as [He3 Hm3].
  rewrite fexp_binary64 in He3.
  assert (Hov : forall e, e <= e1 + 1 -> (e <=? emax - prec) = true)
    by (intros; apply Z.leb_le; unfold emax, prec; lia).
  destruct (Z.eq_dec m2 (2 ^ 53)) as [Heq|Hne].
  - assert (Hd2 : Zdigits2 m2 = 54)
      by (apply Zdigits2_unique; [lia|]; rewrite Heq; cbn; lia).
    rewrite Hd2 in He3. assert (He3' : e3 = e1 + 1) by lia.
    assert (Hm3' : shr_m mrs3 = 2 ^ 52).
    { rewrite Hm3, Heq, He3'. replace (e1 + 1 - e1) with 1 by lia. reflexivity. }
    rewrite Hm3'. cbn -[Z.leb]. rewrite (Hov e3) by lia.
    eexists _, _. split; [reflexivity|]. cbn. lia.
  - assert (Hd2 : Zdigits2 m2 = 53)
      by (apply Zdigits2_unique; [lia|]; change (2 ^ (53 - 1)) with (2 ^ 52); lia).
    rewrite Hd2 in He3. assert (He3' : e3 = e1) by lia.
    assert (Hm3' : shr_m mrs3 = m2).
    { rewrite Hm3, He3'. replace (e1 - e1) with 0 by lia. now rewrite Z.div_1_r. }
    rewrite Hm3'. destruct m2 as [|p|p]; try lia.
    rewrite (Hov e3) by lia.
    eexists _, _. split; [reflexivity|]. split; lia.
Qed.

(** The quotient of two integers has 53 bits or more before it is rounded,
    when it is not below the normal range. *)
Lemma div_core_at_least (a b : positive) mz ez lz :
  -1021 <= Zdigits2 (Zpos a) - Zdigits2 (Zpos b) ->
  SFdiv_core_binary prec emax (Zpos a) 0 (Zpos b) 0 = (mz, ez, lz) ->
  0 < mz /\ 53 <= Zdigits2 mz
  /\ Zdigits2 (Zpos a) - Zdigits2 (Zpos b) <= Zdigits2 mz + ez.
Proof.
  intros HD. unfold SFdiv_core_binary. cbv zeta. rewrite fexp_binary64.
  set (D := Zdigits2 (Zpos a) + 0 - (Zdigits2 (Zpos b) + 0)).
  assert (HD' : D = Zdigits2 (Zpos a) - Zdigits2 (Zpos b)) by (unfold D; lia).
  set (e' := Z.min _ _).
  assert (He' : e' <= 0) by (unfold e'; apply Z.le_min_r).
  assert (Hf : e' <= D - 53) by (unfold e'; lia).
  set (m' := match 0 - 0 - e' with Z0 => _ | Zpos _ => _ | Zneg _ => _ end).
  assert (Hm' : m' = Zpos a * 2 ^ (- e')).
  { unfold m'. replace (0 - 0 - e') with (- e') by lia.
    destruct (- e') as [|p|p] eqn:E; try lia.
    rewrite Z.shiftl_mul_pow2 by lia. reflexivity. }
  pose proof (Z.div_eucl_eq m' (Zpos b) ltac:(lia)) as Hdiv.
  pose proof (Z.mod_pos_bound m' (Zpos b) ltac:(lia)) as Hmod.
  unfold Z.modulo in Hmod.
  destruct (Z.div_eucl m' (Zpos b)) as [q r]. intros [= <- <- <-].
  pose proof (Zdigits2_lower (Zpos a) ltac:(lia)) as La.
  pose proof (Zdigits2_gt (Zpos b) ltac:(lia)) as Gb.
  assert (0 < Zdigits2 (Zpos a)) by (cbn; lia).
  assert (0 < Zdigits2 (Zpos b)) by (cbn; lia).
  set (P := D - 1 - e') in *.
  assert (HP : 52 <= P) by (unfold P; lia).
  assert (H1 : 2 ^ P <= q).
  { assert (E : 2 ^ (Zdigits2 (Zpos a) - 1 + - e') = 2 ^ P * 2 ^ Zdigits2 (Zpos b)).
    { rewrite <- pow_split by lia. f_equal. unfold P. lia. }
    rewrite pow_split in E by lia.
    assert (0 < 2 ^ (- e')) by (apply Z.pow_pos_nonneg; lia).
    assert (0 < 2 ^ P) by (apply Z.pow_pos_nonneg; lia).
    assert (2 ^ P * Zpos b < m') by nia.
    nia. }
  assert (0 < 2 ^ P) by (apply Z.pow_pos_nonneg; lia).
  assert (Hq : 0 < q) by lia.
  pose proof (Zdigits2_gt q ltac:(lia)) as Gq.
  pose proof (Zdigits2_nonneg q) as Nq.
  assert (P + 1 <= Zdigits2 q).
  { destruct (Z.le_gt_cases (P + 1) (Zdigits2 q)); [assumption|exfalso].
    assert (2 ^ Zdigits2 q <= 2 ^ P) by (apply Z.pow_le_mono_r; lia). lia. }
  unfold P in *. repeat split; lia.
Qed.

Lemma truediv_int_at_least {S} (a b k : Z) (s : S) :
  0 < a < 2 ^ 1000 -> 0 < b < 2 ^ k -> 0 <= k <= 1021 ->
  exists f, truediv_int a b s = Ret f s /\ bounded 971 1001 f /\ at_least (1 - k) f.
Proof.
  intros Ha Hb Hk. unfold truediv_int.
  destruct (Z.eqb_spec b 0) as [|_]; [lia|].
  destruct b as [|pb|pb]; try lia. destruct a as [|pa|pa]; try lia.
  unfold exact, SFdiv.
  destruct (SFdiv_core_binary prec emax (Z.pos pa) 0 (Z.pos pb) 0)
    as [[mz ez] lz] eqn:E.
  pose proof (Zdigits2_le (Zpos pb) k ltac:(lia) ltac:(lia) ltac:(lia)) as Db.
  assert (0 < Zdigits2 (Zpos pa)) by (cbn; lia).
  pose proof E as E'.
  apply div_core_bounded with (k := 1000) in E as (Hm & He & HD); [|nia|lia].
  apply div_core_at_least in E' as (Pm & D53 & DL); [|lia].
  change (xorb false false) with false.
  pose proof (binary_round_aux_bounded mz ez lz 1000 Hm ltac:(lia) HD ltac:(lia)) as B.
  destruct (binary_round_aux_normal mz ez lz Pm D53 ltac:(lia) ltac:(lia))
    as (m3 & e3 & R & M3 & E3).
  rewrite R in *. eexists. split; [reflexivity|]. split; [exact B|].
  simpl. assert (Zdigits2 (Zpos m3) = 53)
    by (apply Zdigits2_unique; [lia|]; change (2 ^ (53 - 1)) with (2 ^ 52); lia).
  cbn [Zdigits2] in *. lia.
Qed.

Lemma min_one_at_least L q : at_least L q -> L <= 1 -> at_least L (PyFloat.min q one).
Proof.
  intros H HL. unfold PyFloat.min. destruct (fltb one q); [|assumption].
  simpl. lia.
Qed.

Lemma fmod_within K Kx L x y :
  within Kx x -> within K y -> at_least L y -> -1074 <= K <= 1023 ->
  within (K + 1) (fmod x y).
Proof.
  intros Bx By Ly HK. unfold within in *.
  destruct y as [sy|sy| |sy my ey]; simpl in Ly; try contradiction.
  destruct x as [sx|sx| |sx mx ex]; simpl in Bx; try contradiction.
  - simpl. reflexivity.
  - simpl in By. destruct By as (_ & My & Ey & Dy).
    unfold fmod. set (e := Z.min ex ey).
    assert (He1 : e <= ex) by lia.
    assert (He2 : e <= ey) by lia. clearbody e.
    assert (P : 0 < Z.pos my * 2 ^ (ey - e)).
    { assert (0 < 2 ^ (ey - e)) by (apply Z.pow_pos_nonneg; lia). nia. }
    pose proof (Z.mod_pos_bound (Z.pos mx * 2 ^ (ex - e)) _ P) as Hr.
    assert (U : Z.pos my * 2 ^ (ey - e) < 2 ^ (Z.pos (digits2_pos my) + (ey - e))).
    { pose proof (digits_gt my).
      assert (0 < 2 ^ (ey - e)) by (apply Z.pow_pos_nonneg; lia).
      rewrite pow_split by lia. nia. }
    set (r := (Z.pos mx * 2 ^ (ex - e)) mod (Z.pos my * 2 ^ (ey - e))) in *.
    assert (N : forall z, Z.abs z = r -> 0 < r ->
                within (K + 1) (binary_normalize prec emax z e false)).
    { intros z Hz Hpos. apply normalize_within; try lia.
      rewrite Hz.
      assert (Zdigits2 r <= Z.pos (digits2_pos my) + (ey - e))
        by (apply Zdigits2_le; lia).
      lia. }
    unfold within in N.
    destruct r as [|p|p] eqn:Er; [reflexivity| |lia].
    apply N; [destruct sx; lia|lia].
Qed.

Lemma ffloor_within K x : within K x -> 0 <= K <= 1021 -> within (K + 2) (ffloor x).
Proof.
  intros Bx HK.
  destruct x as [sx|sx| |sx m e]; try exact (within_weaken K (K + 2) _ ltac:(lia) Bx).
  unfold within in Bx. simpl in Bx. destruct Bx as (_ & M & He & HD).
  unfold ffloor.
  set (z := Z.shiftl (if sx then Z.neg m else Z.pos m) e).
  assert (Hz : Z.abs z <= 2 ^ K).
  { pose proof (digits_gt m) as G.
    assert (0 < 2 ^ K) by (apply Z.pow_pos_nonneg; lia).
    unfold z. destruct (Z.le_gt_cases 0 e).
    - rewrite Z.shiftl_mul_pow2 by lia.
      assert (0 < 2 ^ e) by (apply Z.pow_pos_nonneg; lia).
      assert (2 ^ (Z.pos (digits2_pos m) + e) <= 2 ^ K) by (apply Z.pow_le_mono_r; lia).
      rewrite pow_split in * by lia. destruct sx; nia.
    - rewrite Z.shiftl_div_pow2 by lia.
      assert (P : 0 < 2 ^ (- e)) by (apply Z.pow_pos_nonneg; lia).
      assert (Hm : Z.pos m < 2 ^ K * 2 ^ (- e)).
      { rewrite <- pow_split by lia.
        assert (2 ^ Z.pos (digits2_pos m) <= 2 ^ (K + - e))
          by (apply Z.pow_le_mono_r; lia).
        lia. }
      destruct sx.
      + assert (- 2 ^ K <= Z.neg m / 2 ^ (- e))
          by (apply Z.div_le_lower_bound; lia).
        assert (Z.neg m / 2 ^ (- e) <= 0)
          by (apply Z.div_le_upper_bound; lia).
        lia.
      + assert (0 <= Z.pos m / 2 ^ (- e)) by (apply Z.div_pos; lia).
        assert (Z.pos m / 2 ^ (- e) < 2 ^ K)
          by (apply Z.div_lt_upper_bound; lia).
        lia. }
  assert (N : z <> 0 -> within (K + 2) (nearest z)).
  { intros _. unfold nearest. replace (K + 2) with (K + 1 + 1) by lia.
    apply normalize_within; try lia.
    assert (Zdigits2 (Z.abs z) <= K + 1).
    { apply Zdigits2_le; [lia|lia|]. rewrite pow_split by lia. change (2 ^ 1) with 2. lia. }
    lia. }
  destruct z; [reflexivity|apply N; lia|apply N; lia].
Qed.

Lemma to_int_within {S} K x (s : S) :
  within K x -> exists z, to_int x s = Ret z s.
Proof.
  unfold within. destruct x; simpl; try contradiction; intros _; eexists; reflexivity.
Qed.

Lemma signed_zero_within K x : within K (signed_zero x).
Proof. destruct x; reflexivity. Qed.

Lemma sixty_within : within 6 LoadingBar_.sixty.
Proof. unfold within. simpl. repeat split; lia. Qed.

Lemma sixty_at_least : at_least 6 LoadingBar_.sixty.
Proof. simpl. lia. Qed.

Lemma one_within : within 1 one.
Proof. unfold within. simpl. repeat split; lia. Qed.

Lemma floordiv_sixty {S} K x (s : S) :
  within K x -> 7 <= K <= 1000 ->
  exists q, floordiv x LoadingBar_.sixty s = Ret q s /\ within (K + 8) q.
Proof.
  intros Bx HK. unfold floordiv.
  change LoadingBar_.sixty with (S754_finite false 8444249301319680 (-47)) at 1.
  cbv beta iota zeta.
  pose proof (fmod_within 6 K 6 x _ Bx sixty_within sixty_at_least ltac:(lia)) as Br.
  set (rem := fmod x LoadingBar_.sixty) in *.
  pose proof (fsub_within K x rem Bx (within_weaken 7 K _ ltac:(lia) Br) ltac:(lia))
    as Bd.
  pose proof (fdiv_within (K + 2) 6 _ _ Bd sixty_at_least ltac:(lia)) as Bq.
  apply (within_weaken _ (K + 2)) in Bq; [|lia].
  set (quo := SFdiv prec emax (fsub x rem) LoadingBar_.sixty) in *.
  assert (Bq1 : within (K + 2 + 2)
                  (if nonzero rem
                      && negb (Bool.eqb (fltb LoadingBar_.sixty zero) (fltb rem zero))
                   then fsub quo one else quo)).
  { destruct (_ && _).
    - apply (fsub_within (K + 2)); [exact Bq| |lia].
      apply (within_weaken 1); [lia|exact one_within].
    - apply (within_weaken (K + 2)); [lia|exact Bq]. }
  match goal with
  | |- context [if ?c then fsub quo one else quo] =>
      set (quo1 := if c then fsub quo one else quo) in *
  end.
  eexists. split; [reflexivity|].
  destruct (nonzero quo1); [|apply signed_zero_within].
  pose proof (ffloor_within _ _ Bq1 ltac:(lia)) as Bf.
  destruct (fltb half _).
  - apply (within_weaken (K + 2 + 2 + 2 + 2)); [lia|].
    apply (fadd_within (K + 2 + 2 + 2)); [exact Bf| |lia].
    apply (within_weaken 1); [lia|exact one_within].
  - apply (within_weaken (K + 2 + 2 + 2)); [lia|exact Bf].
Qed.

Lemma fmodulo_sixty {S} K x (s : S) :
  within K x ->
  exists r, fmodulo x LoadingBar_.sixty s = Ret r s /\ within 9 r.
Proof.
  intros Bx. unfold fmodulo.
  change LoadingBar_.sixty with (S754_finite false 8444249301319680 (-47)) at 1.
  cbv beta iota zeta.
  pose proof (fmod_within 6 K 6 x _ Bx sixty_within sixty_at_least ltac:(lia)) as Br.
  set (rem := fmod x LoadingBar_.sixty) in *.
  eexists. split; [reflexivity|].
  destruct (nonzero rem); [|apply signed_zero_within].
  destruct (negb _).
  - apply (fadd_within 7); [exact Br| |lia].
    apply (within_weaken 6); [lia|exact sixty_within].
  - apply (within_weaken 7); [lia|exact Br].
Qed.

Lemma format_time_returns {S} K x (s : S) :
  within K x -> K <= 1000 ->
  exists t, LoadingBar_._format_time x s = Ret t s.
Proof.
  intros Bx HK. unfold LoadingBar_._format_time.
  destruct (floordiv_sixty (Z.max K 7) x s
              (within_weaken K (Z.max K 7) _ ltac:(lia) Bx) ltac:(lia))
    as (q & Eq & Bq).
  unfold bind at 1. rewrite Eq.
  destruct (to_int_within _ q s Bq) as (minutes & Em).
  unfold bind at 1. rewrite Em.
  destruct (fmodulo_sixty K x s Bx) as (r & Er & Br).
  unfold bind at 1. rewrite Er.
  destruct (to_int_within _ r s Br) as (secs & Es).
  unfold bind at 1. rewrite Es.
  eexists. reflexivity.
Qed.

End Magnitude.

Section Bar.

Lemma fltb_zero_not_zero x : fltb zero x = true ->
  match x with S754_zero _ => False | _ => True end.
Proof. destruct x; simpl; trivial. discriminate. Qed.

Lemma hundred_bounded : bounded (-46) 7 hundred.
Proof. simpl. repeat split; lia. Qed.

Lemma cells_returns {S} c n (s : S) :
  - 2 ^ 63 <= n <= 2 ^ 46 ->
  LoadingBar_.cells c n s = Ret (repeat c (Z.to_nat n)) s.
Proof.
  intros Hn. unfold LoadingBar_.cells, LoadingBar_.max_cells.
  destruct (Z.ltb_spec n (- 2 ^ 63)); [lia|].
  destruct (Z.leb_spec (2 ^ 63) n); [lia|].
  destruct (Z.ltb_spec (2 ^ 46) n); [lia|].
  reflexivity.
Qed.

Lemma bar_cells_returns {S} w filled (s : S) :
  0 <= w <= 2 ^ 16 -> 0 <= filled < 2 ^ 20 ->
  LoadingBar_.bar_cells w filled s
  = Ret (repeat true (Z.to_nat filled) ++ repeat false (Z.to_nat (w - filled)))%list s.
Proof.
  intros Hw Hf. unfold LoadingBar_.bar_cells.
  unfold bind at 1. rewrite cells_returns by lia.
  unfold bind at 1. rewrite cells_returns by lia.
  rewrite !repeat_length. unfold LoadingBar_.max_cells.
  destruct (Z.ltb_spec (2 ^ 46) (Z.of_nat (Z.to_nat filled + Z.to_nat (w - filled))));
    [lia|reflexivity].
Qed.

Lemma wall_time_within x : wall_time x -> within 64 x.
Proof. intros H. now apply (bounded_within 971). Qed.

Lemma truediv_nonzero {S} x y (s : S) :
  match y with S754_zero _ => False | _ => True end ->
  truediv x y s = Ret (SFdiv prec emax x y) s.
Proof. unfold truediv. destruct y; try contradiction; reflexivity. Qed.

Lemma update_returns b now step step_title :
  drawable b -> wall_time now -> 0 <= step < 2 ^ 1000 ->
  exists l, LoadingBar_.update now step step_title b
            = Ret tt (drawn b step step_title l)
            /\ 0 <= line_percentage l
            /\ (step = 0 -> line_eta l = None /\ line_percentage l = 0
                            /\ line_filled_width l = 0).
Proof.
  intros ((Ht & Ht') & Hw & Hst) Hnow Hs. unfold LoadingBar_.update.
  unfold bind at 1. unfold LoadingBar_.set_step at 1. unfold modify at 1.
  unfold bind at 1. unfold get at 1. cbn [total_steps width title start_time].
  set (b1 := {| total_steps := total_steps b; current_step := step |}).
  pose proof (fsub_within 64 _ _ (wall_time_within _ Hnow) (wall_time_within _ Hst)
                ltac:(lia)) as Be.
  set (elapsed := fsub now (start_time b)) in *.
  destruct (format_time_returns (64 + 2) elapsed b1 Be ltac:(lia)) as (shown & Eshown).
  assert (Q : exists q, truediv_int step (total_steps b) b1 = Ret q b1
                /\ bounded 971 1001 q
                /\ (step = 0 -> q = zero)
                /\ (0 < step -> at_least (-63) q)).
  { destruct (Z.eq_dec step 0) as [->|Hne].
    - exists zero. unfold truediv_int.
      destruct (Z.eqb_spec (total_steps b) 0) as [|_]; [lia|].
      destruct (total_steps b); try lia.
      repeat split; try reflexivity; lia.
    - destruct (truediv_int_at_least step (total_steps b) 64 b1)
        as (q & Eq & Bq & Lq); try lia.
      exists q. split; [assumption|]. split; [assumption|].
      split; [intros; lia|intros; assumption]. }
  destruct Q as (q & Eq & Bq & Q0 & Q1).
  unfold bind at 1. rewrite Eq.
  pose proof (min_one_bounded _ _ _ Bq) as Bp.
  set (progress := PyFloat.min q one) in *.
  destruct (of_int_bounded (width b) 17 b1) as (w & Ew & Bw); try lia.
  unfold bind at 1. rewrite Ew.
  pose proof (fmul_bounded 971 (17 + 1) (-52) 1 _ _ Bw Bp ltac:(lia) ltac:(lia)) as Bf.
  destruct (to_int_bounded _ _ _ b1 Bf ltac:(lia)) as (filled & Ef & Hf).
  unfold bind at 1. rewrite Ef.
  unfold bind at 1. rewrite bar_cells_returns by lia.
  pose proof (fmul_bounded (-52) 1 (-46) 7 _ _ Bp hundred_bounded ltac:(lia) ltac:(lia)) as Bc.
  destruct (to_int_bounded _ _ _ b1 Bc ltac:(lia)) as (pct & Ep & Hp).
  unfold bind at 1. rewrite Ep.
  unfold bind at 1.
  destruct (fltb zero progress) eqn:Epos.
  - assert (Hpos : 0 < step).
    { destruct (Z.eq_dec step 0) as [Hz|]; [|lia]. exfalso.
      unfold progress in Epos. rewrite (Q0 Hz) in Epos. discriminate. }
    pose proof (fltb_zero_not_zero _ Epos) as Hnz.
    unfold bind at 1. rewrite (truediv_nonzero _ _ _ Hnz).
    pose proof (min_one_at_least _ _ (Q1 Hpos) ltac:(lia)) as Lp.
    fold progress in Lp.
    pose proof (fdiv_within (64 + 2) (-63) _ _ Be Lp ltac:(lia)) as Br.
    pose proof (fsub_within 1 one progress one_within
                  (bounded_within _ _ _ Bp ltac:(lia)) ltac:(lia)) as B1.
    pose proof (fmul_within _ _ _ _ Br B1 ltac:(lia) ltac:(lia)) as Beta.
    destruct (format_time_returns _ _ b1 Beta ltac:(lia)) as (t & Et).
    unfold bind at 1. rewrite Et.
    unfold ret at 1. cbv beta iota.
    unfold bind at 1. rewrite Eshown.
    eexists. split; [reflexivity|]. split; [simpl; lia|].
    intros ->. lia.
  - unfold ret at 1. unfold bind at 1. rewrite Eshown.
    eexists. split; [reflexivity|]. split; [simpl; lia|].
    intros Hz. simpl. split; [reflexivity|].
    revert Ef Ep. unfold progress. rewrite (Q0 Hz).
    simpl PyFloat.min. intros Ef Ep.
    assert (pct = 0) by (revert Ep; simpl; now intros [= <-]).
    split; [assumption|].
    revert Ef. destruct w as [sw|sw| |sw mw ew]; simpl in Bw; try contradiction;
      simpl; now intros [= <-].
Qed.

Lemma update_spec_eq b now step step_title :
  0 < total_steps b -> 0 <= step -> 0 <= width b ->
  LoadingBar_.update now step step_title b = update_spec now step step_title b.
Proof.
  intros Ht Hs Hw. unfold LoadingBar_.update, update_spec.
  unfold bind at 1. unfold LoadingBar_.set_step at 1. unfold modify at 1.
  unfold bind at 1. unfold get at 1.
  symmetry.
  unfold bind at 1. unfold LoadingBar_.set_step at 1. unfold modify at 1.
  unfold bind at 1. unfold get at 1.
  symmetry.
  cbn [total_steps width title start_time].
  set (b1 := {| total_steps := total_steps b; current_step := step |}).
  unfold bind at 1. symmetry. unfold bind at 1. symmetry.
  destruct (truediv_int step (total_steps b) b1) as [q s1|] eqn:Eq; [|reflexivity].
  apply truediv_int_sign in Eq as [Sq ->]; try lia.
  apply min_one_sign in Sq. set (progress := PyFloat.min q one) in *.
  unfold bind at 1. symmetry. unfold bind at 1. symmetry.
  destruct (of_int (width b) b1) as [w s2|] eqn:Ew; [|reflexivity].
  apply of_int_sign in Ew as [Sw ->]; try lia.
  rewrite <- (to_int_floor (fmul w progress)) by (apply fmul_sign; assumption).
  rewrite <- (to_int_floor (fmul progress hundred))
    by (apply fmul_sign; [assumption|reflexivity]).
  reflexivity.
Qed.

End Bar.

Section Clock.

Lemma within_bounded K x : within K x -> has_sign false x -> bounded 971 K x.
Proof.
  unfold within. destruct x as [s|s| |s m e]; simpl; tauto.
Qed.

Lemma fdiv_sign x y :
  has_sign false x -> has_sign false y -> has_sign false (SFdiv prec emax x y).
Proof.
  destruct x as [sx|sx| |sx mx ex], y as [sy|sy| |sy my ey]; simpl;
    intros; subst; trivial.
  destruct (SFdiv_core_binary _ _ _ _ _ _) as [[mz ez] lz].
  apply (binary_round_aux_sign false).
Qed.

Lemma seconds_wall_time t : wall_time (seconds t).
Proof.
  unfold wall_time, seconds. cbv zeta.
  pose proof (Z.mod_pos_bound t (2 ^ 63) ltac:(lia)) as H.
  set (ns := t mod 2 ^ 63) in *.
  assert (Bn : bounded 971 (63 + 1) (nearest ns)) by (apply nearest_bounded; lia).
  destruct (ns mod 10 ^ 9 =? 0).
  - apply (bounded_weaken 971 (63 + 1)); [lia|lia|].
    apply nearest_bounded; [|lia]. split; [apply Z.div_pos; lia|].
    apply Z.div_lt_upper_bound; lia.
  - apply within_bounded.
    + apply (within_weaken (63 + 1 - 30 + 2)); [lia|].
      apply fdiv_within; [|vm_compute; discriminate|lia].
      now apply (bounded_within 971).
    + apply fdiv_sign; [|reflexivity]. now apply bounded_sign in Bn.
Qed.

Lemma clock_wall_time w n : wall_time (clock w n).
Proof. apply seconds_wall_time. Qed.

End Clock.

(** ** The runner *)

Section Monad.
Context {S : Type}.

Lemma bind_Ret {A B} (m : M S A) (k : A -> M S B) s a s1 :
  m s = Ret a s1 -> bind m k s = k a s1.
Proof. intros H. unfold bind. now rewrite H. Qed.

Lemma bind_Exc {A B} (m : M S A) (k : A -> M S B) s e s1 :
  m s = Exc e s1 -> bind m k s = Exc e s1.
Proof. intros H. unfold bind. now rewrite H. Qed.

Lemma zoom_Ret {T A} (proj : S -> T) inj (m : M T A) s a t :
  m (proj s) = Ret a t -> zoom proj inj m s = Ret a (inj t s).
Proof. intros H. unfold zoom. now rewrite H. Qed.

Lemma try_Ret {A} (m : M S A) h s a s1 :
  m s = Ret a s1 -> try_except m h s = Ret a s1.
Proof. intros H. unfold try_except. now rewrite H. Qed.

Lemma try_Exc {A} (m : M S A) h s e s1 :
  m s = Exc e s1 -> try_except m h s = h e s1.
Proof. intros H. unfold try_except. now rewrite H. Qed.
End Monad.

Section Tui.

Lemma update_command_progress_returns now cmd ok t n :
  tui_ready n t -> wall_time now -> 1 <= n ->
  exists t',
    SimulationTUI_.update_command_progress now cmd ok t = Ret tt t'
    /\ tui_ready (n - 1) t'.
Proof.
  unfold tui_ready, SimulationTUI_.update_command_progress.
  intros R Hnow Hn.
  unfold bind at 1. unfold modify at 1. unfold bind at 1. unfold get at 1.
  cbn [loading_bar completed_commands total_commands current_feature].
  destruct (loading_bar t) as [b|] eqn:Eb.
  2:{ eexists. split; [reflexivity|]. exact I. }
  destruct R as (Ht & Hc & Hcn & Hd).
  set (t1 := {| loading_bar := Some b; completed_commands := completed_commands t + 1 |}).
  destruct (truediv_int_bounded (completed_commands t + 1) (total_commands t) 65 t1)
    as (q & Eq & Bq); try lia.
  unfold bind at 1. rewrite Eq.
  pose proof (fmul_bounded 971 (65 + 1) (-46) 7 _ _ Bq hundred_bounded
                ltac:(lia) ltac:(lia)) as Bp.
  destruct (to_int_bounded _ _ _ t1 Bp ltac:(lia)) as (step & Es & Hstep).
  unfold bind at 1. rewrite Es.
  assert (step < 2 ^ 1000).
  { assert (2 ^ (65 + 1 + 7 + 1) <= 2 ^ 1000) by (apply Z.pow_le_mono_r; lia). lia. }
  destruct (update_returns b now step
              (current_feature t ++ " (" ++ pretty (completed_commands t + 1)
                 ++ "/" ++ pretty (total_commands t) ++ ")") Hd Hnow ltac:(lia))
    as (l & El & _).
  unfold SimulationTUI_.on_bar.
  erewrite zoom_Ret by exact El.
  eexists. split; [reflexivity|]. simpl.
  split; [lia|]. split; [lia|]. split; [lia|exact Hd].
Qed.

End Tui.

(** *** What [run_command] does, without exceptions *)

Section Runner.

Variable w : World.

Lemma finish_returns r feat flag s n :
  ready n s -> 1 <= n ->
  exists v t u,
    Sim.finish w r feat flag s
    = Ret {| exec := r; validation := v |} (with_stats t u s)
    /\ sound t /\ tui_ready (n - 1) u.
Proof.
  intros [Hs Ht] Hn. unfold Sim.finish.
  destruct (validate_sound (command r) r feat _ Hs) as (v & t & Ev & St).
  assert (E1 : Sim.validate (command r) r feat s
               = Ret v (Sim.set_self (Sim.set_test_summary t (self s)) s)).
  { unfold Sim.validate, Sim.on_summary, Sim.on_self.
    erewrite zoom_Ret; [reflexivity|]. erewrite zoom_Ret; [reflexivity|exact Ev]. }
  erewrite bind_Ret by exact E1.
  set (s1 := Sim.set_self _ s).
  destruct (update_command_progress_returns
              (clock w (length (launched s1) + naps s1)) (command r) (flag v)
              (tui (self s)) n Ht (clock_wall_time _ _) Hn) as (u & Eu & Ru).
  assert (E2 : Sim.update_command_progress w (command r) (flag v) s1
               = Ret tt (Sim.set_self (Sim.set_tui u (self s1)) s1)).
  { unfold Sim.update_command_progress, Sim.now.
    unfold bind at 1. unfold bind at 1. unfold get at 1. unfold ret at 1.
    unfold Sim.on_tui, Sim.on_self.
    erewrite zoom_Ret; [reflexivity|]. erewrite zoom_Ret; [reflexivity|exact Eu]. }
  erewrite bind_Ret by exact E2.
  exists v, t, u. split; [reflexivity|]. split; assumption.
Qed.

Lemma probe_returns s :
  no_interrupt w ->
  Sim.validate_driftmgr_availability w s
  = Ret (probe_answer w (length (launched s))) (launch probe_argv s).
Proof.
  intros Hw. unfold Sim.validate_driftmgr_availability, Sim.subprocess_run,
    probe_answer, try_except, bind, get, modify, ret, probe_argv, launch.
  destruct (spawn w (length (launched s)) [ "driftmgr"; "--version" ] 10) as [rc out err|e] eqn:E.
  - reflexivity.
  - rewrite (Hw _ _ _ _ E). reflexivity.
Qed.

Lemma ready_frame n s s' :
  test_summary (self s') = test_summary (self s) ->
  tui (self s') = tui (self s) -> ready n s -> ready n s'.
Proof. unfold ready. now intros -> ->. Qed.

Lemma ready_after_probe n command s : ready n s -> ready n (after_probe w command s).
Proof.
  apply ready_frame; unfold after_probe; destruct (Sim.is_tool command);
    try reflexivity; destruct (_driftmgr_available (self s)); reflexivity.
Qed.

Lemma ready_reached n command s : ready n s -> ready n (reached w command s).
Proof.
  intros H. apply (ready_after_probe n command) in H. revert H.
  apply ready_frame; unfold reached;
    destruct (goes_ahead command (after_probe w command s)); reflexivity.
Qed.

(** The decision of the body: whether to skip, and the state then. *)
Lemma decision_returns command s :
  no_interrupt w ->
  (if Sim.is_tool command then
     bind get (fun s : State =>
       bind (match _driftmgr_available (self s) with
             | None => bind (Sim.validate_driftmgr_availability w)
                         (fun a => Sim.on_self (modify (Sim.set_available a)))
             | Some _ => ret tt
             end)
         (fun _ => bind get (fun s : State =>
            ret (match _driftmgr_available (self s) with
                 | Some false => true
                 | _ => false
                 end))))
   else ret false) s
  = Ret (negb (goes_ahead command (after_probe w command s)))
      (after_probe w command s).
Proof.
  intros Hw. unfold goes_ahead, after_probe.
  destruct (Sim.is_tool command); [|reflexivity].
  unfold bind at 1. unfold get at 1.
  destruct (_driftmgr_available (self s)) as [a|] eqn:Ec.
  - unfold bind at 1. unfold ret at 1. unfold bind at 1. unfold get at 1.
    rewrite Ec. unfold ret. destruct a; reflexivity.
  - unfold bind at 1. unfold bind at 1. rewrite (probe_returns s Hw).
    unfold Sim.on_self, zoom, modify. unfold bind at 1. unfold get at 1.
    cbn. unfold ret. destruct (probe_answer w (length (launched s))); reflexivity.
Qed.

Lemma run_command_spec command timeout feat s n :
  ready n s -> 1 <= n -> no_interrupt w ->
  exists v t u,
    Sim.run_command w command timeout feat s
    = Ret {| exec := expected_result w command timeout s; validation := v |}
        (with_stats t u (reached w command s))
    /\ sound t /\ tui_ready (n - 1) u.
Proof.
  intros Hr Hn Hw.
  pose proof (ready_after_probe n command s Hr) as R1.
  pose proof (ready_reached n command s Hr) as R2.
  unfold Sim.run_command, Sim.run_command_body.
  unfold expected_result, launch_outcome, reached in *.
  set (s1 := after_probe w command s) in *.
  assert (Estart : forall (B : Type) (k : float -> M State B),
             bind (Sim.now w) k s = k (clock w (length (launched s) + naps s)) s)
    by reflexivity.
  destruct (goes_ahead command s1) eqn:Ego.
  - (* launched *)
    destruct (spawn w (length (launched s1)) command timeout) as [rc out err|e] eqn:Esp.
    + destruct (finish_returns
                  {| command := join command; return_code := rc; stdout := out;
                     stderr := err;
                     duration := Float (fsub (clock w (length (launched (launch command s1)) + naps s))
                                             (clock w (length (launched s) + naps s)));
                     success := rc =? 0 |} feat test_passed _ n R2 Hn)
        as (v & t & u & Ef & St & Ru).
      exists v, t, u. split; [|split; assumption].
      apply try_Ret. rewrite Estart.
      erewrite bind_Ret by (apply decision_returns; assumption).
      fold s1. rewrite Ego. cbn [negb].
      unfold bind at 1. unfold Sim.subprocess_run at 1.
      unfold bind at 1. unfold get at 1. unfold bind at 1. unfold modify at 1.
      rewrite Esp. unfold ret at 1. fold (launch command s1).
      unfold bind at 1. unfold Sim.now at 1. unfold bind at 1. unfold get at 1.
      unfold ret at 1.
      replace (naps (launch command s1)) with (naps s)
        by (unfold s1, after_probe; destruct (Sim.is_tool command); try reflexivity;
            destruct (_driftmgr_available (self s)); reflexivity).
      exact Ef.
    + pose proof (Hw _ _ _ _ Esp) as Hexc.
      destruct (finish_returns (converted (join command) timeout e) feat
                  (fun _ => false) _ n R2 Hn) as (v & t & u & Ef & St & Ru).
      exists v, t, u. split; [|split; assumption].
      unfold try_except. rewrite Estart.
      erewrite bind_Ret by (apply decision_returns; assumption).
      fold s1. rewrite Ego. cbn [negb].
      unfold bind at 1. unfold Sim.subprocess_run at 1.
      unfold bind at 1. unfold get at 1. unfold bind at 1. unfold modify at 1.
      rewrite Esp. fold (launch command s1).
      revert Ef Hexc. unfold converted, is_Exception.
      destruct (exn_cls e); intros Ef Hexc; try exact Ef. discriminate.
  - (* skipped *)
    destruct (finish_returns (Sim.skipped (join command)) feat test_passed
                _ n R2 Hn) as (v & t & u & Ef & St & Ru).
    exists v, t, u. split; [|split; assumption].
    apply try_Ret. rewrite Estart.
    erewrite bind_Ret by (apply decision_returns; assumption).
    fold s1. rewrite Ego. cbn [negb]. exact Ef.
Qed.

End Runner.

(** C4. From a simulator whose statistics are sound and whose TUI is ready,
    and with no interruption by the operator, [run_command] returns for every
    command; when the launch of the command raised an exception (a timeout,
    an executable that was not found, any other [Exception]) the result has
    return code -1, success false and an empty stdout; after a timeout its
    duration is the timeout of the command and its stderr is
    "Command timed out"; otherwise its stderr carries the message of the
    exception. *)
Theorem run_command_converts_failures w command timeout feat s :
  ready 1 s -> no_interrupt w ->
  exists r s',
    Sim.run_command w command timeout feat s = Ret r s'
    /\ forall e, launch_outcome w command timeout s = Some (Failed e) ->
         return_code (exec r) = -1
         /\ success (exec r) = false
         /\ stdout (exec r) = ""
         /\ (exn_cls e = TimeoutExpired ->
             duration (exec r) = Int timeout
             /\ stderr (exec r) = "Command timed out")
         /\ (exn_cls e = FileNotFoundError ->
             stderr (exec r) = "Command not found: " ++ exn_msg e)
         /\ (exn_cls e <> TimeoutExpired -> exn_cls e <> FileNotFoundError ->
             stderr (exec r) = exn_msg e).
Proof.
  intros Hr Hw.
  destruct (run_command_spec w command timeout feat s 1 Hr ltac:(lia) Hw)
    as (v & t & u & E & _).
  eexists _, _. split; [exact E|].
  intros e He. cbn [exec]. unfold expected_result. rewrite He.
  unfold converted. destruct (exn_cls e); cbn; repeat split; congruence.
Qed.

Lemma slow_tool_no_interrupt : no_interrupt slow_tool.
Proof. intros [|n] argv t e; simpl; [discriminate|now intros [= <-]]. Qed.

Lemma boot_ready w n : ready n (Sim.boot w).
Proof.
  unfold Sim.boot, Sim.init, Sim.load_regions.
  destruct (region_files w) as [[[[? ?] ?] ?]|]; (split; [apply sound_empty|exact I]).
Qed.


(** ** The availability probe *)

Section Probe.

Variable w : World.

Lemma with_stats_ready n t u s : sound t -> tui_ready n u -> ready n (with_stats t u s).
Proof. intros; split; assumption. Qed.

Lemma ready_mono n m s : ready n s -> 0 <= m <= n -> ready m s.
Proof.
  intros [Hs Ht] Hm. split; [assumption|]. revert Ht. unfold tui_ready.
  destruct (loading_bar (tui (self s))); [|trivial]. intuition lia.
Qed.

Lemma probes_app l1 l2 : probes (l1 ++ l2) = (probes l1 + probes l2)%nat.
Proof. unfold probes. now rewrite filter_app, length_app. Qed.

Lemma probes_commands (cmds : list (list string * Z * string)) :
  Forall tool_command cmds -> probes (map (fun c => fst (fst c)) cmds) = 0%nat.
Proof.
  unfold probes. induction 1 as [|c cmds [_ Hc] _ IH]; [reflexivity|].
  cbn [map]. rewrite filter_cons_False by assumption. exact IH.
Qed.

(** A session that starts with the answer [a] in the cache. *)
Lemma run_commands_cached cmds : forall s n a,
  _driftmgr_available (self s) = Some a ->
  Forall tool_command cmds ->
  ready n s -> Z.of_nat (length cmds) <= n -> no_interrupt w ->
  exists rs s',
    run_commands w cmds s = Ret rs s'
    /\ _driftmgr_available (self s') = Some a
    /\ launched s' = (launched s ++ (if a then map (fun c => fst (fst c)) cmds else []))%list
    /\ (a = false ->
        map exec rs = map (fun c => Sim.skipped (join (fst (fst c)))) cmds).
Proof.
  induction cmds as [|[[command timeout] feat] cmds IH]; intros s n a Hc Hall Hr Hn Hw.
  - exists [], s. repeat split; try assumption.
    destruct a; now rewrite app_nil_r.
  - inversion Hall as [|? ? [Htool _] Hrest]; subst. cbn [fst] in Htool.
    cbn [length] in Hn.
    destruct (run_command_spec w command timeout feat s n Hr ltac:(lia) Hw)
      as (v & t & u & E & St & Ru).
    assert (Eprobe : after_probe w command s = s)
      by (unfold after_probe; now rewrite Htool, Hc).
    assert (Ego : goes_ahead command s = a)
      by (unfold goes_ahead; rewrite Htool, Hc; now destruct a).
    set (s1 := with_stats t u (reached w command s)) in *.
    assert (Hc1 : _driftmgr_available (self s1) = Some a).
    { unfold s1, reached. rewrite Eprobe, Ego. destruct a; exact Hc. }
    assert (Hl1 : launched s1 = (launched s ++ (if a then [ command ] else []))%list).
    { unfold s1, reached. rewrite Eprobe, Ego.
      destruct a; [reflexivity|now rewrite app_nil_r]. }
    destruct (IH s1 (n - 1) a Hc1 Hrest (with_stats_ready _ _ _ _ St Ru)
                ltac:(lia) Hw) as (rs & s' & Ers & Hc' & Hl' & Hsk).
    eexists _, s'. split; [|split; [exact Hc'|split]].
    + cbn [run_commands]. erewrite bind_Ret by exact E.
      erewrite bind_Ret by exact Ers. reflexivity.
    + rewrite Hl', Hl1, <- app_assoc. destruct a; reflexivity.
    + intros ->. cbn [map exec fst]. rewrite Hsk by reflexivity. f_equal.
      unfold expected_result, launch_outcome. now rewrite Eprobe, Ego.
Qed.

Lemma skipped_shape (cmds : list (list string * Z * string)) : forall rs,
  map exec rs = map (fun c => Sim.skipped (join (fst (fst c)))) cmds ->
  Forall (fun r => return_code (exec r) = -1 /\ stdout (exec r) = ""
                   /\ duration (exec r) = Int 0) rs.
Proof.
  induction cmds as [|c cmds IH]; intros [|r rs]; cbn [map]; intros H;
    try discriminate; constructor.
  - injection H as -> _. repeat split.
  - injection H as _ H. now apply IH.
Qed.

End Probe.

(** X14. For every sequence of commands of the tool given to [run_command] on
    a simulator that has not probed yet, the probe is launched exactly once,
    before the first command; its answer is stored and every later command
    uses it: all the commands are launched when it is true, none when it is
    false, and each result is then the synthesized one, with return code -1,
    an empty stdout and the duration 0. *)
Theorem probe_once_per_runner w cmds s n :
  _driftmgr_available (self s) = None -> probes (launched s) = 0%nat ->
  cmds <> [] -> Forall tool_command cmds ->
  ready n s -> Z.of_nat (length cmds) <= n -> no_interrupt w ->
  exists rs s',
    run_commands w cmds s = Ret rs s'
    /\ probes (launched s') = 1%nat
    /\ _driftmgr_available (self s') = Some (probe_answer w (length (launched s)))
    /\ launched s'
       = (launched s ++ probe_argv
            :: (if probe_answer w (length (launched s))
                then map (fun c => fst (fst c)) cmds else []))%list
    /\ (probe_answer w (length (launched s)) = false ->
        Forall (fun r => return_code (exec r) = -1 /\ stdout (exec r) = ""
                         /\ duration (exec r) = Int 0) rs
        /\ map exec rs = map (fun c => Sim.skipped (join (fst (fst c)))) cmds).
Proof.
  intros Hc Hp Hne Hall Hr Hn Hw.
  destruct cmds as [|[[command timeout] feat] cmds]; [congruence|clear Hne].
  inversion Hall as [|? ? [Htool Hnp] Hrest]; subst. cbn [fst] in Htool, Hnp.
  cbn [length] in Hn.
  set (a := probe_answer w (length (launched s))).
  destruct (run_command_spec w command timeout feat s n Hr ltac:(lia) Hw)
    as (v & t & u & E & St & Ru).
  assert (Eprobe : after_probe w command s
                   = Sim.set_self (Sim.set_available a (self s)) (launch probe_argv s))
    by (unfold after_probe; now rewrite Htool, Hc).
  assert (Ego : goes_ahead command (after_probe w command s) = a)
    by (rewrite Eprobe; unfold goes_ahead; rewrite Htool; cbn; now destruct a).
  set (s1 := with_stats t u (reached w command s)) in *.
  assert (Hc1 : _driftmgr_available (self s1) = Some a).
  { unfold s1, reached. rewrite Ego, Eprobe. destruct a; reflexivity. }
  assert (Hl1 : launched s1 = (launched s ++ probe_argv :: (if a then [ command ] else []))%list).
  { unfold s1, reached. rewrite Ego, Eprobe.
    destruct a; cbn; [now rewrite <- app_assoc|reflexivity]. }
  destruct (run_commands_cached w cmds s1 (n - 1) a Hc1 Hrest
              (with_stats_ready _ _ _ _ St Ru) ltac:(lia) Hw)
    as (rs & s' & Ers & Hc' & Hl' & Hsk).
  assert (Hl : launched s'
               = (launched s ++ probe_argv
                    :: (if a then map (fun c => fst (fst c))
                                    ((command, timeout, feat) :: cmds) else []))%list).
  { rewrite Hl', Hl1, <- app_assoc. destruct a; [reflexivity|now rewrite app_nil_r]. }
  assert (Hex : a = false ->
                map exec ({| exec := expected_result w command timeout s;
                             validation := v |} :: rs)
                = map (fun c => Sim.skipped (join (fst (fst c))))
                    ((command, timeout, feat) :: cmds)).
  { intros Ha. cbn [map exec fst]. rewrite Hsk by exact Ha. f_equal.
    unfold expected_result, launch_outcome. now rewrite Ego, Ha. }
  eexists _, s'. split; [|split; [|split; [exact Hc'|split; [exact Hl|]]]].
  - cbn [run_commands]. erewrite bind_Ret by exact E.
    erewrite bind_Ret by exact Ers. reflexivity.
  - rewrite Hl, probes_app, Hp. cbn [Nat.add].
    change (probe_argv :: ?l) with (([ probe_argv ] ++ l)%list).
    rewrite probes_app.
    replace (probes (if a then _ else [])) with 0%nat; [reflexivity|].
    destruct a; [|reflexivity]. symmetry. now apply probes_commands.
  - intros Ha. split; [|now apply Hex].
    eapply skipped_shape. now apply Hex.
Qed.

(** ** The session *)

Section Frame.

Variable w : World.


















Lemma initialize_returns now total t :
  SimulationTUI_.initialize_simulation now total t = Ret tt (initialised now total t).
Proof. reflexivity. Qed.

Lemma initialised_ready now total t :
  0 < total -> wall_time now -> tui_ready (2 ^ 64) (initialised now total t).
Proof.
  intros Ht Hnow. unfold tui_ready, drawable, initialised.
  cbn [loading_bar total_commands completed_commands total_steps width start_time].
  repeat split; try lia. exact Hnow.
Qed.

Lemma started_spec s :
  exists u,
    bind (Sim.now w) (fun t =>
      Sim.on_tui (SimulationTUI_.initialize_simulation t Sim.planned_commands)) s
    = Ret tt (Sim.set_self (Sim.set_tui u (self s)) s)
    /\ tui_ready (2 ^ 64) u.
Proof.
  unfold bind at 1. unfold Sim.now at 1. unfold bind at 1. unfold get, ret.
  pose proof (initialize_returns (clock w (length (launched s) + naps s))
                Sim.planned_commands (tui (self s))) as E.
  pose proof (initialised_ready (clock w (length (launched s) + naps s))
                Sim.planned_commands (tui (self s)) ltac:(reflexivity)
                (clock_wall_time _ _)) as R.
  eexists. split.
  - unfold Sim.on_tui, Sim.on_self.
    erewrite zoom_Ret; [reflexivity|]. erewrite zoom_Ret; [reflexivity|exact E].
  - exact R.
Qed.

End Frame.


(** ** Runs of the whole harness *)

Lemma tool_absent_no_interrupt : no_interrupt tool_absent.
Proof. intros n argv t e. simpl. now intros [= <-]. Qed.

(** X15. Called on a simulator that holds no result and has counted no test,
    which no session reaches, [generate_simulation_report] computes an overall
    success rate of 0 and writes the report file, then divides the count of
    successful commands by the count of commands, which is zero, for the log
    line of the command success rate: it raises [ZeroDivisionError] and
    returns no report. *)
Theorem report_without_results_divides_by_zero w s :
  simulation_results (self s) = [] ->
  total_tests (test_summary (self s)) = 0 ->
  exists r,
    Sim.generate_simulation_report w s
    = Exc (Exn ZeroDivisionError "division by zero")
        {| self := self s; launched := launched s; naps := naps s;
           report_file := Some r |}
    /\ overall_success_rate r = Int 0
    /\ info_total_commands (simulation_info r) = 0
    /\ detailed_results r = [].
Proof.
  destruct s as [[aws azure gcp dio results [t0 pt ft st fr] u av] l n f].
  cbn [self simulation_results test_summary total_tests]. intros -> ->.
  eexists; split; [lazy -[clock]; reflexivity|repeat split].
Qed.

(** C8. On a machine without the tool, [main] runs to its end, and the
    progress bar shows 100 percent for the last command of the second phase
    and 18 percent for the feature update of the third phase that follows
    it. *)
Theorem percentage_drops_between_phases :
  value_of (Sim.main tool_absent (Sim.boot tool_absent)) = Some 0
  /\ map (fun l => (line_step_title l, line_percentage l))
       (firstn 2 (skipn 98 (rendered (state_of (Sim.main tool_absent
                                                  (Sim.boot tool_absent))))))
     = [ ("State File Detection (97/201)", 100);
         ("Testing: Resource Discovery", 18) ].
Proof. vm_compute. split; reflexivity. Qed.



(** One run of [main] launches the probe twice: once for its own check, once
    from the first [run_command]. *)
Lemma main_probes_twice :
  value_of (Sim.main tool_absent (Sim.boot tool_absent)) = Some 0
  /\ probes (launched (state_of (Sim.main tool_absent (Sim.boot tool_absent))))
     = 2%nat.
Proof. vm_compute. split; reflexivity. Qed.

(** ** Witnesses *)

Lemma started_ready w s n :
  sound (test_summary (self s)) -> 0 <= n <= 2 ^ 64 -> ready n (started w s).
Proof.
  intros Hs Hn. destruct (started_spec w s) as (u & E & R).
  unfold started. rewrite E. cbn [state_of].
  apply ready_mono with (n := 2 ^ 64); [|lia]. split; assumption.
Qed.

Lemma run_command_converts_failures_witness :
  exists r s',
    Sim.run_command slow_tool [ "driftmgr"; "state"; "list" ] 90
      "state_file_detection" (started slow_tool (Sim.boot slow_tool)) = Ret r s'
    /\ return_code (exec r) = -1 /\ success (exec r) = false
    /\ stdout (exec r) = "" /\ duration (exec r) = Int 90
    /\ stderr (exec r) = "Command timed out".
Proof.
  destruct (run_command_converts_failures slow_tool [ "driftmgr"; "state"; "list" ]
              90 "state_file_detection" (started slow_tool (Sim.boot slow_tool))
              (started_ready slow_tool (Sim.boot slow_tool) 1 sound_empty ltac:(lia))
              slow_tool_no_interrupt)
    as (r & s' & E & H).
  exists r, s'. split; [exact E|].
  destruct (H (Exn TimeoutExpired "timed out") eq_refl) as (H1 & H2 & H3 & H4 & _).
  destruct (H4 eq_refl) as [H5 H6]. repeat split; assumption.
Defined.

Lemma probe_once_per_runner_witness :
  exists rs s',
    run_commands tool_absent credential_session (Sim.boot tool_absent) = Ret rs s'
    /\ probes (launched s') = 1%nat
    /\ _driftmgr_available (self s') = Some false
    /\ launched s' = [ probe_argv ]
    /\ Forall (fun r => return_code (exec r) = -1 /\ stdout (exec r) = ""
                        /\ duration (exec r) = Int 0) rs.
Proof.
  destruct (probe_once_per_runner tool_absent credential_session
              (Sim.boot tool_absent) 3) as (rs & s' & E & P & C & L & K).
  - reflexivity.
  - reflexivity.
  - discriminate.
  - repeat constructor; discriminate.
  - apply boot_ready.
  - simpl. lia.
  - apply tool_absent_no_interrupt.
  - exists rs, s'. repeat split; try assumption. apply (K eq_refl).
Defined.

(** A command of the error-handling phase that exits with 1 and an error on
    stderr is judged by the discovery rule, and fails. *)
Lemma error_category_not_error_rule :
  In [ "driftmgr"; "discover"; "invalid-provider" ] Sim.error_commands
  /\ missing_tool discover_invalid_provider = false
  /\ return_code discover_invalid_provider <> 0
  /\ stderr discover_invalid_provider <> ""
  /\ option_map test_passed
       (value_of (Validator.validate_command_result
                    (join [ "driftmgr"; "discover"; "invalid-provider" ])
                    discover_invalid_provider "error_handling"
                    Validator.empty_summary))
     = Some false.
Proof.
  split; [left; reflexivity|]. split; [reflexivity|].
  split; [discriminate|]. split; [discriminate|]. vm_compute. reflexivity.
Qed.

Lemma error_rule_verdict_witness :
  exists v t',
    Validator.validate_command_result "driftmgr invalid-command" invalid_command
      "error_handling" Validator.empty_summary = Ret v t'
    /\ test_passed v = true.
Proof.
  destruct (error_rule_verdict "driftmgr invalid-command" invalid_command
              "error_handling" Validator.empty_summary sound_empty
              eq_refl eq_refl eq_refl) as (v & t' & E & H).
  exists v, t'. split; [exact E|]. apply H.
  split; [discriminate|left; discriminate].
Defined.

Lemma rule_selected_by_command_text_witness :
  exists t',
    Validator.validate_command_result "driftmgr discover invalid-provider"
      discover_invalid_provider "error_handling" Validator.empty_summary
    = Ret (apply_rule Discovery discover_invalid_provider
             (Validator.initial "driftmgr discover invalid-provider"
                discover_invalid_provider)) t'
    /\ feature_results t' !! "resource_discovery" = None.
Proof.
  destruct (rule_selected_by_command_text "driftmgr discover invalid-provider"
              discover_invalid_provider "error_handling" Validator.empty_summary
              sound_empty eq_refl) as (t' & E & _ & _ & _ & _ & F).
  exists t'. split; [exact E|]. rewrite F by discriminate. reflexivity.
Defined.

(** C9. For every call [update(step, label)] on a bar with a positive total,
    with a step and a width that are not negative, [update] computes what the
    specification says: the fraction [min(step/total, 1.0)], the filled width
    [floor(width * fraction)], the percentage [floor(fraction * 100)], and
    the ETA [elapsed / fraction * (1 - fraction)] when the fraction is
    positive. On a bar that can be drawn (fewer than [2^64] steps, at most
    [2^16] cells, started at a time of the wall clock), at a time of the wall
    clock and with a step below [2^1000], the call returns: nothing is
    divided by zero and no exception is raised; for step 0 the line shows the
    placeholder in place of an ETA, with percentage 0 and an empty bar. *)
Theorem update_follows_specification b now step step_title :
  0 < total_steps b -> 0 <= step -> 0 <= width b ->
  LoadingBar_.update now step step_title b = update_spec now step step_title b
  /\ (drawable b -> wall_time now -> step < 2 ^ 1000 ->
      exists l,
        LoadingBar_.update now step step_title b
        = Ret tt (drawn b step step_title l)
        /\ (step = 0 -> line_eta l = None /\ line_percentage l = 0
                        /\ line_filled_width l = 0)).
Proof.
  intros Ht Hs Hw. split; [now apply update_spec_eq|].
  intros Hd Hnow Hs'.
  destruct (update_returns b now step step_title Hd Hnow ltac:(lia))
    as (l & E & _ & Z0).
  exists l. split; assumption.
Qed.

Lemma update_follows_specification_witness :
  LoadingBar_.update one 0 "Testing: Credential Auto-Detection" bar0
  = update_spec one 0 "Testing: Credential Auto-Detection" bar0
  /\ exists l,
       LoadingBar_.update one 0 "Testing: Credential Auto-Detection" bar0
       = Ret tt (drawn bar0 0 "Testing: Credential Auto-Detection" l)
       /\ line_eta l = None /\ line_percentage l = 0 /\ line_filled_width l = 0.
Proof.
  destruct (update_follows_specification bar0 one 0
              "Testing: Credential Auto-Detection")
    as [E R]; [reflexivity|reflexivity|discriminate|].
  split; [exact E|].
  destruct R as (l & El & Hz).
  - unfold drawable, wall_time. simpl. repeat split; lia || discriminate.
  - unfold wall_time. simpl. repeat split; lia.
  - reflexivity.
  - exists l. split; [exact El|]. apply Hz. reflexivity.
Defined.

(** The line of the third step of the bar of the harness, 754.25 seconds
    after its start: 13 of the 50 cells are filled, 27 percent, 12:34
    elapsed, and an ETA of 33:31. *)
Lemma third_step_line :
  LoadingBar_.update (SFdiv prec emax (nearest 3017) (nearest 4)) 3
    "Testing: Resource Discovery" bar0
  = Ret tt
      (drawn bar0 3 "Testing: Resource Discovery"
         {| line_title := "DriftMgr User Simulation";
            line_bar := repeat true 13 ++ repeat false 37;
            line_filled_width := 13; line_percentage := 27;
            line_elapsed := "12:34"; line_eta := Some "33:31";
            line_step_title := "Testing: Resource Discovery" |}).
Proof. vm_compute. reflexivity. Qed.

(** Beyond these bounds [update] raises. With [10^323] steps the fraction
    of step 1 is so small that the ETA is infinite, and [_format_time] cannot
    convert it to minutes; with [2^64] cells the bar cannot be drawn. *)
Lemma update_raises_out_of_range :
  (exists b, LoadingBar_.update one 1 "" (LoadingBar_.init zero (10 ^ 323) 50 "")
             = Exc (Exn ValueError "cannot convert float NaN to integer") b)
  /\ (exists b, LoadingBar_.update one 0 "" (LoadingBar_.init zero 11 (2 ^ 64) "")
                = Exc (Exn OverflowError
                         "cannot fit 'int' into an index-sized integer") b).
Proof. split; eexists; vm_compute; reflexivity. Qed.

(** For the step -1 on the bar of the harness, [update] shows a filled width
    of -4 and -9 percent, where rounding down gives -5 and -10. *)
Lemma negative_step_is_truncated :
  option_map (fun b => map (fun l => (line_filled_width l, line_percentage l)) (screen b))
    (Some (state_of (LoadingBar_.update zero (-1) "" bar0)))
  = Some [ (-4, -9) ]
  /\ option_map (fun b => map (fun l => (line_filled_width l, line_percentage l)) (screen b))
       (Some (state_of (update_spec zero (-1) "" bar0)))
     = Some [ (-5, -10) ]
  /\ LoadingBar_.update zero (-1) "" bar0 <> update_spec zero (-1) "" bar0.
Proof.
  split; [vm_compute; reflexivity|]. split; [vm_compute; reflexivity|].
  intros H. apply (f_equal (fun o => map line_filled_width (screen (state_of o)))) in H.
  vm_compute in H. discriminate.
Qed.

(** * Further properties of the harness *)

(** X10. [complete] never returns and never draws: it takes the lock of the
    bar and calls [update], which waits for the same lock; the bar is as it
    was, its lock held. [update] itself, called with the lock free, ends as
    the update of the fields does, and leaves the lock free also when it
    raises. *)
Theorem complete_waits_for_its_own_lock now message s :
  (exists s', Locked.complete now message s = Waits s' /\ bar s' = bar s
              /\ held s' = true)
  /\ (forall step step_title,
        held s = false ->
        Locked.update now step step_title s
        = unlocked (LoadingBar_.update now step step_title (bar s))).
Proof.
  split.
  - unfold Locked.complete, Locked.with_lock at 1.
    destruct (held s) eqn:Hs.
    + exists s. repeat split; assumption.
    + exists (Locked.set_held true s). unfold Locked.update, Locked.with_lock.
      cbn [Locked.set_held held]. repeat split.
  - intros step step_title Hs.
    unfold Locked.update, Locked.with_lock, Locked.on_fields. rewrite Hs.
    cbn [Locked.set_held bar held].
    destruct (LoadingBar_.update now step step_title (bar s)); reflexivity.
Qed.

Section Counting.

Lemma keeps_counts_bind {A B} (m : M SimulationTUI A) (k : A -> M SimulationTUI B) :
  keeps_counts m -> (forall a, keeps_counts (k a)) -> keeps_counts (bind m k).
Proof.
  intros Hm Hk t. unfold bind. specialize (Hm t).
  destruct (m t) as [a t1|e t1]; cbn [state_of] in *; [|exact Hm].
  destruct (Hk a t1) as [H1 H2]. destruct Hm as [H3 H4].
  split; congruence.
Qed.

Lemma keeps_counts_truediv_int a b : keeps_counts (truediv_int a b).
Proof.
  intros t. unfold truediv_int. destruct (b =? 0); [split; reflexivity|].
  destruct (SFdiv _ _ _ _); split; reflexivity.
Qed.

Lemma keeps_counts_to_int x : keeps_counts (to_int x).
Proof. intros t. destruct x; split; reflexivity. Qed.

Lemma keeps_counts_on_bar {A} b (m : M LoadingBar A) :
  keeps_counts (SimulationTUI_.on_bar b m).
Proof.
  intros t. unfold SimulationTUI_.on_bar, zoom. destruct (m b); split; reflexivity.
Qed.

Lemma update_command_progress_eq now command success t :
  SimulationTUI_.update_command_progress now command success t
  = match loading_bar t with
    | Some b =>
        (q <- truediv_int (completed_commands t + 1) (total_commands t) ;;
         step <- to_int (fmul q hundred) ;;
         SimulationTUI_.on_bar b
           (LoadingBar_.update now step
              (current_feature t ++ " (" ++ pretty (completed_commands t + 1)
                 ++ "/" ++ pretty (total_commands t) ++ ")")))
          (counted_command t)
    | None => Ret tt (counted_command t)
    end.
Proof. destruct t as [[b|] cf cc tot done]; reflexivity. Qed.

Lemma update_command_progress_counts now command success t :
  completed_commands
    (state_of (SimulationTUI_.update_command_progress now command success t))
  = completed_commands t + 1
  /\ total_commands
       (state_of (SimulationTUI_.update_command_progress now command success t))
     = total_commands t.
Proof.
  rewrite update_command_progress_eq.
  destruct (loading_bar t) as [b|]; [|split; reflexivity].
  match goal with
  | |- context [state_of (?m (counted_command t))] =>
      assert (H : keeps_counts m)
  end.
  { apply keeps_counts_bind; [apply keeps_counts_truediv_int|]. intros q.
    apply keeps_counts_bind; [apply keeps_counts_to_int|]. intros step.
    apply keeps_counts_on_bar. }
  exact (H (counted_command t)).
Qed.

End Counting.

(** X11. [update_command_progress] counts the command whether it returns or
    raises: [completed_commands] is one more and [total_commands] is as it
    was. Without a loading bar nothing else happens; with a loading bar and a
    total of 0 commands it raises [ZeroDivisionError] before it draws. *)
Theorem command_is_counted_even_when_drawing_fails now command success t :
  (completed_commands
     (state_of (SimulationTUI_.update_command_progress now command success t))
   = completed_commands t + 1
   /\ total_commands
        (state_of (SimulationTUI_.update_command_progress now command success t))
      = total_commands t)
  /\ (loading_bar t = None ->
      SimulationTUI_.update_command_progress now command success t
      = Ret tt (counted_command t))
  /\ (loading_bar t <> None -> total_commands t = 0 ->
      SimulationTUI_.update_command_progress now command success t
      = Exc (Exn ZeroDivisionError "division by zero") (counted_command t)).
Proof.
  split; [apply update_command_progress_counts|]. split.
  - intros Hb. rewrite update_command_progress_eq, Hb. reflexivity.
  - intros Hb Ht. rewrite update_command_progress_eq.
    destruct (loading_bar t) as [b|]; [|contradiction].
    unfold bind at 1. unfold truediv_int. rewrite Ht. reflexivity.
Qed.

Lemma apply_rule_shape r result v :
  validation_details v = [] -> test_passed v = false -> test_result v = "FAILED" ->
  let v' := apply_rule r result v in
  (test_passed v' = true /\ test_result v' = "PASSED"
   \/ test_passed v' = false /\ test_result v' = "FAILED")
  /\ length (validation_details v') = 1%nat
  /\ v_command v' = v_command v /\ v_success v' = v_success v
  /\ expected_behavior v' <> "" /\ actual_behavior v' = actual_behavior v.
Proof.
  intros Hd Hp Hr. unfold apply_rule, Validator.judge.
  destruct r;
    match goal with |- context [if ?c then _ else _] => destruct c end;
    cbn; rewrite ?Hd, ?Hp, ?Hr; cbn; repeat split; auto; discriminate.
Qed.

(** X1. From sound statistics every call of the validator returns a verdict
    that is well formed: the flag [test_passed] and the text [test_result]
    agree (true with "PASSED", false with "FAILED"), there is exactly one line
    of evidence, the verdict carries the command text and the success flag it
    was given, its expected behaviour is filled in, and its actual behaviour
    is filled in exactly when the missing-tool rule decided. *)
Theorem verdict_shape cmd result feat t :
  sound t ->
  exists v t',
    Validator.validate_command_result cmd result feat t = Ret v t'
    /\ (test_passed v = true /\ test_result v = "PASSED"
        \/ test_passed v = false /\ test_result v = "FAILED")
    /\ length (validation_details v) = 1%nat
    /\ v_command v = cmd /\ v_success v = success result
    /\ expected_behavior v <> ""
    /\ (actual_behavior v <> "" <-> missing_tool result = true).
Proof.
  intros St. destruct (missing_tool result) eqn:Hm.
  - exists (handled_gracefully cmd result), t.
    split.
    { unfold missing_tool, handled_gracefully, Validator.validate_command_result in *.
      destruct (Validator.missing_driftmgr result); [reflexivity|].
      simpl in Hm. now rewrite Hm. }
    unfold handled_gracefully. destruct (Validator.missing_driftmgr result); cbn;
      repeat split; auto; try discriminate.
  - destruct (validate_counted cmd result feat t St Hm) as (q & E).
    eexists _, _. split; [exact E|].
    rewrite by_command_type_first_match.
    destruct (apply_rule_shape (first_match cmd) result (Validator.initial cmd result)
                eq_refl eq_refl eq_refl) as (H1 & H2 & H3 & H4 & H5 & H6).
    repeat split; auto; rewrite ?H6; cbn; congruence.
Qed.

(** X2. A result with the success flag set, which the missing-tool rule does
    not catch, is PASSED by every rule of the chain but the error-handling
    rule, which fails it. *)
Theorem exit_zero_verdict cmd result feat t :
  sound t -> missing_tool result = false -> success result = true ->
  exists v t',
    Validator.validate_command_result cmd result feat t = Ret v t'
    /\ test_passed v = negb (is_error_rule (first_match cmd)).
Proof.
  intros St Hm Hs.
  destruct (validate_counted cmd result feat t St Hm) as (q & E).
  eexists _, _. split; [exact E|].
  rewrite by_command_type_first_match. unfold apply_rule, Validator.judge.
  rewrite Hs. destruct (first_match cmd); reflexivity.
Qed.

(** X3. A failed result with an empty stdout, which the missing-tool rule does
    not catch (a timeout or another exception of the launch, among others), is
    FAILED by every rule of the chain but the error-handling rule, which
    passes it when the stderr is not empty. *)
Theorem silent_failure_verdict cmd result feat t :
  sound t -> missing_tool result = false ->
  success result = false -> stdout result = "" ->
  exists v t',
    Validator.validate_command_result cmd result feat t = Ret v t'
    /\ test_passed v
       = is_error_rule (first_match cmd) && negb (String.eqb (stderr result) "").
Proof.
  intros St Hm Hs Ho.
  destruct (validate_counted cmd result feat t St Hm) as (q & E).
  eexists _, _. split; [exact E|].
  rewrite by_command_type_first_match. unfold apply_rule, Validator.judge.
  rewrite Hs, Ho. destruct (first_match cmd); cbn;
    try reflexivity.
  destruct (negb (String.eqb (stderr result) "")); reflexivity.
Qed.

Lemma truediv_int_state {S T} a b q (s : S) (s' : T) :
  truediv_int a b s = Ret q s -> truediv_int a b s' = Ret q s'.
Proof.
  unfold truediv_int. destruct (b =? 0); [discriminate|].
  destruct (SFdiv prec emax (exact a) (exact b)); try discriminate;
    unfold ret; intros [= <-]; reflexivity.
Qed.

Lemma validate_counted_rate cmd r feat t :
  sound t ->
  Validator.missing_driftmgr r || Validator.missing_executable r = false ->
  let v := Validator.by_command_type cmd r (Validator.initial cmd r) in
  let fs := one_more (test_passed v)
              (default Validator.fresh_stats (feature_results t !! feat)) in
  exists q, @truediv_int unit (passed fs) (total fs) tt = Ret q tt
            /\ 0 < total fs
            /\ Validator.validate_command_result cmd r feat t
               = Ret v (counted (test_passed v) feat q t).
Proof.
  intros St Hm v fs'. apply orb_false_elim in Hm as [Hd He].
  unfold Validator.validate_command_result. rewrite Hd, He. fold v.
  destruct St as ((Hs & Hf & Hsum) & Hpos).
  set (fs := default Validator.fresh_stats (feature_results t !! feat)) in *.
  assert (Hfs : total fs = passed fs + failed fs /\ 0 <= passed fs /\ 0 <= failed fs).
  { unfold fs. destruct (feature_results t !! feat) as [x|] eqn:E; simpl.
    - specialize (Hf _ _ E). specialize (Hpos _ _ E). lia.
    - lia. }
  set (t1 := Validator.count_feature (test_passed v) feat
               (Validator.count_test (test_passed v) t)).
  destruct (truediv_int_bounded (passed fs') (total fs') 1 t1) as (q & Hq & _);
    try (unfold fs', one_more; simpl; destruct (test_passed v); lia).
  exists q. split; [exact (truediv_int_state _ _ _ _ _ Hq)|].
  split; [unfold fs', one_more; simpl; lia|].
  unfold bind at 1. unfold modify at 1. unfold bind at 1. unfold modify at 1.
  fold t1. unfold bind at 1. unfold get at 1.
  assert (L : default Validator.fresh_stats (feature_results t1 !! feat) = fs').
  { unfold t1, Validator.count_feature, Validator.set_features, Validator.count_test.
    cbn [feature_results]. rewrite lookup_insert_eq. reflexivity. }
  rewrite L. unfold bind at 1. rewrite Hq. reflexivity.
Qed.

Lemma counted_in_sync ok feat q t :
  let fs := one_more ok (default Validator.fresh_stats (feature_results t !! feat)) in
  @truediv_int unit (passed fs) (total fs) tt = Ret q tt -> 0 < total fs ->
  rates_in_sync t -> rates_in_sync (counted ok feat q t).
Proof.
  intros fs Hq Ht Hin f x. unfold fs, one_more in Hq, Ht. cbn [total passed failed] in Hq, Ht.
  unfold counted, Validator.set_rate, Validator.count_feature, Validator.set_features,
    Validator.count_test.
  cbn [feature_results]. rewrite lookup_insert_eq, insert_insert_eq. cbn [default].
  rewrite lookup_insert. case_decide.
  - intros [= <-]. unfold in_sync. cbn [total passed success_rate].
    split; [exact Ht|]. exists q. split; [exact Hq|reflexivity].
  - apply Hin.
Qed.

Lemma validate_all_in_sync calls : forall t,
  sound t -> rates_in_sync t ->
  exists t', validate_all calls t = Ret tt t' /\ sound t' /\ rates_in_sync t'.
Proof.
  induction calls as [|[[cmd r] feat] calls IH]; intros t St Hin.
  - exists t. split; [reflexivity|split; assumption].
  - assert (exists v t1, Validator.validate_command_result cmd r feat t = Ret v t1
                         /\ sound t1 /\ rates_in_sync t1) as (v & t1 & E & St1 & Hin1).
    { destruct (Validator.missing_driftmgr r || Validator.missing_executable r) eqn:Hm.
      - destruct (validate_missing_tool cmd r feat t Hm) as (v & E & _). eauto.
      - destruct (validate_counted_rate cmd r feat t St Hm) as (q & Hq & Ht & E).
        eexists _, _. split; [exact E|]. split; [now apply counted_sound|].
        now apply counted_in_sync. }
    destruct (IH t1 St1 Hin1) as (t' & E' & St' & Hin').
    exists t'. split; [|split; assumption].
    unfold validate_all in *. cbn [for_each]. unfold bind at 1. unfold bind at 1.
    rewrite E. unfold ret at 1. exact E'.
Qed.

(** X4. Whatever calls the validator receives from the empty statistics, every
    feature entry it leaves has counted at least one test, and its success
    rate is the one its counters give: [passed / total * 100], in floating
    point. *)
Theorem rates_follow_counters (calls : list (string * ExecResult * string)) :
  exists t, validate_all calls Validator.empty_summary = Ret tt t
            /\ forall f fs, feature_results t !! f = Some fs ->
                 0 < total fs
                 /\ exists q, @truediv_int unit (passed fs) (total fs) tt = Ret q tt
                              /\ success_rate fs = fmul q hundred.
Proof.
  destruct (validate_all_in_sync calls _ sound_empty) as (t & E & _ & H).
  - intros f fs H. cbn [Validator.empty_summary feature_results] in H.
    rewrite lookup_empty in H. discriminate.
  - exists t. split; [exact E|exact H].
Qed.

Section Positive.

Lemma shr_fexp_pos m e l mrs e1 :
  0 < m -> -1074 < Zdigits2 m + e ->
  shr_fexp prec emax m e l = (mrs, e1) -> 0 < shr_m mrs.
Proof.
  intros Hm HD. unfold shr_fexp, shr. rewrite fexp_binary64.
  pose proof (Zdigits2_lower m Hm) as Hl.
  set (D := Zdigits2 m + e) in *.
  destruct (Z.max (D - 53) (-1074) - e) as [|p|p] eqn:En; intros [= <- <-];
    rewrite ?shr_m_of_loc; try assumption.
  rewrite iter_shr_m by (rewrite shr_m_of_loc; lia). rewrite shr_m_of_loc.
  assert (Hp : Z.pos p <= Zdigits2 m - 1) by lia.
  assert (2 ^ Z.pos p <= 2 ^ (Zdigits2 m - 1)) by (apply Z.pow_le_mono_r; lia).
  assert (0 < 2 ^ Z.pos p) by (apply Z.pow_pos_nonneg; lia).
  apply Z.div_str_pos. lia.
Qed.

Lemma binary_round_aux_pos m e l :
  0 < m -> -1074 < Zdigits2 m + e ->
  match binary_round_aux prec emax false m e l with
  | S754_zero _ => False
  | _ => True
  end.
Proof.
  intros Hm HD. unfold binary_round_aux.
  destruct (shr_fexp prec emax m e l) as [mrs1 e1] eqn:E1.
  pose proof (shr_fexp_pos _ _ _ _ _ Hm HD E1) as P1.
  apply shr_fexp_spec in E1 as (Hm1 & He1 & HD1); [|lia].
  pose proof (round_nearest_even_bounds (shr_m mrs1) (loc_of_shr_record mrs1)) as Hr.
  set (m2 := round_nearest_even (shr_m mrs1) (loc_of_shr_record mrs1)) in *.
  destruct (shr_fexp prec emax m2 e1 loc_Exact) as [mrs3 e3] eqn:E3.
  assert (P3 : 0 < shr_m mrs3).
  { apply (shr_fexp_pos m2 e1 loc_Exact mrs3 e3); [lia| |assumption].
    rewrite fexp_binary64 in He1.
    assert (0 < Zdigits2 m2).
    { destruct m2; try lia. cbn. lia. }
    lia. }
  destruct (shr_m mrs3); try lia.
  destruct (e3 <=? emax - prec); exact I.
Qed.

Lemma of_int_pos {S} z k (s : S) :
  0 < z < 2 ^ k -> 0 <= k <= 1022 ->
  exists m e, of_int z s = Ret (S754_finite false m e) s.
Proof.
  intros Hz Hk. pose proof (nearest_bounded z k ltac:(lia) Hk) as B.
  assert (P : match nearest z with S754_zero _ => False | _ => True end).
  { unfold nearest, binary_normalize. destruct z as [|m|m]; try lia.
    unfold binary_round.
    destruct (shl_align m 0 (fexp prec emax (Z.pos (digits2_pos m) + 0))) as [mz ez] eqn:A.
    unfold shl_align in A. rewrite fexp_binary64 in A.
    destruct (Z.max (Z.pos (digits2_pos m) + 0 - 53) (-1074) - 0) as [|d|d] eqn:Ed;
      injection A as <- <-; apply binary_round_aux_pos; cbn [Zdigits2]; lia. }
  unfold of_int. destruct (nearest z) as [sz|sz| |sz m e]; cbn in B, P;
    try contradiction.
  destruct B as (-> & _). eexists _, _. reflexivity.
Qed.

End Positive.

Section Dict.

Lemma lookup_store_eq k v d :
  Sim.lookup_summary k (Sim.store_summary k v d) = Some v.
Proof.
  induction d as [|[k' v'] d IH]; cbn.
  - now rewrite String.eqb_refl.
  - destruct (String.eqb_spec k k') as [->|Hne]; cbn.
    + now rewrite String.eqb_refl.
    + destruct (String.eqb_spec k k'); [contradiction|exact IH].
Qed.

Lemma lookup_store_ne k k' v d :
  k' <> k -> Sim.lookup_summary k' (Sim.store_summary k v d) = Sim.lookup_summary k' d.
Proof.
  intros Hne. induction d as [|[k1 v1] d IH]; cbn.
  - destruct (String.eqb_spec k' k); [contradiction|reflexivity].
  - destruct (String.eqb_spec k k1) as [->|H1]; cbn.
    + destruct (String.eqb_spec k' k1); [contradiction|reflexivity].
    + destruct (String.eqb_spec k' k1); [reflexivity|exact IH].
Qed.

Lemma lookup_None_keys k d :
  Sim.lookup_summary k d = None <-> ~ List.In k (keys d).
Proof.
  induction d as [|[k' v'] d IH]; cbn.
  - tauto.
  - destruct (String.eqb_spec k k') as [->|Hne].
    + split; [discriminate|]. intros H. exfalso. apply H. now left.
    + rewrite IH. intuition congruence.
Qed.

Lemma keys_store k v d :
  keys (Sim.store_summary k v d)
  = match Sim.lookup_summary k d with
    | Some _ => keys d
    | None => (keys d ++ [ k ])%list
    end.
Proof.
  unfold keys. induction d as [|[k' v'] d IH]; cbn; [reflexivity|].
  destruct (String.eqb_spec k k') as [->|Hne]; cbn; [reflexivity|].
  rewrite IH. destruct (Sim.lookup_summary k d); reflexivity.
Qed.

Lemma NoDup_keys_store k v d :
  List.NoDup (keys d) -> List.NoDup (keys (Sim.store_summary k v d)).
Proof.
  intros H. rewrite keys_store.
  destruct (Sim.lookup_summary k d) eqn:E; [assumption|].
  apply lookup_None_keys in E.
  apply List.NoDup_rev in H. rewrite <- (List.rev_involutive (keys d ++ [k])).
  apply List.NoDup_rev. rewrite List.rev_app_distr. cbn.
  constructor; [|assumption]. intros Hin. apply E. now apply List.in_rev.
Qed.

Lemma sum_commands_store k v d :
  sum_commands (Sim.store_summary k v d)
  = sum_commands d + fs_total_commands v
    - fs_total_commands (default Sim.fresh_summary (Sim.lookup_summary k d)).
Proof.
  induction d as [|[k' v'] d IH]; cbn; [lia|].
  destruct (String.eqb_spec k k') as [->|Hne]; cbn; [lia|].
  unfold sum_commands in IH. rewrite IH. lia.
Qed.

Lemma sum_successful_store k v d :
  sum_successful (Sim.store_summary k v d)
  = sum_successful d + fs_successful_commands v
    - fs_successful_commands (default Sim.fresh_summary (Sim.lookup_summary k d)).
Proof.
  induction d as [|[k' v'] d IH]; cbn; [lia|].
  destruct (String.eqb_spec k k') as [->|Hne]; cbn; [lia|].
  unfold sum_successful in IH. rewrite IH. lia.
Qed.

End Dict.

Section Numbers.

Lemma pow_le_1000 k : 0 <= k <= 1000 -> 2 ^ k <= 2 ^ 1000.
Proof. intros. apply Z.pow_le_mono_r; lia. Qed.

Lemma num_add_small {S} B C a b (s : S) :
  small B a -> small C b -> 0 <= B -> 0 <= C -> B + C < 2 ^ 1000 ->
  exists c, Sim.num_add a b s = Ret c s /\ small (B + C) c.
Proof.
  intros Ha Hb HB HC HBC. destruct a as [x|x], b as [y|y]; cbn in *.
  - eexists; split; [reflexivity|]. cbn. lia.
  - destruct (of_int_bounded x 1000 s) as (f & E & _); try lia.
    unfold bind. rewrite E. eexists; split; [reflexivity|exact I].
  - destruct (of_int_bounded y 1000 s) as (f & E & _); try lia.
    unfold bind. rewrite E. eexists; split; [reflexivity|exact I].
  - eexists; split; [reflexivity|exact I].
Qed.

End Numbers.

Section Tally.

Lemma count_successful_app l1 l2 :
  Sim.count_successful (l1 ++ l2) = Sim.count_successful l1 + Sim.count_successful l2.
Proof. unfold Sim.count_successful. rewrite filter_app, length_app. lia. Qed.

Lemma count_successful_one r :
  Sim.count_successful [ r ] = if success (exec (result r)) then 1 else 0.
Proof.
  unfold Sim.count_successful. rewrite filter_cons.
  destruct (success (exec (result r))); case_decide; try congruence; reflexivity.
Qed.

Lemma count_successful_bounds l :
  0 <= Sim.count_successful l <= Z.of_nat (length l).
Proof.
  unfold Sim.count_successful.
  pose proof (length_filter (fun r => success (exec (result r)) = true) l). lia.
Qed.

Lemma of_feature_snoc k l r :
  of_feature k (l ++ [ r ])
  = (of_feature k l ++ if decide (feature r = k) then [ r ] else [])%list.
Proof.
  unfold of_feature. rewrite filter_app. f_equal.
Qed.

Lemma small_weaken B C x : B <= C -> small B x -> small C x.
Proof. destruct x; cbn; [lia|trivial]. Qed.

Lemma tallied_nil : tallied [] [].
Proof.
  split; [constructor|]. split; [reflexivity|]. split; [reflexivity|].
  intros k. reflexivity.
Qed.

Lemma tallied_step l0 d r dur :
  tallied l0 d ->
  small ((Z.of_nat (length l0) + 1) * 2 ^ 64) dur ->
  tallied (l0 ++ [ r ])
    (Sim.store_summary (feature r)
       (tally_entry r dur (default Sim.fresh_summary (Sim.lookup_summary (feature r) d)))
       d).
Proof.
  intros (Hnd & Hsum & Hsucc & Hk) Hdur.
  pose proof (Hk (feature r)) as Hr.
  set (old := default Sim.fresh_summary (Sim.lookup_summary (feature r) d)) in *.
  assert (Hold : fs_total_commands old = Z.of_nat (length (of_feature (feature r) l0))
                 /\ fs_successful_commands old
                    = Sim.count_successful (of_feature (feature r) l0)
                 /\ fs_failed_commands old
                    = fs_total_commands old - fs_successful_commands old
                 /\ test_success_rate old = zero).
  { unfold old. destruct (Sim.lookup_summary (feature r) d) as [fs|]; cbn.
    - tauto.
    - rewrite Hr. repeat split. }
  destruct Hold as (Ht & Hs & Hf & Hz).
  split; [now apply NoDup_keys_store|].
  split; [|split].
  - rewrite sum_commands_store. fold old. cbn. rewrite length_app. cbn. lia.
  - rewrite sum_successful_store. fold old. cbn.
    rewrite count_successful_app, count_successful_one.
    destruct (success (exec (result r))); lia.
  - intros k. rewrite of_feature_snoc.
    destruct (decide (feature r = k)) as [<-|Hne].
    + rewrite lookup_store_eq. cbn [tally_entry fs_total_commands
        fs_successful_commands fs_failed_commands fs_total_duration
        test_success_rate].
      rewrite length_app, count_successful_app, count_successful_one. cbn [length].
      rewrite length_app. cbn [length].
      repeat split; try (destruct (success (exec (result r))); lia);
        try exact Hz.
      replace (Z.of_nat (length l0 + 1)) with (Z.of_nat (length l0) + 1) by lia.
      exact Hdur.
    + rewrite lookup_store_ne by congruence. rewrite app_nil_r.
      specialize (Hk k). destruct (Sim.lookup_summary k d) as [fs|]; [|exact Hk].
      destruct Hk as (H1 & H2 & H3 & H4 & H5 & H6). repeat split; try assumption.
      eapply small_weaken; [|exact H5]. rewrite length_app. cbn. lia.
Qed.

Lemma tally_spec {S} l : forall l0 d (s : S),
  tallied l0 d -> tame l ->
  Z.of_nat (length l0 + length l) < 2 ^ 64 ->
  exists d', Sim.tally d l s = Ret d' s /\ tallied (l0 ++ l) d'.
Proof.
  induction l as [|r l IH]; intros l0 d s Hd Ht Hlen.
  - exists d. rewrite app_nil_r. split; [reflexivity|assumption].
  - inversion Ht as [|? ? Hr Hl]; subst. cbn [length] in Hlen.
    pose proof (proj2 (proj2 (proj2 Hd)) (feature r)) as Hk.
    set (old := default Sim.fresh_summary (Sim.lookup_summary (feature r) d)) in *.
    assert (Hold : small (Z.of_nat (length l0) * 2 ^ 64) (fs_total_duration old)).
    { unfold old. destruct (Sim.lookup_summary (feature r) d); cbn; [tauto|lia]. }
    assert (P64 : 2 ^ 64 * 2 ^ 64 < 2 ^ 1000).
    { rewrite <- Z.pow_add_r by lia. apply Z.pow_lt_mono_r; lia. }
    assert (P0 : 0 < 2 ^ 64) by lia.
    destruct (num_add_small (Z.of_nat (length l0) * 2 ^ 64) (2 ^ 64)
                (fs_total_duration old) (duration (exec (result r))) s Hold Hr)
      as (dur & Ed & Hdur); try nia.
    destruct (IH (l0 ++ [ r ])%list
                (Sim.store_summary (feature r) (tally_entry r dur old) d) s)
      as (d' & E & Hd').
    + apply tallied_step; [assumption|].
      eapply small_weaken; [|exact Hdur]. lia.
    + assumption.
    + rewrite length_app. cbn [length]. lia.
    + exists d'. rewrite <- app_assoc in Hd'. split; [|exact Hd'].
      cbn [Sim.tally]. fold old. unfold bind at 1. rewrite Ed. exact E.
Qed.

End Tally.

Section Averages.

Lemma of_int_state {S T} z f (s : S) (s' : T) :
  of_int z s = Ret f s -> of_int z s' = Ret f s'.
Proof.
  unfold of_int. destruct (nearest z); try discriminate;
    unfold ret; intros [= <-]; reflexivity.
Qed.

Lemma truediv_state {S T} x y f (s : S) (s' : T) :
  truediv x y s = Ret f s -> truediv x y s' = Ret f s'.
Proof.
  unfold truediv. destruct y; try discriminate;
    unfold ret; intros [= <-]; reflexivity.
Qed.

Lemma num_div_int_returns {S} a d (s : S) :
  small (2 ^ 128) a -> 0 < d < 2 ^ 64 ->
  exists x, Sim.num_div_int a d s = Ret x s
            /\ @Sim.num_div_int unit a d tt = Ret x tt.
Proof.
  intros Ha Hd. destruct a as [z|y]; cbn in *.
  - assert (0 < 2 ^ 129) by (apply Z.pow_pos_nonneg; lia).
    assert (2 ^ 128 < 2 ^ 129) by (apply Z.pow_lt_mono_r; lia).
    destruct (truediv_int_bounded z d 129 s) as (x & E & _); try lia; try nia.
    exists x. split; [exact E|]. exact (truediv_int_state _ _ _ _ _ E).
  - destruct (of_int_pos d 64 s) as (m & e & E); try lia.
    unfold bind. rewrite E, (of_int_state _ _ _ tt E).
    eexists. split; reflexivity.
Qed.

Lemma averages_spec {S} t d : forall (s : S),
  Forall (fun kv => 0 < fs_total_commands (snd kv) < 2 ^ 64
                    /\ small (2 ^ 128) (fs_total_duration (snd kv))) d ->
  exists d',
    Sim.averages t d s = Ret d' s
    /\ Forall2 (fun kv kv' => fst kv' = fst kv
                              /\ averaged t (fst kv) (snd kv) (snd kv')) d d'.
Proof.
  induction d as [|[k v] d IH]; intros s Hd.
  - exists []. split; [reflexivity|constructor].
  - inversion Hd as [|? ? [Hc Hs] Hrest]; subst. cbn [snd] in Hc, Hs.
    destruct (num_div_int_returns (fs_total_duration v) (fs_total_commands v) s Hs Hc)
      as (x & Ex & Eu).
    destruct (IH s Hrest) as (d' & E & F).
    eexists. split.
    + cbn [Sim.averages].
      destruct (Z.ltb_spec 0 (fs_total_commands v)) as [_|]; [|lia].
      unfold bind at 1. unfold bind at 1. rewrite Ex. unfold ret at 1.
      unfold bind at 1. rewrite E. reflexivity.
    + constructor; [|exact F]. cbn [fst snd]. split; [reflexivity|].
      unfold averaged. cbn. repeat split. exists x. split; [exact Eu|reflexivity].
Qed.

Lemma averaged_keys t d d' :
  Forall2 (fun kv kv' => fst kv' = fst kv
                         /\ averaged t (fst kv) (snd kv) (snd kv')) d d' ->
  keys d' = keys d /\ sum_commands d' = sum_commands d
  /\ sum_successful d' = sum_successful d.
Proof.
  induction 1 as [|[k v] [k' v'] d d' [Hk Ha] _ IH]; [repeat split|].
  destruct IH as (I1 & I2 & I3). destruct Ha as (A1 & A2 & _).
  cbn in *. subst. unfold keys in I1. rewrite I1.
  unfold sum_commands in I2. unfold sum_successful in I3. rewrite I2, I3, A1, A2.
  repeat split.
Qed.

Lemma averaged_In t d d' k v' :
  Forall2 (fun kv kv' => fst kv' = fst kv
                         /\ averaged t (fst kv) (snd kv) (snd kv')) d d' ->
  List.In (k, v') d' -> exists v, List.In (k, v) d /\ averaged t k v v'.
Proof.
  induction 1 as [|[k1 v1] [k1' v1'] d d' [Hk Ha] _ IH]; cbn; [tauto|].
  intros [[= -> ->]|Hin].
  - cbn in Hk, Ha. subst. exists v1. split; [now left|exact Ha].
  - destruct (IH Hin) as (v & Hv & Hav). exists v. split; [now right|exact Hav].
Qed.

Lemma NoDup_lookup k v d :
  List.NoDup (keys d) -> List.In (k, v) d -> Sim.lookup_summary k d = Some v.
Proof.
  induction d as [|[k1 v1] d IH]; cbn; [tauto|].
  intros Hnd [[= -> ->]|Hin].
  - now rewrite String.eqb_refl.
  - inversion Hnd as [|? ? Hnotin Hnd']; subst.
    destruct (String.eqb_spec k k1) as [->|Hne].
    + exfalso. apply Hnotin. unfold keys. change k1 with (fst (k1, v)).
      now apply List.in_map.
    + now apply IH.
Qed.

Lemma sum_durations_spec {S} l : forall B acc (s : S),
  small B acc -> tame l -> 0 <= B ->
  B + Z.of_nat (length l) * 2 ^ 64 < 2 ^ 1000 ->
  exists c, Sim.sum_durations acc l s = Ret c s.
Proof.
  induction l as [|r l IH]; intros B acc s Ha Ht HB Hlen.
  - exists acc. reflexivity.
  - inversion Ht as [|? ? Hr Hl]; subst. cbn [length] in Hlen.
    destruct (num_add_small B (2 ^ 64) acc (duration (exec (result r))) s Ha Hr)
      as (c & E & Hc); try lia.
    destruct (IH (B + 2 ^ 64) c s Hc Hl) as (c' & E'); try lia.
    exists c'. cbn [Sim.sum_durations]. unfold bind. rewrite E. exact E'.
Qed.

End Averages.

Section ReportSpec.

Variable w : World.

Lemma tallied_entries l d :
  tallied l d -> Z.of_nat (length l) < 2 ^ 64 ->
  Forall (fun kv => 0 < fs_total_commands (snd kv) < 2 ^ 64
                    /\ small (2 ^ 128) (fs_total_duration (snd kv))
                    /\ 0 <= fs_successful_commands (snd kv)
                         <= fs_total_commands (snd kv)) d.
Proof.
  intros (Hnd & _ & _ & Hk) Hlen. apply List.Forall_forall. intros [k v] Hin.
  pose proof (NoDup_lookup k v d Hnd Hin) as E. specialize (Hk k).
  rewrite E in Hk. destruct Hk as (H1 & H2 & H3 & H4 & H5 & _). cbn [snd].
  pose proof (length_filter (fun r => feature r = k) l) as Hf. fold (of_feature k l) in Hf.
  pose proof (count_successful_bounds (of_feature k l)) as Hb.
  assert (P : 2 ^ 64 * 2 ^ 64 = 2 ^ 128) by (rewrite <- Z.pow_add_r by lia; reflexivity).
  repeat split; try lia.
  eapply small_weaken; [|exact H5]. nia.
Qed.

Lemma feature_lines_return (d : list (string * FeatureSummary)) : forall s : State,
  Forall (fun kv => 0 < fs_total_commands (snd kv) < 2 ^ 64
                    /\ 0 <= fs_successful_commands (snd kv)
                         <= fs_total_commands (snd kv)) d ->
  for_each d (fun kv =>
    if 0 <? fs_total_commands (snd kv)
    then bind (truediv_int (fs_successful_commands (snd kv))
                 (fs_total_commands (snd kv))) (fun _ => ret tt)
    else ret tt) s = Ret tt s.
Proof.
  induction d as [|kv d IH]; intros s Hd; [reflexivity|].
  inversion Hd as [|? ? [Hc Hs] Hrest]; subst.
  cbn [for_each].
  destruct (truediv_int_bounded (fs_successful_commands (snd kv))
              (fs_total_commands (snd kv)) 1 s) as (q & E & _); try lia.
  destruct (0 <? fs_total_commands (snd kv)).
  - unfold bind at 1. unfold bind at 1. rewrite E. unfold ret at 1. now apply IH.
  - unfold bind at 1. unfold ret at 1. now apply IH.
Qed.

Lemma report_spec s :
  simulation_results (self s) <> [] ->
  tame (simulation_results (self s)) ->
  Z.of_nat (length (simulation_results (self s))) < 2 ^ 64 ->
  0 <= passed_tests (test_summary (self s)) <= total_tests (test_summary (self s)) ->
  exists r d,
    Sim.generate_simulation_report w s = Ret r (filed r s)
    /\ detailed_results r = simulation_results (self s)
    /\ report_test_summary r = test_summary (self s)
    /\ info_total_commands (simulation_info r)
       = Z.of_nat (length (simulation_results (self s)))
    /\ info_successful_commands (simulation_info r)
       = Sim.count_successful (simulation_results (self s))
    /\ info_failed_commands (simulation_info r)
       = info_total_commands (simulation_info r)
         - info_successful_commands (simulation_info r)
    /\ (total_tests (test_summary (self s)) = 0 -> overall_success_rate r = Int 0)
    /\ (0 < total_tests (test_summary (self s)) ->
        exists q, @truediv_int unit (passed_tests (test_summary (self s)))
                    (total_tests (test_summary (self s))) tt = Ret q tt
                  /\ overall_success_rate r = Float (fmul q hundred))
    /\ tallied (simulation_results (self s)) d
    /\ Forall2 (fun kv kv' => fst kv' = fst kv
                  /\ averaged (test_summary (self s)) (fst kv) (snd kv) (snd kv'))
         d (feature_summary r).
Proof.
  intros Hne Htame Hlen Hpass.
  set (results := simulation_results (self s)) in *.
  set (summary := test_summary (self s)) in *.
  assert (P64 : 2 ^ 64 * 2 ^ 64 < 2 ^ 1000).
  { rewrite <- Z.pow_add_r by lia. apply Z.pow_lt_mono_r; lia. }
  assert (P0 : 0 < 2 ^ 64) by lia.
  destruct (sum_durations_spec results 0 (Int 0) s) as (total_duration & Edur);
    [cbn; lia|assumption|lia|nia|].
  assert (exists rate,
    (if 0 <? total_tests summary
     then bind (truediv_int (passed_tests summary) (total_tests summary))
            (fun q => ret (Float (fmul q hundred)))
     else ret (Int 0)) s = Ret rate s
    /\ (total_tests summary = 0 -> rate = Int 0)
    /\ (0 < total_tests summary ->
        exists q, @truediv_int unit (passed_tests summary) (total_tests summary) tt
                  = Ret q tt /\ rate = Float (fmul q hundred)))
    as (rate & Erate & Hr0 & Hr1).
  { destruct (Z.ltb_spec 0 (total_tests summary)) as [Hpos|Hnpos].
    - destruct (truediv_int_bounded (passed_tests summary) (total_tests summary) 1 s)
        as (q & E & _); try lia.
      eexists. split; [unfold bind; rewrite E; reflexivity|].
      split; [lia|]. intros _. exists q.
      split; [exact (truediv_int_state _ _ _ _ _ E)|reflexivity].
    - exists (Int 0). split; [reflexivity|]. split; [reflexivity|lia]. }
  destruct (tally_spec results [] [] s tallied_nil Htame) as (d & Etally & Hd);
    [cbn [length app]; lia|].
  cbn [app] in Hd.
  pose proof (tallied_entries results d Hd Hlen) as Hent.
  destruct (averages_spec summary d s) as (d' & Eavg & F).
  { eapply List.Forall_impl; [|exact Hent]. cbn. tauto. }
  destruct (averaged_keys _ _ _ F) as (K1 & K2 & K3).
  set (r := {| simulation_info :=
                 {| info_timestamp := clock w (length (launched s) + naps s);
                    info_total_commands := Z.of_nat (length results);
                    info_duration := total_duration;
                    info_successful_commands := Sim.count_successful results;
                    info_failed_commands :=
                      Z.of_nat (length results) - Sim.count_successful results |};
               report_test_summary := summary;
               overall_success_rate := rate;
               feature_summary := d';
               detailed_results := results |}).
  exists r, d.
  split; [|do 5 (split; [reflexivity|]);
            split; [exact Hr0|split; [exact Hr1|split; [exact Hd|exact F]]]].
  unfold Sim.generate_simulation_report.
  unfold bind at 1. unfold get at 1. fold results. fold summary.
  unfold bind at 1. rewrite Edur.
  unfold bind at 1. rewrite Erate.
  unfold bind at 1. unfold Sim.now at 1. unfold bind at 1. unfold get at 1.
  unfold ret at 1.
  unfold bind at 1. rewrite Etally.
  unfold bind at 1. rewrite Eavg.
  fold r.
  unfold bind at 1. unfold Sim.write_report at 1. unfold modify at 1.
  fold (filed r s).
  pose proof (count_successful_bounds results) as Hb.
  assert (0 < Z.of_nat (length results)) by (destruct results; [congruence|cbn; lia]).
  destruct (truediv_int_bounded (Sim.count_successful results)
              (Z.of_nat (length results)) 1 (filed r s)) as (q & E & _); try lia.
  unfold bind at 1. rewrite E.
  unfold bind at 1. rewrite feature_lines_return; [reflexivity|].
  clear - F Hent.
  induction F as [|[k v] [k' v'] d d' [Hk Ha] _ IH]; [constructor|].
  inversion Hent as [|? ? Hv Hrest]; subst.
  destruct Ha as (A1 & A2 & _). constructor; [|now apply IH].
  cbn [snd] in *. rewrite A1, A2. tauto.
Qed.

End ReportSpec.

Section ReportFacts.

Lemma lookup_Some_In k v d : Sim.lookup_summary k d = Some v -> List.In (k, v) d.
Proof.
  induction d as [|[k1 v1] d IH]; cbn; [discriminate|].
  destruct (String.eqb_spec k k1) as [->|Hne].
  - intros [= ->]. now left.
  - intros H. right. now apply IH.
Qed.

Lemma averaged_In_fwd t d d' k v :
  Forall2 (fun kv kv' => fst kv' = fst kv
                         /\ averaged t (fst kv) (snd kv) (snd kv')) d d' ->
  List.In (k, v) d -> exists v', List.In (k, v') d'.
Proof.
  induction 1 as [|[k1 v1] [k1' v1'] d d' [Hk Ha] _ IH]; cbn; [tauto|].
  intros [[= -> ->]|Hin].
  - cbn in Hk. subst. exists v1'. now left.
  - destruct (IH Hin) as (v' & Hv). exists v'. now right.
Qed.

End ReportFacts.

(** X5. The report when commands were run: with at least one result, [int]
    durations below [2^64] and test counters in order,
    [generate_simulation_report] returns the report and has written it to the
    report file; the report carries the results and the statistics of the
    simulator, its command counts are those of the results, and its overall
    success rate is [passed / total * 100] of the tests, or the integer 0 when
    no test was counted. *)
Theorem report_is_written_when_commands_ran w s :
  simulation_results (self s) <> [] ->
  tame (simulation_results (self s)) ->
  Z.of_nat (length (simulation_results (self s))) < 2 ^ 64 ->
  0 <= passed_tests (test_summary (self s)) <= total_tests (test_summary (self s)) ->
  exists r,
    Sim.generate_simulation_report w s = Ret r (filed r s)
    /\ detailed_results r = simulation_results (self s)
    /\ report_test_summary r = test_summary (self s)
    /\ info_total_commands (simulation_info r)
       = Z.of_nat (length (simulation_results (self s)))
    /\ info_successful_commands (simulation_info r)
       = Sim.count_successful (simulation_results (self s))
    /\ info_total_commands (simulation_info r)
       = info_successful_commands (simulation_info r)
         + info_failed_commands (simulation_info r)
    /\ 0 <= info_successful_commands (simulation_info r)
    /\ 0 <= info_failed_commands (simulation_info r)
    /\ (total_tests (test_summary (self s)) = 0 -> overall_success_rate r = Int 0)
    /\ (0 < total_tests (test_summary (self s)) ->
        exists q, @truediv_int unit (passed_tests (test_summary (self s)))
                    (total_tests (test_summary (self s))) tt = Ret q tt
                  /\ overall_success_rate r = Float (fmul q hundred)).
Proof.
  intros Hne Htame Hlen Hpass.
  destruct (report_spec w s Hne Htame Hlen Hpass)
    as (r & d & E & H1 & H2 & H3 & H4 & H5 & H6 & H7 & _).
  pose proof (count_successful_bounds (simulation_results (self s))) as Hb.
  exists r. repeat split; try assumption; lia.
Qed.

(** X6. The feature summary of the report: one entry for each feature that has
    results, and no other; the entry counts the results of its feature, the
    successful ones and the others; its average duration is the total duration
    divided by the count; its test success rate is the validator's for the
    feature, and 0.0 when the validator has no entry for it. The counts of the
    entries add up to the counts of the report. *)
Theorem feature_summary_counts_the_results w s :
  simulation_results (self s) <> [] ->
  tame (simulation_results (self s)) ->
  Z.of_nat (length (simulation_results (self s))) < 2 ^ 64 ->
  0 <= passed_tests (test_summary (self s)) <= total_tests (test_summary (self s)) ->
  exists r,
    Sim.generate_simulation_report w s = Ret r (filed r s)
    /\ List.NoDup (keys (feature_summary r))
    /\ (forall k, List.In k (keys (feature_summary r))
                  <-> of_feature k (simulation_results (self s)) <> [])
    /\ sum_commands (feature_summary r) = info_total_commands (simulation_info r)
    /\ sum_successful (feature_summary r)
       = info_successful_commands (simulation_info r)
    /\ forall k fs, List.In (k, fs) (feature_summary r) ->
         fs_total_commands fs
         = Z.of_nat (length (of_feature k (simulation_results (self s))))
         /\ fs_successful_commands fs
            = Sim.count_successful (of_feature k (simulation_results (self s)))
         /\ fs_total_commands fs = fs_successful_commands fs + fs_failed_commands fs
         /\ (exists x, @Sim.num_div_int unit (fs_total_duration fs)
                         (fs_total_commands fs) tt = Ret x tt
                       /\ avg_duration fs = Float x)
         /\ test_success_rate fs
            = match feature_results (test_summary (self s)) !! k with
              | Some st => success_rate st
              | None => zero
              end.
Proof.
  intros Hne Htame Hlen Hpass.
  destruct (report_spec w s Hne Htame Hlen Hpass)
    as (r & d & E & H1 & H2 & H3 & H4 & H5 & H6 & H7 & Hd & F).
  destruct (averaged_keys _ _ _ F) as (K1 & K2 & K3).
  destruct Hd as (Hnd & Hsum & Hsucc & Hk).
  exists r. split; [exact E|]. split; [now rewrite K1|].
  split; [|split; [|split]].
  - intros k. rewrite K1. specialize (Hk k). split.
    + intros Hin Hnil.
      destruct (Sim.lookup_summary k d) as [fs|] eqn:El.
      * destruct Hk as (Hpos & Hcount & _). rewrite Hnil in Hcount. cbn in Hcount. lia.
      * apply lookup_None_keys in El. contradiction.
    + intros Hnn. destruct (Sim.lookup_summary k d) as [fs|] eqn:El; [|contradiction].
      apply lookup_Some_In in El. unfold keys.
      change k with (fst (k, fs)). now apply List.in_map.
  - rewrite K2, H3. exact Hsum.
  - rewrite K3, H4. exact Hsucc.
  - intros k fs Hin.
    destruct (averaged_In _ _ _ _ _ F Hin) as (v & Hv & A1 & A2 & A3 & A4 & A5 & A6).
    pose proof (NoDup_lookup k v d Hnd Hv) as El. specialize (Hk k).
    rewrite El in Hk. destruct Hk as (P1 & P2 & P3 & P4 & P5 & P6).
    destruct A5 as (x & Ex & Ea).
    rewrite A1, A2, A3, A4, A6, P6.
    split; [assumption|]. split; [assumption|]. split; [lia|].
    split; [exists x; split; assumption|reflexivity].
Qed.

Section Session.

Variable w : World.
Hypothesis Hw : no_interrupt w.
Hypothesis Hcalm : calm w.

Lemma finish_exact r feat flag s n :
  ready n s -> 1 <= n ->
  exists v t u,
    Sim.finish w r feat flag s
    = Ret {| exec := r; validation := v |} (with_stats t u s)
    /\ Validator.validate_command_result (command r) r feat (test_summary (self s))
       = Ret v t
    /\ sound t /\ tui_ready (n - 1) u
    /\ completed_commands u = completed_commands (tui (self s)) + 1
    /\ total_commands u = total_commands (tui (self s)).
Proof.
  intros [Hs Ht] Hn. unfold Sim.finish.
  destruct (validate_sound (command r) r feat _ Hs) as (v & t & Ev & St).
  assert (E1 : Sim.validate (command r) r feat s
               = Ret v (Sim.set_self (Sim.set_test_summary t (self s)) s)).
  { unfold Sim.validate, Sim.on_summary, Sim.on_self.
    erewrite zoom_Ret; [reflexivity|]. erewrite zoom_Ret; [reflexivity|exact Ev]. }
  erewrite bind_Ret by exact E1.
  set (s1 := Sim.set_self _ s).
  destruct (update_command_progress_returns
              (clock w (length (launched s1) + naps s1)) (command r) (flag v)
              (tui (self s)) n Ht (clock_wall_time _ _) Hn) as (u & Eu & Ru).
  assert (E2 : Sim.update_command_progress w (command r) (flag v) s1
               = Ret tt (Sim.set_self (Sim.set_tui u (self s1)) s1)).
  { unfold Sim.update_command_progress, Sim.now.
    unfold bind at 1. unfold bind at 1. unfold get at 1. unfold ret at 1.
    unfold Sim.on_tui, Sim.on_self.
    erewrite zoom_Ret; [reflexivity|]. erewrite zoom_Ret; [reflexivity|exact Eu]. }
  erewrite bind_Ret by exact E2.
  destruct (update_command_progress_counts
              (clock w (length (launched s1) + naps s1)) (command r) (flag v)
              (tui (self s))) as [Hc Htot].
  rewrite Eu in Hc, Htot. cbn [state_of] in Hc, Htot.
  exists v, t, u. split; [reflexivity|]. split; [exact Ev|].
  split; [exact St|]. split; [exact Ru|]. split; assumption.
Qed.

Lemma expected_command argv timeout s :
  command (expected_result w argv timeout s) = join argv.
Proof.
  unfold expected_result. destruct (launch_outcome w argv timeout s) as [[rc out err|e]|];
    try reflexivity.
  unfold converted. destruct (exn_cls e); reflexivity.
Qed.

Lemma run_command_exact command timeout feat s n :
  ready n s -> 1 <= n ->
  exists v t u,
    Sim.run_command w command timeout feat s
    = Ret {| exec := expected_result w command timeout s; validation := v |}
        (with_stats t u (reached w command s))
    /\ Validator.validate_command_result (join command)
         (expected_result w command timeout s) feat (test_summary (self s))
       = Ret v t
    /\ sound t /\ tui_ready (n - 1) u
    /\ completed_commands u = completed_commands (tui (self s)) + 1
    /\ total_commands u = total_commands (tui (self s)).
Proof.
  intros Hr Hn.
  pose proof (ready_after_probe w n command s Hr) as R1.
  pose proof (ready_reached w n command s Hr) as R2.
  assert (Hts : test_summary (self (reached w command s)) = test_summary (self s)).
  { unfold reached, after_probe.
    destruct (Sim.is_tool command); [destruct (_driftmgr_available (self s))|];
      cbn; match goal with |- context [if ?c then _ else _] => destruct c end;
      reflexivity. }
  assert (Htui : tui (self (reached w command s)) = tui (self s)).
  { unfold reached, after_probe.
    destruct (Sim.is_tool command); [destruct (_driftmgr_available (self s))|];
      cbn; match goal with |- context [if ?c then _ else _] => destruct c end;
      reflexivity. }
  pose proof (expected_command command timeout s) as Hcmd.
  unfold Sim.run_command, Sim.run_command_body.
  unfold expected_result, launch_outcome, reached in *.
  set (s1 := after_probe w command s) in *.
  assert (Estart : forall (B : Type) (k : float -> M State B),
             bind (Sim.now w) k s = k (clock w (length (launched s) + naps s)) s)
    by reflexivity.
  destruct (goes_ahead command s1) eqn:Ego.
  - destruct (spawn w (length (launched s1)) command timeout) as [rc out err|e] eqn:Esp.
    + destruct (finish_exact
                  {| command := join command; return_code := rc; stdout := out;
                     stderr := err;
                     duration := Float (fsub (clock w (length (launched (launch command s1)) + naps s))
                                             (clock w (length (launched s) + naps s)));
                     success := rc =? 0 |} feat test_passed _ n R2 Hn)
        as (v & t & u & Ef & Ev & St & Ru & Cu & Tu).
      exists v, t, u.
      split; [|split; [|split; [exact St|split; [exact Ru|rewrite <- Htui; split; assumption]]]].
      * apply try_Ret. rewrite Estart.
        erewrite bind_Ret by (apply decision_returns; assumption).
        fold s1. rewrite Ego. cbn [negb].
        unfold bind at 1. unfold Sim.subprocess_run at 1.
        unfold bind at 1. unfold get at 1. unfold bind at 1. unfold modify at 1.
        rewrite Esp. unfold ret at 1. fold (launch command s1).
        unfold bind at 1. unfold Sim.now at 1. unfold bind at 1. unfold get at 1.
        unfold ret at 1.
        replace (naps (launch command s1)) with (naps s)
          by (unfold s1, after_probe; destruct (Sim.is_tool command); try reflexivity;
              destruct (_driftmgr_available (self s)); reflexivity).
        exact Ef.
      * rewrite <- Hts. exact Ev.
    + pose proof (Hw _ _ _ _ Esp) as Hexc.
      destruct (finish_exact (converted (join command) timeout e) feat
                  (fun _ => false) _ n R2 Hn) as (v & t & u & Ef & Ev & St & Ru & Cu & Tu).
      exists v, t, u.
      split; [|split; [|split; [exact St|split; [exact Ru|rewrite <- Htui; split; assumption]]]].
      * unfold try_except. rewrite Estart.
        erewrite bind_Ret by (apply decision_returns; assumption).
        fold s1. rewrite Ego. cbn [negb].
        unfold bind at 1. unfold Sim.subprocess_run at 1.
        unfold bind at 1. unfold get at 1. unfold bind at 1. unfold modify at 1.
        rewrite Esp. fold (launch command s1).
        revert Ef Hexc. unfold converted, is_Exception.
        destruct (exn_cls e); intros Ef Hexc; try exact Ef. discriminate.
      * rewrite <- Hts. rewrite Hcmd in Ev. exact Ev.
  - destruct (finish_exact (Sim.skipped (join command)) feat test_passed
                _ n R2 Hn) as (v & t & u & Ef & Ev & St & Ru & Cu & Tu).
    exists v, t, u.
    split; [|split; [|split; [exact St|split; [exact Ru|rewrite <- Htui; split; assumption]]]].
    + apply try_Ret. rewrite Estart.
      erewrite bind_Ret by (apply decision_returns; assumption).
      fold s1. rewrite Ego. cbn [negb]. exact Ef.
    + rewrite <- Hts. exact Ev.
Qed.

End Session.

Section Steps.

Variable w : World.
Hypothesis Hw : no_interrupt w.
Hypothesis Hcalm : calm w.

Lemma validate_facts cmd r feat t v t' :
  sound t ->
  Validator.validate_command_result cmd r feat t = Ret v t' ->
  v_command v = cmd
  /\ passed_tests t <= passed_tests t' /\ failed_tests t <= failed_tests t'.
Proof.
  intros St E.
  destruct (Validator.missing_driftmgr r || Validator.missing_executable r) eqn:Hm.
  - revert E. unfold Validator.validate_command_result.
    destruct (Validator.missing_driftmgr r);
      [intros [= <- <-]; cbn; split; [reflexivity|lia]|].
    cbn in Hm. rewrite Hm. intros [= <- <-]. cbn. split; [reflexivity|lia].
  - destruct (validate_counted cmd r feat t St Hm) as (q & E').
    rewrite E' in E. injection E as <- <-.
    rewrite by_command_type_first_match.
    split.
    + unfold apply_rule, Validator.judge.
      destruct (first_match cmd);
        match goal with |- context [if ?c then _ else _] => destruct c end;
        reflexivity.
    + unfold counted, Validator.set_rate, Validator.count_feature,
        Validator.set_features, Validator.count_test.
      cbn [passed_tests failed_tests].
      match goal with |- context [if ?c then _ else _] => destruct c end; lia.
Qed.

Lemma validate_skipped cmd c feat t :
  exists v, Validator.validate_command_result cmd (Sim.skipped c) feat t = Ret v t
            /\ test_passed v = true.
Proof. eexists. split; reflexivity. Qed.

Lemma reached_facts command timeout s :
  Sim.is_tool command = true ->
  _driftmgr_available (self (reached w command s)) = Some (answer w s)
  /\ launched (reached w command s)
     = (launched s ++ probe_if_needed s
          ++ if answer w s then [ command ] else [])%list
  /\ naps (reached w command s) = naps s
  /\ report_file (reached w command s) = report_file s
  /\ simulation_results (self (reached w command s)) = simulation_results (self s)
  /\ same_regions (self s) (self (reached w command s))
  /\ (answer w s = false ->
      expected_result w command timeout s = Sim.skipped (join command)).
Proof.
  intros Ht. unfold reached, expected_result, launch_outcome, goes_ahead, after_probe,
    answer, probe_if_needed, same_regions.
  rewrite Ht. destruct (_driftmgr_available (self s)) as [[|]|] eqn:Ec.
  - rewrite Ec. cbn. repeat split; try assumption. discriminate.
  - rewrite Ec. cbn. rewrite app_nil_r. repeat split; assumption.
  - cbn. destruct (probe_answer w (length (launched s))); cbn;
      rewrite <- ?app_assoc; repeat split; try discriminate.
Qed.

Lemma expected_duration command timeout s :
  0 <= timeout <= 2 ^ 64 ->
  small (2 ^ 64) (duration (expected_result w command timeout s)).
Proof.
  intros Ht. unfold expected_result.
  destruct (launch_outcome w command timeout s) as [[rc out err|e]|]; cbn;
    try exact I; try lia.
  unfold converted. destruct (exn_cls e); cbn; lia.
Qed.

Lemma step_spec p s n :
  ready n s -> 1 <= n ->
  Sim.is_tool (p_argv p) = true -> 0 <= p_timeout p <= 2 ^ 64 ->
  exists s', step w p s = Ret tt s' /\ ready (n - 1) s' /\ progress w [ p ] s s'.
Proof.
  intros Hr Hn Htool Htime.
  destruct (run_command_exact w Hw (p_argv p) (p_timeout p) (p_feature p) s n Hr Hn)
    as (v & t & u & E & Ev & St & Ru & Cu & Tu).
  destruct (reached_facts (p_argv p) (p_timeout p) s Htool)
    as (F1 & F2 & F3 & F4 & F5 & F6 & F7).
  destruct (validate_facts _ _ _ _ _ _ (proj1 Hr) Ev) as (V1 & V2 & V3).
  set (s2 := with_stats t u (reached w (p_argv p) s)) in *.
  set (e := {| feature := p_feature p; provider := p_provider p;
               regions := p_regions p;
               timestamp := clock w (length (launched s2) + naps s2);
               result := {| exec := expected_result w (p_argv p) (p_timeout p) s;
                            validation := v |} |}).
  exists (recorded e s2). split; [|split].
  - unfold step. erewrite bind_Ret by exact E.
    unfold bind at 1. unfold Sim.record at 1. unfold bind at 1.
    unfold Sim.now at 1. unfold bind at 1. unfold get at 1. unfold ret at 1.
    unfold Sim.on_self, zoom, modify. fold e.
    unfold Sim.sleep. unfold bind at 1. unfold get at 1.
    unfold bind at 1. unfold modify at 1. rewrite Hcalm. reflexivity.
  - split; assumption.
  - split; [|split; [cbn; exact Cu|cbn; exact Tu]].
    exists [ e ]. split; [|split; [|split; [|split; [|split; [|split; [|split; [|split]]]]]]].
    + cbn. rewrite F5. reflexivity.
    + constructor; [|constructor]. unfold entry_matches. cbn.
      rewrite expected_command. repeat split; try assumption.
      now apply expected_duration.
    + exact F6.
    + exact F4.
    + exact F1.
    + cbn [recorded launched s2 with_stats Sim.set_self map]. exact F2.
    + exact V2.
    + exact V3.
    + intros Ha. specialize (F7 Ha).
      destruct (validate_skipped (join (p_argv p)) (join (p_argv p)) (p_feature p)
                  (test_summary (self s))) as (v' & Ev' & Hp).
      rewrite F7 in Ev. rewrite Ev' in Ev. injection Ev as <- <-.
      split; [reflexivity|]. constructor; [|constructor].
      split; [|exact Hp]. cbn. rewrite F7. reflexivity.
Qed.

End Steps.

Section Loops.

Variable w : World.
Hypothesis Hw : no_interrupt w.
Hypothesis Hcalm : calm w.

Lemma tui_feature_progress_returns now i name t n :
  tui_ready n t -> wall_time now -> 0 <= i < 2 ^ 1000 ->
  exists t', SimulationTUI_.update_feature_progress now i name t = Ret tt t'
             /\ tui_ready n t'
             /\ completed_commands t' = completed_commands t
             /\ total_commands t' = total_commands t.
Proof.
  unfold tui_ready, SimulationTUI_.update_feature_progress. intros R Hnow Hi.
  unfold bind at 1. unfold get at 1.
  destruct (loading_bar t) as [b|] eqn:Eb.
  2:{ exists t. split; [reflexivity|]. rewrite Eb. repeat split. }
  destruct R as (Ht & Hc & Hcn & Hd).
  destruct (update_returns b now i ("Testing: " ++ name) Hd Hnow Hi) as (l & El & _).
  unfold bind at 1. unfold modify at 1. unfold SimulationTUI_.on_bar.
  erewrite zoom_Ret by exact El.
  eexists. split; [reflexivity|].
  cbn [loading_bar SimulationTUI_.set_bar total_commands completed_commands].
  split; [|split; reflexivity].
  split; [lia|]. split; [lia|]. split; [lia|exact Hd].
Qed.

Lemma advance_tui s u : advance w [] s (Sim.set_self (Sim.set_tui u (self s)) s).
Proof.
  exists []. cbn. rewrite !app_nil_r. unfold same_regions.
  destruct (answer w s); cbn; rewrite ?app_nil_r;
    repeat split; try reflexivity; try lia; constructor.
Qed.

Lemma progress_tui s u :
  completed_commands u = completed_commands (tui (self s)) ->
  total_commands u = total_commands (tui (self s)) ->
  progress w [] s (Sim.set_self (Sim.set_tui u (self s)) s).
Proof.
  intros Hc Ht. split; [apply advance_tui|]. cbn. split; [lia|exact Ht].
Qed.

Lemma feature_progress_spec i name s n :
  ready n s -> 0 <= i < 2 ^ 1000 ->
  exists s', Sim.update_feature_progress w i name s = Ret tt s'
             /\ ready n s' /\ progress w [] s s'.
Proof.
  intros [Hs Ht] Hi.
  destruct (tui_feature_progress_returns (clock w (length (launched s) + naps s))
              i name (tui (self s)) n Ht (clock_wall_time _ _) Hi)
    as (u & Eu & Ru & Cu & Tu).
  exists (Sim.set_self (Sim.set_tui u (self s)) s). split; [|split].
  - unfold Sim.update_feature_progress, Sim.now.
    unfold bind at 1. unfold bind at 1. unfold get at 1. unfold ret at 1.
    unfold Sim.on_tui, Sim.on_self.
    erewrite zoom_Ret; [reflexivity|]. erewrite zoom_Ret; [reflexivity|exact Eu].
  - split; assumption.
  - apply progress_tui; assumption.
Qed.

Lemma advance_answer ps s s' : advance w ps s s' -> answer w s' = answer w s.
Proof.
  intros (new & _ & _ & _ & _ & Hc & Hl & _). unfold answer in *.
  rewrite Hc, Hl. destruct ps as [|p ps]; [|reflexivity].
  cbn. destruct (_driftmgr_available (self s)); [reflexivity|].
  match goal with
  | |- context [(launched s ++ ?x)%list] =>
      replace x with (@nil (list string))
        by (destruct (probe_answer w (length (launched s))); reflexivity)
  end.
  now rewrite app_nil_r.
Qed.

Lemma advance_trans ps ps' s s1 s2 :
  advance w ps s s1 -> advance w ps' s1 s2 -> advance w (ps ++ ps') s s2.
Proof.
  intros H1 H2. pose proof (advance_answer _ _ _ H1) as Ha.
  destruct H1 as (new & R1 & M1 & (G1 & G2 & G3 & G4) & F1 & C1 & L1 & P1 & Q1 & K1).
  destruct H2 as (new' & R2 & M2 & (G1' & G2' & G3' & G4') & F2 & C2 & L2 & P2 & Q2 & K2).
  rewrite Ha in *.
  exists (new ++ new')%list.
  split; [rewrite R2, R1; now rewrite <- app_assoc|].
  split; [now apply Forall2_app|].
  split; [unfold same_regions; repeat split; congruence|].
  split; [congruence|].
  split.
  { rewrite C2. destruct ps as [|p ps]; cbn.
    - rewrite C1. reflexivity.
    - destruct ps'; [exact C1|reflexivity]. }
  split.
  { rewrite L2, L1. unfold probe_if_needed. rewrite C1.
    destruct ps as [|p ps]; cbn [app].
    - destruct (answer w s); cbn; now rewrite ?app_nil_r.
    - destruct ps' as [|p' ps']; destruct (answer w s); cbn [map app];
        rewrite ?app_nil_r, <- ?app_assoc; cbn [app]; try reflexivity.
      rewrite map_app. reflexivity. }
  split; [lia|]. split; [lia|].
  intros Hf. destruct (K1 Hf) as [T1 S1]. destruct (K2 Hf) as [T2 S2].
  split; [congruence|]. now apply Forall_app.
Qed.

Lemma progress_trans ps ps' s s1 s2 :
  progress w ps s s1 -> progress w ps' s1 s2 -> progress w (ps ++ ps') s s2.
Proof.
  intros (A1 & C1 & T1) (A2 & C2 & T2).
  split; [exact (advance_trans _ _ _ _ _ A1 A2)|].
  rewrite length_app, Nat2Z.inj_add. split; [lia|congruence].
Qed.

Lemma progress_refl s : progress w [] s s.
Proof.
  replace s with (Sim.set_self (Sim.set_tui (tui (self s)) (self s)) s) at 2
    by (destruct s as [[] ? ? ?]; reflexivity).
  apply progress_tui; reflexivity.
Qed.

Lemma for_each_step ps : forall s n,
  ready n s -> Z.of_nat (length ps) <= n -> Forall runnable ps ->
  exists s', for_each ps (step w) s = Ret tt s'
             /\ ready (n - Z.of_nat (length ps)) s' /\ progress w ps s s'.
Proof.
  induction ps as [|p ps IH]; intros s n Hr Hn Hall.
  - exists s. split; [reflexivity|]. split.
    + cbn [length]. replace (n - Z.of_nat 0) with n by lia. exact Hr.
    + apply progress_refl.
  - inversion Hall as [|? ? [Htool Htime] Hrest]; subst. cbn [length] in Hn.
    destruct (step_spec w Hw Hcalm p s n Hr ltac:(lia) Htool Htime)
      as (s1 & E1 & R1 & P1).
    destruct (IH s1 (n - 1) R1 ltac:(lia) Hrest) as (s2 & E2 & R2 & P2).
    exists s2. split; [|split].
    + cbn [for_each]. erewrite bind_Ret by exact E1. exact E2.
    + cbn [length]. replace (n - Z.of_nat (S (length ps)))
        with (n - 1 - Z.of_nat (length ps)) by lia. exact R2.
    + exact (progress_trans [ p ] ps _ _ _ P1 P2).
Qed.

End Loops.

Section Phases.

Variable w : World.
Hypothesis Hw : no_interrupt w.
Hypothesis Hcalm : calm w.

Lemma for_each_map {A B} (f : A -> B) (g : B -> M State unit) l : forall s,
  for_each (map f l) g s = for_each l (fun x => g (f x)) s.
Proof.
  induction l as [|x l IH]; intros s; [reflexivity|].
  cbn [map for_each]. unfold bind. destruct (g (f x) s); [apply IH|reflexivity].
Qed.

Lemma runnable_planned feat timeout commands :
  0 <= timeout <= 2 ^ 64 ->
  forallb Sim.is_tool commands = true ->
  Forall runnable (planned feat timeout commands).
Proof.
  intros Ht. unfold planned. induction commands as [|c commands IH]; cbn [forallb map].
  - constructor.
  - intros H. apply andb_true_iff in H as [Hc Hr].
    constructor; [split; [exact Hc|exact Ht]|now apply IH].
Qed.

Lemma length_planned feat timeout commands :
  length (planned feat timeout commands) = length commands.
Proof. unfold planned. apply length_map. Qed.

Lemma simulate_spec i name feat timeout commands s n :
  ready n s -> 100 <= n -> Z.of_nat (length commands) <= 100 ->
  0 <= i < 2 ^ 1000 -> 0 <= timeout <= 2 ^ 64 ->
  forallb Sim.is_tool commands = true ->
  exists s', Sim.simulate w i name feat timeout commands s = Ret tt s'
             /\ ready (n - 100) s'
             /\ progress w (planned feat timeout commands) s s'.
Proof.
  intros Hr Hn Hlen Hi Ht Htool.
  destruct (feature_progress_spec w i name s n Hr Hi) as (s1 & E1 & R1 & P1).
  destruct (for_each_step w Hw Hcalm (planned feat timeout commands) s1 n R1)
    as (s2 & E2 & R2 & P2).
  { rewrite length_planned. lia. }
  { now apply runnable_planned. }
  exists s2. split; [|split].
  - unfold Sim.simulate. erewrite bind_Ret by exact E1.
    rewrite <- E2. unfold planned. rewrite for_each_map. reflexivity.
  - rewrite length_planned in R2.
    apply (ready_mono (n - Z.of_nat (length commands))); [exact R2|lia].
  - exact (progress_trans w [] _ _ _ _ P1 P2).
Qed.

Lemma provider_spec prov regs s n :
  ready n s -> 4 <= n ->
  exists s',
    match regs with
    | [] => ret tt
    | _ =>
        let '(first, others) := sample_regions w prov regs in
        let selected := first :: others in
        for_each (Sim.discovery_patterns prov first selected) (fun pattern =>
          bind (Sim.run_command w pattern 120 "resource_discovery") (fun r =>
          bind (Sim.record w "resource_discovery" (Some prov) (Some selected) r)
            (fun _ => Sim.sleep w)))
    end s = Ret tt s'
    /\ ready (n - 4) s'
    /\ progress w (provider_plan w prov regs) s s'.
Proof.
  intros Hr Hn. unfold provider_plan.
  destruct regs as [|r0 regs].
  - exists s. split; [reflexivity|]. split; [|apply progress_refl].
    apply (ready_mono n); [assumption|lia].
  - destruct (sample_regions w prov (r0 :: regs)) as [first others].
    cbv zeta.
    set (mk := fun c => {| p_feature := "resource_discovery"; p_provider := Some prov;
                           p_regions := Some (first :: others); p_timeout := 120;
                           p_argv := c |}).
    destruct (for_each_step w Hw Hcalm
                (map mk (Sim.discovery_patterns prov first (first :: others))) s n Hr)
      as (s2 & E2 & R2 & P2).
    { cbn. lia. }
    { repeat constructor; cbn; lia. }
    exists s2. split; [|split].
    + rewrite <- E2. rewrite for_each_map. reflexivity.
    + exact R2.
    + exact P2.
Qed.

End Phases.

Section Plan.

Variable w : World.
Hypothesis Hw : no_interrupt w.
Hypothesis Hcalm : calm w.

Lemma discovery_plan_regions x y :
  same_regions x y -> discovery_plan w y = discovery_plan w x.
Proof. intros (H1 & H2 & H3 & H4). unfold discovery_plan. now rewrite H1, H2, H3, H4. Qed.

Lemma plan_regions x y : same_regions x y -> plan w y = plan w x.
Proof. intros H. unfold plan. now rewrite (discovery_plan_regions x y H). Qed.

Lemma discovery_spec s n :
  ready n s -> 100 <= n ->
  exists s', Sim.simulate_discovery_with_random_regions w s = Ret tt s'
             /\ ready (n - 100) s'
             /\ progress w (discovery_plan w (self s)) s s'.
Proof.
  intros Hr Hn.
  destruct (feature_progress_spec w 2 "Resource Discovery" s n Hr ltac:(lia))
    as (s1 & E1 & R1 & P1).
  assert (Hreg : same_regions (self s) (self s1))
    by (destruct P1 as ((? & _ & _ & H & _) & _); exact H).
  destruct (provider_spec w Hw Hcalm "aws" (aws_regions (self s1)) s1 n R1 ltac:(lia))
    as (s2 & E2 & R2 & P2).
  destruct (provider_spec w Hw Hcalm "azure" (azure_regions (self s1)) s2 (n - 4) R2
              ltac:(lia)) as (s3 & E3 & R3 & P3).
  destruct (provider_spec w Hw Hcalm "gcp" (gcp_regions (self s1)) s3 (n - 4 - 4) R3
              ltac:(lia)) as (s4 & E4 & R4 & P4).
  destruct (provider_spec w Hw Hcalm "digitalocean" (digitalocean_regions (self s1)) s4
              (n - 4 - 4 - 4) R4 ltac:(lia)) as (s5 & E5 & R5 & P5).
  exists s5. split; [|split].
  - unfold Sim.simulate_discovery_with_random_regions.
    erewrite bind_Ret by exact E1.
    unfold bind at 1. unfold get at 1. cbn [for_each].
    erewrite bind_Ret by exact E2.
    erewrite bind_Ret by exact E3.
    erewrite bind_Ret by exact E4.
    erewrite bind_Ret by exact E5.
    reflexivity.
  - apply (ready_mono (n - 4 - 4 - 4 - 4)); [exact R5|lia].
  - rewrite <- (discovery_plan_regions _ _ Hreg). unfold discovery_plan.
    apply (progress_trans w [] _ _ _ _ P1).
    apply (progress_trans w _ _ _ _ _ P2).
    apply (progress_trans w _ _ _ _ _ P3).
    apply (progress_trans w _ _ _ _ _ P4). exact P5.
Qed.

Lemma progress_regions ps s s' : progress w ps s s' -> same_regions (self s) (self s').
Proof. intros ((? & _ & _ & H & _) & _). exact H. Qed.

Lemma same_regions_trans x y z :
  same_regions x y -> same_regions y z -> same_regions x z.
Proof. unfold same_regions. intuition congruence. Qed.

Lemma phases_spec s :
  ready 1100 s ->
  exists s', Sim.phases w s = Ret tt s' /\ ready 0 s'
             /\ progress w (plan w (self s)) s s'.
Proof.
  intros R0.
  destruct (simulate_spec w Hw Hcalm 0 "Credential Auto-Detection"
              "credential_auto_detection" 60 Sim.credential_commands s 1100 R0)
    as (s1 & E1 & R1 & P1);
    try lia; [apply Z.leb_le; vm_compute; reflexivity|vm_compute; reflexivity|].
  destruct (simulate_spec w Hw Hcalm 1 "State File Detection"
              "state_file_detection" 90 Sim.state_file_commands s1 _ R1)
    as (s2 & E2 & R2 & P2);
    try lia; [apply Z.leb_le; vm_compute; reflexivity|vm_compute; reflexivity|].
  destruct (discovery_spec s2 _ R2) as (s3 & E3 & R3 & P3); [lia|].
  destruct (simulate_spec w Hw Hcalm 3 "Drift Analysis" "drift_analysis" 90
              Sim.analysis_commands s3 _ R3)
    as (s4 & E4 & R4 & P4);
    try lia; [apply Z.leb_le; vm_compute; reflexivity|vm_compute; reflexivity|].
  destruct (simulate_spec w Hw Hcalm 4 "Monitoring & Dashboard" "monitoring" 60
              Sim.monitoring_commands s4 _ R4)
    as (s5 & E5 & R5 & P5);
    try lia; [apply Z.leb_le; vm_compute; reflexivity|vm_compute; reflexivity|].
  destruct (simulate_spec w Hw Hcalm 5 "Remediation" "remediation" 120
              Sim.remediation_commands s5 _ R5)
    as (s6 & E6 & R6 & P6);
    try lia; [apply Z.leb_le; vm_compute; reflexivity|vm_compute; reflexivity|].
  destruct (simulate_spec w Hw Hcalm 6 "Configuration" "configuration" 60
              Sim.config_commands s6 _ R6)
    as (s7 & E7 & R7 & P7);
    try lia; [apply Z.leb_le; vm_compute; reflexivity|vm_compute; reflexivity|].
  destruct (simulate_spec w Hw Hcalm 7 "Reporting" "reporting" 60
              Sim.reporting_commands s7 _ R7)
    as (s8 & E8 & R8 & P8);
    try lia; [apply Z.leb_le; vm_compute; reflexivity|vm_compute; reflexivity|].
  destruct (simulate_spec w Hw Hcalm 8 "Advanced Features" "advanced" 60
              Sim.advanced_commands s8 _ R8)
    as (s9 & E9 & R9 & P9);
    try lia; [apply Z.leb_le; vm_compute; reflexivity|vm_compute; reflexivity|].
  destruct (simulate_spec w Hw Hcalm 9 "Error Handling" "error_handling" 60
              Sim.error_commands s9 _ R9)
    as (s10 & E10 & R10 & P10);
    try lia; [apply Z.leb_le; vm_compute; reflexivity|vm_compute; reflexivity|].
  destruct (simulate_spec w Hw Hcalm 10 "Interactive Mode" "interactive_mode" 60
              Sim.interactive_commands s10 _ R10)
    as (s11 & E11 & R11 & P11);
    try lia; [apply Z.leb_le; vm_compute; reflexivity|vm_compute; reflexivity|].
  exists s11. split; [|split].
  - unfold Sim.phases.
    erewrite bind_Ret by exact E1. erewrite bind_Ret by exact E2.
    erewrite bind_Ret by exact E3. erewrite bind_Ret by exact E4.
    erewrite bind_Ret by exact E5. erewrite bind_Ret by exact E6.
    erewrite bind_Ret by exact E7. erewrite bind_Ret by exact E8.
    erewrite bind_Ret by exact E9. erewrite bind_Ret by exact E10.
    exact E11.
  - apply (ready_mono _ 0) in R11; [exact R11|lia].
  - assert (Hreg : discovery_plan w (self s2) = discovery_plan w (self s)).
    { apply discovery_plan_regions.
      exact (same_regions_trans _ _ _ (progress_regions _ _ _ P1)
               (progress_regions _ _ _ P2)). }
    rewrite Hreg in P3. unfold plan.
    apply (progress_trans w _ _ _ _ _ P1).
    apply (progress_trans w _ _ _ _ _ P2).
    apply (progress_trans w _ _ _ _ _ P3).
    apply (progress_trans w _ _ _ _ _ P4).
    apply (progress_trans w _ _ _ _ _ P5).
    apply (progress_trans w _ _ _ _ _ P6).
    apply (progress_trans w _ _ _ _ _ P7).
    apply (progress_trans w _ _ _ _ _ P8).
    apply (progress_trans w _ _ _ _ _ P9).
    apply (progress_trans w _ _ _ _ _ P10). exact P11.
Qed.

End Plan.

Section SessionSpec.

Variable w : World.
Hypothesis Hw : no_interrupt w.
Hypothesis Hcalm : calm w.

Lemma length_provider_plan prov regs :
  Z.of_nat (length (provider_plan w prov regs)) = 4 * has_regions regs.
Proof.
  unfold provider_plan. destruct regs as [|r0 regs]; [reflexivity|].
  destruct (sample_regions w prov (r0 :: regs)) as [first others]. reflexivity.
Qed.

Lemma length_plan x :
  Z.of_nat (length (plan w x)) = 185 + 4 * providers_with_regions x.
Proof.
  unfold plan, discovery_plan, providers_with_regions.
  rewrite !length_app, !length_planned, !Nat2Z.inj_add, !length_provider_plan.
  replace (length Sim.credential_commands) with 3%nat by (vm_compute; reflexivity).
  replace (length Sim.state_file_commands) with 94%nat by (vm_compute; reflexivity).
  replace (length Sim.analysis_commands) with 9%nat by (vm_compute; reflexivity).
  replace (length Sim.monitoring_commands) with 8%nat by (vm_compute; reflexivity).
  replace (length Sim.remediation_commands) with 8%nat by (vm_compute; reflexivity).
  replace (length Sim.config_commands) with 8%nat by (vm_compute; reflexivity).
  replace (length Sim.reporting_commands) with 10%nat by (vm_compute; reflexivity).
  replace (length Sim.advanced_commands) with 14%nat by (vm_compute; reflexivity).
  replace (length Sim.error_commands) with 15%nat by (vm_compute; reflexivity).
  replace (length Sim.interactive_commands) with 16%nat by (vm_compute; reflexivity).
  lia.
Qed.

Lemma has_regions_bounds regs : 0 <= has_regions regs <= 1.
Proof. destruct regs; cbn; lia. Qed.

Lemma entries_tame ps new : Forall2 entry_matches ps new -> tame new.
Proof.
  induction 1 as [|p e ps new (_ & _ & _ & _ & _ & H) _ IH]; constructor; assumption.
Qed.

Lemma skipped_unsuccessful new :
  Forall entry_skipped new -> Sim.count_successful new = 0.
Proof.
  induction 1 as [|e new [He _] _ IH]; [reflexivity|].
  change (e :: new) with ([ e ] ++ new)%list.
  rewrite count_successful_app, count_successful_one, IH, He. reflexivity.
Qed.

Lemma started_exact s :
  bind (Sim.now w) (fun t =>
    Sim.on_tui (SimulationTUI_.initialize_simulation t Sim.planned_commands)) s
  = Ret tt (Sim.set_self
              (Sim.set_tui
                 (initialised (clock w (length (launched s) + naps s))
                    Sim.planned_commands (tui (self s))) (self s)) s).
Proof. reflexivity. Qed.

(** A session from a simulator whose statistics are in order. *)
Lemma session_spec s :
  sound (test_summary (self s)) ->
  0 <= passed_tests (test_summary (self s)) ->
  0 <= failed_tests (test_summary (self s)) ->
  tame (simulation_results (self s)) ->
  Z.of_nat (length (simulation_results (self s))) < 2 ^ 32 ->
  exists r s2,
    Sim.run_full_simulation w s = Ret (Some r) (filed r s2)
    /\ advance w (plan w (self s)) s s2
    /\ sound (test_summary (self s2))
    /\ Sim.generate_simulation_report w s2 = Ret r (filed r s2)
    /\ detailed_results r = simulation_results (self s2)
    /\ report_test_summary r = test_summary (self s2)
    /\ info_total_commands (simulation_info r)
       = Z.of_nat (length (simulation_results (self s2)))
    /\ info_successful_commands (simulation_info r)
       = Sim.count_successful (simulation_results (self s2))
    /\ info_failed_commands (simulation_info r)
       = info_total_commands (simulation_info r)
         - info_successful_commands (simulation_info r)
    /\ (total_tests (test_summary (self s2)) = 0 -> overall_success_rate r = Int 0)
    /\ completed_commands (tui (self s2)) = Z.of_nat (length (plan w (self s)))
    /\ total_commands (tui (self s2)) = Sim.planned_commands.
Proof.
  intros Hs Hp Hf Ht Hlen.
  pose proof (started_exact s) as E.
  set (u := initialised (clock w (length (launched s) + naps s))
              Sim.planned_commands (tui (self s))) in *.
  assert (Ru : tui_ready (2 ^ 64) u)
    by (apply initialised_ready; [reflexivity|apply clock_wall_time]).
  set (s0 := Sim.set_self (Sim.set_tui u (self s)) s) in *.
  assert (R0 : ready 1100 s0).
  { apply (ready_mono (2 ^ 64)); [split; assumption|lia]. }
  destruct (phases_spec w Hw Hcalm s0 R0) as (s2 & E2 & R2 & A2 & C2 & T2).
  pose proof (advance_trans w [] _ _ _ _ (advance_tui w s u) A2) as P.
  cbn [app] in P.
  assert (Hplan : plan w (self s0) = plan w (self s))
    by (apply plan_regions; repeat split).
  rewrite Hplan in P, C2.
  destruct P as (new & Hres & Hnew & Hreg & Hfile & Hcache & Hl & Hpm & Hfm & Hsk).
  pose proof (length_plan (self s)) as Hlp.
  rewrite (Forall2_length _ _ _ Hnew) in Hlp.
  pose proof (has_regions_bounds (aws_regions (self s))).
  pose proof (has_regions_bounds (azure_regions (self s))).
  pose proof (has_regions_bounds (gcp_regions (self s))).
  pose proof (has_regions_bounds (digitalocean_regions (self s))).
  unfold providers_with_regions in Hlp.
  destruct R2 as [Hs2 Ht2].
  destruct (report_spec w s2) as (r & d & Er & K1 & K2 & K3 & K4 & K5 & K6 & _).
  - rewrite Hres. destruct new as [|e new]; [cbn [length] in Hlp; lia|].
    destruct (simulation_results (self s)); discriminate.
  - rewrite Hres. apply Forall_app. split; [exact Ht|]. exact (entries_tame _ _ Hnew).
  - rewrite Hres, length_app.
    assert (2 ^ 32 + 201 < 2 ^ 64) by lia. lia.
  - destruct Hs2 as ((Htot & _) & _). lia.
  - exists r, s2. split; [|split; [|split; [|split; [exact Er|]]]].
    + unfold Sim.run_full_simulation.
      revert E. unfold bind at 1. unfold Sim.now at 1. unfold bind at 1.
      unfold get at 1. unfold ret at 1. intros E.
      unfold bind at 1. unfold Sim.now at 1. unfold bind at 1.
      unfold get at 1. unfold ret at 1.
      unfold bind at 1. rewrite E.
      unfold bind at 1. unfold Sim.now at 1. unfold bind at 1.
      unfold get at 1. unfold ret at 1.
      unfold try_except. unfold bind at 1. rewrite E2.
      unfold bind at 1. rewrite Er. reflexivity.
    + exists new.
      exact (conj Hres (conj Hnew (conj Hreg (conj Hfile (conj Hcache
               (conj Hl (conj Hpm (conj Hfm Hsk)))))))).
    + exact Hs2.
    + split; [exact K1|]. split; [exact K2|]. split; [exact K3|].
      split; [exact K4|]. split; [exact K5|]. split; [exact K6|].
      split; [rewrite C2; cbn; lia|rewrite T2; reflexivity].
Qed.

End SessionSpec.

Section Boot.

Variable w : World.

Lemma boot_facts :
  test_summary (self (Sim.boot w)) = Validator.empty_summary
  /\ simulation_results (self (Sim.boot w)) = []
  /\ _driftmgr_available (self (Sim.boot w)) = None
  /\ self (Sim.boot w) = Sim.init w.
Proof.
  unfold Sim.boot, Sim.init, Sim.load_regions.
  destruct (region_files w) as [[[[? ?] ?] ?]|]; repeat split.
Qed.

Lemma plan_nonempty x : exists p ps, plan w x = p :: ps.
Proof.
  unfold plan, planned, Sim.credential_commands. cbn [map app].
  eexists _, _. reflexivity.
Qed.

End Boot.

Section Session.

Variable w : World.
Hypothesis Hw : no_interrupt w.
Hypothesis Hcalm : calm w.

Lemma started_eq s :
  started w s
  = Sim.set_self
      (Sim.set_tui
         (initialised (clock w (length (launched s) + naps s))
            Sim.planned_commands (tui (self s))) (self s)) s.
Proof. unfold started. rewrite started_exact. reflexivity. Qed.

(** The phases of a session that starts on a fresh simulator. *)
Lemma session_phases :
  exists s',
    Sim.phases w (started w (Sim.boot w)) = Ret tt s'
    /\ sound (test_summary (self s'))
    /\ advance w (plan w (Sim.init w)) (Sim.boot w) s'.
Proof.
  destruct (boot_facts w) as (B1 & B2 & B3 & B4).
  assert (R0 : ready 1100 (started w (Sim.boot w))).
  { apply started_ready; [rewrite B1; apply sound_empty|lia]. }
  destruct (phases_spec w Hw Hcalm _ R0) as (s' & E & R & A & _).
  exists s'. split; [exact E|]. split; [exact (proj1 R)|].
  rewrite started_eq in A.
  pose proof (advance_trans w [] _ _ _ _ (advance_tui w (Sim.boot w) _) A) as P.
  cbn [app] in P.
  rewrite (plan_regions w (self (Sim.boot w))) in P by (repeat split).
  rewrite B4 in P. exact P.
Qed.

Lemma planned_no_probe feat timeout commands :
  Forall (fun c => c <> probe_argv) commands ->
  probes (map p_argv (planned feat timeout commands)) = 0%nat.
Proof.
  unfold probes, planned. induction 1 as [|c commands Hc _ IH]; [reflexivity|].
  cbn [map p_argv]. rewrite filter_cons_False by exact Hc. exact IH.
Qed.

Lemma provider_plan_no_probe prov regs :
  probes (map p_argv (provider_plan w prov regs)) = 0%nat.
Proof.
  unfold provider_plan. destruct regs as [|r0 regs]; [reflexivity|].
  destruct (sample_regions w prov (r0 :: regs)) as [first others].
  unfold probes, Sim.discovery_patterns. cbn [map p_argv].
  rewrite !filter_cons_False by (unfold probe_argv; intros [=]). reflexivity.
Qed.

(** No planned command is the probe itself. *)
Lemma plan_no_probe x : probes (map p_argv (plan w x)) = 0%nat.
Proof.
  assert (T : forall l, forallb (fun c => negb (bool_decide (c = probe_argv))) l = true ->
                        Forall (fun c => c <> probe_argv) l).
  { intros l H. apply Forall_forall. intros c Hc.
    apply list_elem_of_In in Hc. apply (proj1 (forallb_forall _ _) H) in Hc.
    apply negb_true_iff, bool_decide_eq_false in Hc. exact Hc. }
  unfold plan, discovery_plan.
  rewrite !map_app, !probes_app, !provider_plan_no_probe,
    !planned_no_probe by (apply T; vm_compute; reflexivity).
  reflexivity.
Qed.

End Session.

(** X7. Without interruption the eleven phases of a session run to their end,
    whatever the child processes do: no exception leaves them. They record one
    result for each planned command, in the order of the plan; their number is
    185 plus 4 for each provider that has regions, and it is the total
    announced to the TUI exactly when the four providers have regions; the
    statistics they leave are consistent; the child processes launched are the
    probe and, when it answers, the planned commands. *)
Theorem phases_run_the_plan w :
  no_interrupt w -> calm w ->
  exists s',
    Sim.phases w (started w (Sim.boot w)) = Ret tt s'
    /\ Forall2 entry_matches (plan w (Sim.init w)) (simulation_results (self s'))
    /\ Z.of_nat (length (simulation_results (self s')))
       = 185 + 4 * providers_with_regions (Sim.init w)
    /\ (Z.of_nat (length (simulation_results (self s'))) = Sim.planned_commands
        <-> providers_with_regions (Sim.init w) = 4)
    /\ consistent (test_summary (self s'))
    /\ launched s'
       = probe_argv :: (if probe_answer w 0
                        then map p_argv (plan w (Sim.init w)) else []).
Proof.
  intros Hw Hcalm.
  destruct (boot_facts w) as (B1 & B2 & B3 & B4).
  destruct (session_phases w Hw Hcalm) as (s' & E & Hs & P).
  destruct P as (new & Hres & Hnew & _ & _ & _ & Hl & _).
  rewrite B2 in Hres. cbn [app] in Hres.
  pose proof (length_plan w (Sim.init w)) as Hlp.
  assert (Hlen : Z.of_nat (length (simulation_results (self s')))
                 = 185 + 4 * providers_with_regions (Sim.init w)).
  { rewrite Hres, <- (Forall2_length _ _ _ Hnew). exact Hlp. }
  exists s'. split; [exact E|]. split; [rewrite Hres; exact Hnew|].
  split; [exact Hlen|].
  split; [rewrite Hlen; unfold Sim.planned_commands; lia|].
  split; [exact (proj1 Hs)|].
  rewrite Hl.
  destruct (plan_nonempty w (Sim.init w)) as (p & ps & ->).
  unfold probe_if_needed, answer. rewrite B3. reflexivity.
Qed.

(** X9. A session on a machine where the probe fails: the probe is the only
    child process launched; every planned command is recorded as skipped, with
    the verdict PASSED; the statistics of the report are those of the start,
    no test counted, and the overall success rate is the integer 0; no command
    is counted as successful. *)
Theorem session_without_the_tool w :
  no_interrupt w -> calm w -> probe_answer w 0 = false ->
  exists r s',
    Sim.run_full_simulation w (Sim.boot w) = Ret (Some r) s'
    /\ launched s' = [ probe_argv ]
    /\ Forall entry_skipped (detailed_results r)
    /\ report_test_summary r = Validator.empty_summary
    /\ overall_success_rate r = Int 0
    /\ info_successful_commands (simulation_info r) = 0
    /\ info_failed_commands (simulation_info r)
       = info_total_commands (simulation_info r).
Proof.
  intros Hw Hcalm Hp.
  destruct (boot_facts w) as (B1 & B2 & B3 & B4).
  destruct (session_spec w Hw Hcalm (Sim.boot w))
    as (r & s2 & E & P & Hs & _ & K1 & K2 & K3 & K4 & K5 & K6 & _);
    try (rewrite B1; cbn; lia).
  { rewrite B1. apply sound_empty. }
  { rewrite B2. constructor. }
  { rewrite B2. cbn. lia. }
  destruct P as (new & Hres & Hnew & _ & _ & _ & Hl & _ & _ & Hsk).
  assert (Ha : answer w (Sim.boot w) = false) by (unfold answer; now rewrite B3).
  destruct (Hsk Ha) as [Hts Hall].
  rewrite B2 in Hres. cbn [app] in Hres.
  exists r, (filed r s2). split; [exact E|].
  split; [|split; [|split; [|split; [|split]]]].
  - cbn [filed launched]. rewrite Hl, Ha. rewrite B4.
    destruct (plan_nonempty w (Sim.init w)) as (p & ps & ->).
    unfold probe_if_needed. rewrite B3. reflexivity.
  - rewrite K1, Hres. exact Hall.
  - rewrite K2, Hts. exact B1.
  - apply K6. rewrite Hts, B1. reflexivity.
  - rewrite K4, Hres. now apply skipped_unsuccessful.
  - rewrite K5, K4, Hres, (skipped_unsuccessful _ Hall). lia.
Qed.

(** X12. In a session without interruption the TUI counts every planned
    command once, whichever way [run_command] ends for it: when
    [run_full_simulation] returns, [completed_commands] is the number of
    results of the report, [total_commands] is the total announced at the
    start, and the count is never above the total; the two agree exactly when
    the four providers have regions. *)
Theorem session_counts_every_command w :
  no_interrupt w -> calm w ->
  exists r s',
    Sim.run_full_simulation w (Sim.boot w) = Ret (Some r) s'
    /\ completed_commands (tui (self s')) = info_total_commands (simulation_info r)
    /\ completed_commands (tui (self s'))
       = Z.of_nat (length (detailed_results r))
    /\ total_commands (tui (self s')) = Sim.planned_commands
    /\ completed_commands (tui (self s')) <= total_commands (tui (self s'))
    /\ (completed_commands (tui (self s')) = total_commands (tui (self s'))
        <-> providers_with_regions (Sim.init w) = 4).
Proof.
  intros Hw Hcalm.
  destruct (boot_facts w) as (B1 & B2 & B3 & B4).
  destruct (session_spec w Hw Hcalm (Sim.boot w))
    as (r & s2 & E & P & _ & _ & K1 & _ & K3 & _ & _ & _ & C & T);
    try (rewrite B1; cbn; lia).
  { rewrite B1. apply sound_empty. }
  { rewrite B2. constructor. }
  { rewrite B2. cbn. lia. }
  destruct P as (new & Hres & Hnew & _).
  rewrite B2 in Hres. cbn [app] in Hres.
  pose proof (length_plan w (self (Sim.boot w))) as Hlp.
  rewrite <- C in Hlp. rewrite B4 in Hlp.
  pose proof (has_regions_bounds (aws_regions (Sim.init w))).
  pose proof (has_regions_bounds (azure_regions (Sim.init w))).
  pose proof (has_regions_bounds (gcp_regions (Sim.init w))).
  pose proof (has_regions_bounds (digitalocean_regions (Sim.init w))).
  assert (Hle : providers_with_regions (Sim.init w) <= 4)
    by (unfold providers_with_regions; lia).
  assert (Hlen : completed_commands (tui (self s2)) = Z.of_nat (length new)).
  { rewrite C. f_equal. exact (Forall2_length _ _ _ Hnew). }
  exists r, (filed r s2). split; [exact E|].
  cbn [filed self].
  split; [rewrite K3, Hres; exact Hlen|].
  split; [rewrite K1, Hres; exact Hlen|].
  split; [exact T|].
  rewrite T, Hlp. unfold Sim.planned_commands. split; lia.
Qed.

(** C3. In a session the probe is launched once, as the first child process,
    and no planned command is the probe; its answer is kept in the simulator
    and every invocation of the tool uses it: all the planned commands are
    launched after it when it is true, none when it is false, and each
    result is then the synthesized one, with return code -1, an empty stdout
    and the duration 0. *)
Theorem probe_once_per_session w :
  no_interrupt w -> calm w ->
  exists o s',
    Sim.run_full_simulation w (Sim.boot w) = Ret o s'
    /\ launched s'
       = probe_argv :: (if probe_answer w 0
                        then map p_argv (plan w (Sim.init w)) else [])
    /\ probes (launched s') = 1%nat
    /\ _driftmgr_available (self s') = Some (probe_answer w 0)
    /\ (probe_answer w 0 = false ->
        Forall (fun e => return_code (exec (result e)) = -1
                         /\ stdout (exec (result e)) = ""
                         /\ duration (exec (result e)) = Int 0)
          (simulation_results (self s'))).
Proof.
  intros Hw Hcalm.
  destruct (boot_facts w) as (B1 & B2 & B3 & B4).
  destruct (session_spec w Hw Hcalm (Sim.boot w))
    as (r & s2 & E & P & _);
    try (rewrite B1; cbn; lia).
  { rewrite B1. apply sound_empty. }
  { rewrite B2. constructor. }
  { rewrite B2. cbn. lia. }
  destruct P as (new & Hres & _ & _ & _ & Hc & Hl & _ & _ & Hsk).
  rewrite B2 in Hres. cbn [app] in Hres. rewrite B4 in Hc, Hl.
  assert (Ha : answer w (Sim.boot w) = probe_answer w 0)
    by (unfold answer; now rewrite B3).
  destruct (plan_nonempty w (Sim.init w)) as (p & ps & Hplan).
  assert (Hl' : launched s2
                = probe_argv :: (if probe_answer w 0
                                 then map p_argv (plan w (Sim.init w)) else [])).
  { rewrite Hl, Ha, Hplan. unfold probe_if_needed. rewrite B3. reflexivity. }
  exists (Some r), (filed r s2). split; [exact E|]. cbn [filed launched self].
  split; [exact Hl'|]. split; [|split].
  - rewrite Hl'. change (probe_argv :: ?l) with ([ probe_argv ] ++ l)%list.
    rewrite probes_app.
    destruct (probe_answer w 0); [rewrite plan_no_probe|]; reflexivity.
  - rewrite Hc, Hplan, Ha. reflexivity.
  - intros Hf. rewrite Hf in Ha. destruct (Hsk Ha) as [_ Hall].
    rewrite Hres. eapply Forall_impl; [exact Hall|]. intros e [He _].
    rewrite He. repeat split.
Qed.

(** C7. A session in which no command is executed, the probe having failed:
    [run_full_simulation] returns its report, no test is counted, the
    overall success rate of the report is the integer 0, and the count of
    commands by which the command success rate is divided is positive. *)
Theorem zero_executed_session_reports_zero w :
  no_interrupt w -> calm w -> probe_answer w 0 = false ->
  exists r s',
    Sim.run_full_simulation w (Sim.boot w) = Ret (Some r) s'
    /\ launched s' = [ probe_argv ]
    /\ total_tests (report_test_summary r) = 0
    /\ overall_success_rate r = Int 0
    /\ 0 < info_total_commands (simulation_info r).
Proof.
  intros Hw Hcalm Hp.
  destruct (boot_facts w) as (B1 & B2 & B3 & B4).
  destruct (session_spec w Hw Hcalm (Sim.boot w))
    as (r & s2 & E & P & _ & _ & _ & K2 & K3 & _ & _ & K6 & _);
    try (rewrite B1; cbn; lia).
  { rewrite B1. apply sound_empty. }
  { rewrite B2. constructor. }
  { rewrite B2. cbn. lia. }
  destruct P as (new & Hres & Hnew & _ & _ & _ & Hl & _ & _ & Hsk).
  assert (Ha : answer w (Sim.boot w) = false) by (unfold answer; now rewrite B3).
  destruct (Hsk Ha) as [Hts _].
  exists r, (filed r s2). split; [exact E|].
  split; [|split; [|split]].
  - cbn [filed launched]. rewrite Hl, Ha. rewrite B4.
    destruct (plan_nonempty w (Sim.init w)) as (p & ps & ->).
    unfold probe_if_needed. rewrite B3. reflexivity.
  - rewrite K2, Hts, B1. reflexivity.
  - apply K6. rewrite Hts, B1. reflexivity.
  - rewrite K3, Hres, length_app, Nat2Z.inj_add,
      <- (Forall2_length _ _ _ Hnew), length_plan.
    pose proof (has_regions_bounds (aws_regions (self (Sim.boot w)))).
    pose proof (has_regions_bounds (azure_regions (self (Sim.boot w)))).
    pose proof (has_regions_bounds (gcp_regions (self (Sim.boot w)))).
    pose proof (has_regions_bounds (digitalocean_regions (self (Sim.boot w)))).
    unfold providers_with_regions. lia.
Qed.

Lemma tool_absent_calm : calm tool_absent.
Proof. intros n. reflexivity. Qed.

Lemma slow_tool_calm : calm slow_tool.
Proof. intros n. reflexivity. Qed.

Lemma verdict_shape_witness :
  exists v t',
    Validator.validate_command_result "driftmgr credentials list" credentials_listed
      "credential_auto_detection" Validator.empty_summary = Ret v t'
    /\ length (validation_details v) = 1%nat
    /\ v_command v = "driftmgr credentials list".
Proof.
  destruct (verdict_shape "driftmgr credentials list" credentials_listed
              "credential_auto_detection" Validator.empty_summary sound_empty)
    as (v & t' & E & _ & H1 & H2 & _).
  exists v, t'. split; [exact E|]. split; [exact H1|exact H2].
Defined.

Lemma exit_zero_verdict_witness :
  exists v t',
    Validator.validate_command_result "driftmgr credentials list" credentials_listed
      "credential_auto_detection" Validator.empty_summary = Ret v t'
    /\ test_passed v = true.
Proof.
  destruct (exit_zero_verdict "driftmgr credentials list" credentials_listed
              "credential_auto_detection" Validator.empty_summary sound_empty
              eq_refl eq_refl)
    as (v & t' & E & H).
  exists v, t'. split; [exact E|exact H].
Defined.

Lemma silent_failure_verdict_witness :
  exists v t',
    Validator.validate_command_result "driftmgr analyze --provider aws"
      analysis_timed_out "drift_analysis" Validator.empty_summary = Ret v t'
    /\ test_passed v = false.
Proof.
  destruct (silent_failure_verdict "driftmgr analyze --provider aws"
              analysis_timed_out "drift_analysis" Validator.empty_summary sound_empty
              eq_refl eq_refl eq_refl)
    as (v & t' & E & H).
  exists v, t'. split; [exact E|exact H].
Defined.

Lemma after_one_command_ok :
  simulation_results (self after_one_command) <> []
  /\ tame (simulation_results (self after_one_command))
  /\ Z.of_nat (length (simulation_results (self after_one_command))) < 2 ^ 64
  /\ 0 <= passed_tests (test_summary (self after_one_command))
       <= total_tests (test_summary (self after_one_command)).
Proof.
  split; [discriminate|]. split; [repeat constructor; cbn; lia|].
  split; [cbn; lia|cbn; lia].
Qed.

Lemma report_is_written_when_commands_ran_witness :
  exists r,
    Sim.generate_simulation_report tool_absent after_one_command
    = Ret r (filed r after_one_command)
    /\ info_total_commands (simulation_info r) = 1
    /\ overall_success_rate r = Int 0.
Proof.
  destruct after_one_command_ok as (H1 & H2 & H3 & H4).
  destruct (report_is_written_when_commands_ran tool_absent after_one_command
              H1 H2 H3 H4)
    as (r & E & _ & _ & T & _ & _ & _ & _ & Z0 & _).
  exists r. split; [exact E|]. split; [exact T|]. apply Z0. reflexivity.
Defined.

Lemma feature_summary_counts_the_results_witness :
  exists r,
    Sim.generate_simulation_report tool_absent after_one_command
    = Ret r (filed r after_one_command)
    /\ sum_commands (feature_summary r) = info_total_commands (simulation_info r)
    /\ List.In "credential_auto_detection" (keys (feature_summary r)).
Proof.
  destruct after_one_command_ok as (H1 & H2 & H3 & H4).
  destruct (feature_summary_counts_the_results tool_absent after_one_command
              H1 H2 H3 H4)
    as (r & E & _ & K & S & _).
  exists r. split; [exact E|]. split; [exact S|]. apply K. discriminate.
Defined.

Lemma report_without_results_divides_by_zero_witness :
  exists r,
    Sim.generate_simulation_report tool_absent (Sim.boot tool_absent)
    = Exc (Exn ZeroDivisionError "division by zero")
        {| self := self (Sim.boot tool_absent); launched := []; naps := 0%nat;
           report_file := Some r |}
    /\ overall_success_rate r = Int 0.
Proof.
  destruct (report_without_results_divides_by_zero tool_absent
              (Sim.boot tool_absent) eq_refl eq_refl) as (r & E & R & _).
  exists r. split; [exact E|exact R].
Defined.

Lemma phases_run_the_plan_witness :
  exists s',
    Sim.phases slow_tool (started slow_tool (Sim.boot slow_tool)) = Ret tt s'
    /\ Z.of_nat (length (simulation_results (self s'))) = 201
    /\ consistent (test_summary (self s')).
Proof.
  destruct (phases_run_the_plan slow_tool slow_tool_no_interrupt slow_tool_calm)
    as (s' & E & _ & T & _ & C & _).
  exists s'. split; [exact E|]. split; [exact T|exact C].
Defined.

Lemma probe_once_per_session_witness :
  exists o s',
    Sim.run_full_simulation tool_absent (Sim.boot tool_absent) = Ret o s'
    /\ launched s' = [ probe_argv ]
    /\ _driftmgr_available (self s') = Some false.
Proof.
  destruct (probe_once_per_session tool_absent tool_absent_no_interrupt
              tool_absent_calm)
    as (o & s' & E & L & _ & C & _).
  exists o, s'. split; [exact E|]. split; [exact L|exact C].
Defined.

Lemma zero_executed_session_reports_zero_witness :
  exists r s',
    Sim.run_full_simulation tool_absent (Sim.boot tool_absent) = Ret (Some r) s'
    /\ overall_success_rate r = Int 0.
Proof.
  destruct (zero_executed_session_reports_zero tool_absent
              tool_absent_no_interrupt tool_absent_calm eq_refl)
    as (r & s' & E & _ & _ & R & _).
  exists r, s'. split; [exact E|exact R].
Defined.

Lemma session_without_the_tool_witness :
  exists r s',
    Sim.run_full_simulation tool_absent (Sim.boot tool_absent) = Ret (Some r) s'
    /\ launched s' = [ probe_argv ]
    /\ overall_success_rate r = Int 0
    /\ info_successful_commands (simulation_info r) = 0.
Proof.
  destruct (session_without_the_tool tool_absent tool_absent_no_interrupt
              tool_absent_calm eq_refl)
    as (r & s' & E & L & _ & _ & R & S & _).
  exists r, s'. split; [exact E|]. split; [exact L|]. split; [exact R|exact S].
Defined.

Lemma session_counts_every_command_witness :
  exists r s',
    Sim.run_full_simulation tool_absent (Sim.boot tool_absent) = Ret (Some r) s'
    /\ completed_commands (tui (self s')) = 201
    /\ info_total_commands (simulation_info r) = 201.
Proof.
  destruct (session_counts_every_command tool_absent tool_absent_no_interrupt
              tool_absent_calm)
    as (r & s' & E & C & _ & T & _ & F).
  exists r, s'. split; [exact E|].
  assert (H : completed_commands (tui (self s')) = 201).
  { rewrite T in F. apply F. reflexivity. }
  split; [exact H|]. rewrite <- C. exact H.
Defined.
